(** * dashboard.py: resource values, snapshot decoding and node/pod tables

    A shallow embedding of [src/dashboard.py] (the k3s-lab Streamlit
    dashboard) and the properties of its data pipeline.

    Modelling conventions.
    - Python values that the code handles dynamically (the result of
      [run_cmd], the documents returned by [json.loads]) are terms of
      [pyval]; an operation that can raise returns a [result].
    - [str] is [string]; the text handled here is what kubectl prints, and
      the character classes below ([str.isdigit], [str.split], ...) are the
      ASCII ones: they are those of [str] on text of ASCII characters
      ([ascii_text]), and a property that depends on them is stated for
      such text.  Code-point order is the order of [String_as_OT].
    - The pandas operations are modelled on frames whose key cells are
      text, as the frames of the dashboard are: the sort keys of a pod
      record ([text_sort_keys]), its group keys ([has_str_keys]), the node
      name of a capacity row ([text_node]).  A property of a sort, a group
      table or a merge is stated for such frames.
    - [float] is IEEE 754 binary64, as [spec_float] with [prec = 53] and
      [emax = 1024], rounding to nearest even.
    - [subprocess.run], the text parser behind [json.loads], and [str()]
      of a value that is not a [str] are parameters of the development. *)

From Stdlib Require Import ZArith List String Ascii Bool Lia Permutation Sorted.
From Stdlib Require Import Floats.SpecFloat.
From Stdlib Require Floats.PrimFloat Floats.FloatOps.
From Stdlib Require Import Structures.OrdersEx Classes.RelationClasses.
Import ListNotations.

Local Open Scope string_scope.
Local Open Scope Z_scope.

(** ** Floats *)

Module PyFloat.

Definition float := spec_float.

Definition prec : Z := 53.
Definition emax : Z := 1024.

Definition fmul : float -> float -> float := SFmul prec emax.
Definition fdiv : float -> float -> float := SFdiv prec emax.
Definition fltb : float -> float -> bool := SFltb.
Definition fleb : float -> float -> bool := SFleb.

(** [0.0] *)
Definition zero : float := S754_zero false.

(** Conversion of a Python [int] to [float] (exact below [2^53]). *)
Definition of_int (z : Z) : float := binary_normalize prec emax z 0 false.

(** The value [(-1)^neg * d * 10^e], correctly rounded: what the decimal
    to binary conversion of [float(str)] returns for digits [d] and decimal
    exponent [e]. *)
Definition of_decimal (neg : bool) (d : Z) (e : Z) : float :=
  match d with
  | Zpos p =>
      if 0 <=? e
      then fdiv (S754_finite neg (p * Z.to_pos (10 ^ e)) 0) (S754_finite false 1 0)
      else fdiv (S754_finite neg p 0) (S754_finite false (Z.to_pos (10 ^ (- e))) 0)
  | _ => S754_zero neg
  end.

(** A float is "not negative" when it does not compare below zero: it is
    [+0.0], [-0.0], positive, [+inf] or NaN. *)
Definition not_negative (x : float) : Prop := fltb x zero = false.

(** [0 <= x] in the sense of Python's [>=] (false on NaN). *)
Definition nonneg (x : float) : Prop := fleb zero x = true.

End PyFloat.
Export PyFloat.

(** ** Text *)

Module Text.

Definition code (c : ascii) : nat := nat_of_ascii c.

(** [c.isdigit()] for an ASCII character (outside ASCII [str.isdigit]
    knows further digits, which are not modelled). *)
Definition is_digit (c : ascii) : bool :=
  (48 <=? code c)%nat && (code c <=? 57)%nat.

Definition digit_val (c : ascii) : Z := Z.of_nat (code c) - 48.

(** [c.isspace()] for an ASCII character: TAB, LF, VT, FF, CR, FS, GS, RS,
    US, space (outside ASCII [str.isspace] knows further blanks, which are
    not modelled). *)
Definition is_space (c : ascii) : bool :=
  ((9 <=? code c)%nat && (code c <=? 13)%nat)
  || ((28 <=? code c)%nat && (code c <=? 32)%nat).

(** C [isspace] in the "C" locale, which [float()] uses on ASCII text. *)
Definition is_cspace (c : ascii) : bool :=
  ((9 <=? code c)%nat && (code c <=? 13)%nat) || (code c =? 32)%nat.

(** Line boundaries of [str.splitlines] among the ASCII characters
    (outside ASCII there are three more, which are not modelled). *)
Definition is_linebreak (c : ascii) : bool :=
  ((10 <=? code c)%nat && (code c <=? 13)%nat)
  || ((28 <=? code c)%nat && (code c <=? 30)%nat).

Definition chars : string -> list ascii := list_ascii_of_string.
Definition text : list ascii -> string := string_of_list_ascii.

Fixpoint drop_while (p : ascii -> bool) (l : list ascii) : list ascii :=
  match l with
  | c :: r => if p c then drop_while p r else l
  | [] => []
  end.

Fixpoint span (p : ascii -> bool) (l : list ascii) : list ascii * list ascii :=
  match l with
  | c :: r => if p c then let (a, b) := span p r in (c :: a, b) else ([], l)
  | [] => ([], [])
  end.

Definition strip_with (p : ascii -> bool) (l : list ascii) : list ascii :=
  rev (drop_while p (rev (drop_while p l))).

(** [s.strip()] *)
Definition strip (s : string) : string := text (strip_with is_space (chars s)).

(** [s.endswith(suffix)] *)
Definition endswith (s suffix : string) : bool :=
  let n := String.length s in
  let k := String.length suffix in
  (k <=? n)%nat && String.eqb (substring (n - k) k s) suffix.

(** [s[:-k]] for [k > 0] *)
Definition drop_last (k : nat) (s : string) : string :=
  substring 0 (String.length s - k) s.

(** [s.replace(".", "", 1)] *)
Fixpoint remove_first_dot (s : string) : string :=
  match s with
  | String c r => if Ascii.eqb c "." then r else String c (remove_first_dot r)
  | EmptyString => EmptyString
  end.

(** [s.isdigit()]: at least one character, all of them digits. *)
Definition isdigit (s : string) : bool :=
  match chars s with
  | [] => false
  | l => forallb is_digit l
  end.

(** [s.split()]: the maximal runs of characters that are not whitespace. *)
Fixpoint split_aux (cur : list ascii) (l : list ascii) : list string :=
  match l with
  | [] => match cur with [] => [] | _ => [text (rev cur)] end
  | c :: r =>
      if is_space c
      then match cur with
           | [] => split_aux [] r
           | _ => text (rev cur) :: split_aux [] r
           end
      else split_aux (c :: cur) r
  end.

Definition split (s : string) : list string := split_aux [] (chars s).

(** [s.splitlines()]: CR LF is one boundary; no empty last line. *)
Fixpoint splitlines_aux (cur : list ascii) (l : list ascii) : list string :=
  match l with
  | [] => match cur with [] => [] | _ => [text (rev cur)] end
  | c :: r =>
      if is_linebreak c
      then text (rev cur) ::
           match r with
           | d :: r' =>
               if ((code c =? 13)%nat && (code d =? 10)%nat)%bool
               then splitlines_aux [] r'
               else splitlines_aux [] r
           | [] => []
           end
      else splitlines_aux (c :: cur) r
  end.

Definition splitlines (s : string) : list string := splitlines_aux [] (chars s).

Definition lower (c : ascii) : ascii :=
  if ((65 <=? code c)%nat && (code c <=? 90)%nat)%bool
  then ascii_of_nat (code c + 32) else c.

End Text.
Export Text.

(** ** Python values and exceptions *)

Inductive exn : Type :=
  | TypeError
  | ValueError
  | AttributeError.

Inductive result (A : Type) : Type :=
  | Ok (a : A)
  | Raise (e : exn).

Arguments Ok {A} a.
Arguments Raise {A} e.

Definition bind {A B : Type} (r : result A) (k : A -> result B) : result B :=
  match r with
  | Ok a => k a
  | Raise e => Raise e
  end.

Notation "x <- r ;; k" := (bind r (fun x => k))
  (at level 61, r at next level, right associativity).

Fixpoint mapM {A B : Type} (f : A -> result B) (l : list A) : result (list B) :=
  match l with
  | [] => Ok []
  | a :: r => b <- f a ;; bs <- mapM f r ;; Ok (b :: bs)
  end.

#[local] Set Warnings "-register-all".

Inductive pyval : Type :=
  | PNone
  | PBool (b : bool)
  | PInt (z : Z)
  | PFloat (x : float)
  | PStr (s : string)
  | PTuple (l : list pyval)
  | PList (l : list pyval)
  | PDict (d : list (string * pyval)).

Module Py.

(** Truth value of an object, as tested by [if] and [not]. *)
Definition truthy (v : pyval) : bool :=
  match v with
  | PNone => false
  | PBool b => b
  | PInt z => negb (z =? 0)
  | PFloat x => negb (SFeqb x zero)
  | PStr s => negb (String.eqb s "")
  | PTuple l => match l with [] => false | _ => true end
  | PList l => match l with [] => false | _ => true end
  | PDict d => match d with [] => false | _ => true end
  end.

Fixpoint assoc (k : string) (d : list (string * pyval)) : option pyval :=
  match d with
  | [] => None
  | (k', v) :: r => if String.eqb k k' then Some v else assoc k r
  end.

(** [obj.get(key, default)]: only a dict has the method. *)
Definition get (obj : pyval) (key : string) (default : pyval) : result pyval :=
  match obj with
  | PDict d => Ok (match assoc key d with Some v => v | None => default end)
  | _ => Raise AttributeError
  end.

(** The sequence a [for] loop walks over. *)
Definition iter (v : pyval) : result (list pyval) :=
  match v with
  | PList l => Ok l
  | PTuple l => Ok l
  | PDict d => Ok (map (fun kv => PStr (fst kv)) d)
  | PStr s => Ok (map (fun c => PStr (String c EmptyString)) (chars s))
  | _ => Raise TypeError
  end.

(** [obj.splitlines()]: a method of [str]. *)
Definition splitlines (v : pyval) : result (list string) :=
  match v with
  | PStr s => Ok (Text.splitlines s)
  | _ => Raise AttributeError
  end.

(** *** [float(s)] for a [str] *)

Definition underscore : ascii := "_"%char.

(** Digit separators: an underscore must stand between two digits; the
    text is then read without them. *)
Fixpoint drop_underscores (prev : option ascii) (l : list ascii)
  : option (list ascii) :=
  match l with
  | [] =>
      match prev with
      | Some p => if Ascii.eqb p underscore then None else Some []
      | None => Some []
      end
  | c :: r =>
      if Ascii.eqb c underscore
      then match prev with
           | Some p => if is_digit p then drop_underscores (Some c) r else None
           | None => None
           end
      else
        let after_underscore :=
          match prev with Some p => Ascii.eqb p underscore | None => false end in
        if after_underscore && negb (is_digit c) then None
        else option_map (cons c) (drop_underscores (Some c) r)
  end.

Definition take_sign (l : list ascii) : bool * list ascii :=
  match l with
  | "-"%char :: r => (true, r)
  | "+"%char :: r => (false, r)
  | _ => (false, l)
  end.

Definition digits_value (l : list ascii) : Z :=
  fold_left (fun acc c => 10 * acc + digit_val c) l 0.

Definition is_e (c : ascii) : bool := Ascii.eqb c "e" || Ascii.eqb c "E".

(** [digits [. digits]] or [. digits], then an optional exponent. *)
Definition parse_decimal (neg : bool) (l : list ascii) : option float :=
  let (ip, r1) := span is_digit l in
  let (fp, r2) :=
    match r1 with
    | "."%char :: t => span is_digit t
    | _ => ([], r1)
    end in
  match (ip ++ fp)%list with
  | [] => None
  | ds =>
      let frac := Z.of_nat (List.length fp) in
      match r2 with
      | [] => Some (of_decimal neg (digits_value ds) (- frac))
      | c :: r3 =>
          if is_e c then
            let (eneg, r4) := take_sign r3 in
            let (ed, r5) := span is_digit r4 in
            match ed, r5 with
            | _ :: _, [] =>
                let e := digits_value ed in
                Some (of_decimal neg (digits_value ds)
                        ((if eneg then - e else e) - frac))
            | _, _ => None
            end
          else None
      end
  end.

Definition parse_float (l : list ascii) : option float :=
  let (neg, r) := take_sign l in
  let w := text (map lower r) in
  if String.eqb w "inf" || String.eqb w "infinity" then Some (S754_infinity neg)
  else if String.eqb w "nan" then Some S754_nan
  else parse_decimal neg r.

(** [float(s)] for an ASCII text: [ValueError] when [s] is not a float
    literal.  Outside ASCII [float] also reads the Unicode decimal digits
    and skips the Unicode blanks, which is not modelled: a text with a
    character outside ASCII is rejected here. *)
Definition float_of_str (s : string) : result float :=
  match drop_underscores None (chars s) with
  | None => Raise ValueError
  | Some l =>
      match parse_float (strip_with is_cspace l) with
      | Some x => Ok x
      | None => Raise ValueError
      end
  end.

End Py.

(** ** Rows of the data frames *)

(** A row of [pods_df] ([get_pods]): the cells are whatever the JSON
    document held. *)
Module Pods.
Record row : Type := {
  microservice : pyval;
  svc_id : pyval;
  pod : pyval;
  node : pyval;
  phase : pyval
}.
End Pods.

(** A row of [base_df] ([get_node_info]). *)
Module Nodes.
Record row : Type := {
  node : pyval;
  cpu_capacity_cores : float;
  mem_capacity_bytes : float;
  cpu_alloc_cores : float;
  mem_alloc_bytes : float
}.

Definition columns : list string :=
  ["node"; "cpu_capacity_cores"; "mem_capacity_bytes";
   "cpu_alloc_cores"; "mem_alloc_bytes"].
End Nodes.

(** A row of [metrics_df] ([get_node_info]). *)
Module Metrics.
Record row : Type := {
  node : string;
  cpu_used_cores_raw : string;
  cpu_used_cores : float;
  cpu_used_pct : string;
  mem_used_bytes_raw : string;
  mem_used_bytes : float;
  mem_used_pct : string
}.

Definition columns : list string :=
  ["node"; "cpu_used_cores_raw"; "cpu_used_cores"; "cpu_used_pct";
   "mem_used_bytes_raw"; "mem_used_bytes"; "mem_used_pct"].
End Metrics.

(** The frame [merged] returned by [get_node_info].  A row carries the
    cells of a [base_df] row and, under the columns that come from
    [metrics_df], either the cells of a matching row or nothing ([None]:
    the cells are missing, NaN in pandas).  [columns] lists the columns the
    frame has. *)
Module Merged.
Record row : Type := {
  base : Nodes.row;
  metrics : option Metrics.row
}.

Record frame : Type := {
  columns : list string;
  rows : list row
}.
End Merged.

(** The frame [pivot] of [main]: row labels, column labels, counts. *)
Module Pivot.
Record frame : Type := {
  index : list string;
  columns : list string;
  values : list (list nat)
}.
End Pivot.

(** ** pandas *)

Module Pandas.

(** Order of two cells of a sort key that are text: the code-point order
    of the texts.  On cells that are not text pandas has other rules
    (numbers by value, an error for values it cannot order), which are not
    modelled: the other cases only make the function total, and the
    properties of the sort are stated for records with text keys
    ([text_sort_keys]). *)
Definition cell_compare (a b : pyval) : comparison :=
  match a, b with
  | PStr x, PStr y => String_as_OT.compare x y
  | PStr _, _ => Lt
  | _, PStr _ => Gt
  | _, _ => Eq
  end.

Section SortValues.
Context {R : Type} (compare : R -> R -> comparison).

Definition leb (a b : R) : bool :=
  match compare a b with Gt => false | _ => true end.

Fixpoint insert (r : R) (l : list R) : list R :=
  match l with
  | [] => [r]
  | x :: t => if leb r x then r :: l else x :: insert r t
  end.

(** [df.sort_values(by)] on rows with text keys: the rows in ascending
    key order, rows with equal keys in the order they had. *)
Fixpoint sort_values (l : list R) : list R :=
  match l with
  | [] => []
  | r :: t => insert r (sort_values t)
  end.
End SortValues.

(** The key of a [groupby]: the text of a [str] cell.  Key cells that
    are not text (pandas groups numbers, drops missing values and raises on
    values it cannot hash) are not modelled: they give no key here, and the
    properties of the group tables that depend on the keys are stated for
    records with text keys ([has_str_keys]). *)
Definition str_key (c : pyval) : option string :=
  match c with
  | PStr s => Some s
  | _ => None
  end.

Definition pair_compare (a b : string * string) : comparison :=
  match String_as_OT.compare (fst a) (fst b) with
  | Eq => String_as_OT.compare (snd a) (snd b)
  | c => c
  end.

Section GroupBy.
Context {K : Type} (compare : K -> K -> comparison).

(** One more row in the group of [k], in a table ordered by key. *)
Fixpoint bump (k : K) (acc : list (K * nat)) : list (K * nat) :=
  match acc with
  | [] => [(k, 1%nat)]
  | (k', n) :: r =>
      match compare k k' with
      | Lt => (k, 1%nat) :: acc
      | Eq => (k', S n) :: r
      | Gt => (k', n) :: bump k r
      end
  end.

(** [df.groupby(by).size()]: each key that occurs, in ascending order,
    with its number of rows. *)
Definition group_sizes (keys : list K) : list (K * nat) :=
  fold_right bump [] keys.

(** The distinct values of a column, ascending. *)
Definition unique_sorted (keys : list K) : list K :=
  map fst (group_sizes keys).
End GroupBy.

Definition pair_eqb (a b : string * string) : bool :=
  String.eqb (fst a) (fst b) && String.eqb (snd a) (snd b).

(** The value at label [k], the first one if there are several. *)
Fixpoint lookup {K V : Type} (eqb : K -> K -> bool) (k : K) (l : list (K * V))
  : option V :=
  match l with
  | [] => None
  | (k', v) :: r => if eqb k k' then Some v else lookup eqb k r
  end.

Fixpoint has_duplicates (l : list (string * string)) : bool :=
  match l with
  | [] => false
  | k :: r => existsb (pair_eqb k) r || has_duplicates r
  end.

(** [df.pivot(index, columns, values)]: one row per index label, one
    column per column label, both ascending; the cell is the value of the
    row of [df] with that (index, column) pair, missing ([None]) when there
    is none.  Two rows with one pair: [ValueError]. *)
Definition pivot (df : list ((string * string) * nat))
  : result (list string * list string * list (list (option nat))) :=
  if has_duplicates (map fst df) then Raise ValueError
  else
    let index := unique_sorted String_as_OT.compare (map (fun r => fst (fst r)) df) in
    let columns := unique_sorted String_as_OT.compare (map (fun r => snd (fst r)) df) in
    Ok (index, columns,
        map (fun i => map (fun c => lookup pair_eqb (i, c) df) columns) index).

(** [.fillna(0).astype(int)] on the cells of a pivot. *)
Definition fillna0 (cells : list (list (option nat))) : list (list nat) :=
  map (map (fun c => match c with Some n => n | None => 0%nat end)) cells.

End Pandas.

(** ** The dashboard *)

Section Dashboard.

(** [subprocess.run(cmd, text=True, stdout=PIPE, stderr=PIPE, cwd=cwd)]:
    the completed process as (stdout, stderr, returncode), or the message
    of the exception it raised. *)
Variable subprocess_run :
  list string -> option string -> (string * string * Z) + string.

(** The document a JSON text denotes, if it is one ([json.loads] raises
    [JSONDecodeError], a [ValueError], otherwise). *)
Variable json_parse : string -> option pyval.

(** [str(v)] for a value that is not a [str]. *)
Variable repr : pyval -> string.

(** [run_cmd]: always a triple (stdout, stderr, returncode).  The
    [st.error] call of the handler only draws on the page. *)
Definition run_cmd (cmd : list string) (cwd : option string) : pyval :=
  match subprocess_run cmd cwd with
  | inl (stdout, stderr, returncode) =>
      PTuple [PStr (strip stdout); PStr (strip stderr); PInt returncode]
  | inr e => PTuple [PStr ""; PStr e; PInt 1]
  end.

(** [json.loads(s)]: [TypeError] unless [s] is text. *)
Definition json_loads (s : pyval) : result pyval :=
  match s with
  | PStr t =>
      match json_parse t with
      | Some data => Ok data
      | None => Raise ValueError
      end
  | _ => Raise TypeError
  end.

Definition empty_dict : pyval := PDict [].

(** The body of the loop of [get_pods] (lines 64-75). *)
Definition pod_row (item : pyval) : result Pods.row :=
  meta <- Py.get item "metadata" empty_dict ;;
  spec <- Py.get item "spec" empty_dict ;;
  status <- Py.get item "status" empty_dict ;;
  labels <- Py.get meta "labels" empty_dict ;;
  microservice <- Py.get labels "app" (PStr "") ;;
  svc_id <- Py.get labels "svc-id" (PStr "") ;;
  pod <- Py.get meta "name" (PStr "") ;;
  node <- Py.get spec "nodeName" (PStr "") ;;
  phase <- Py.get status "phase" (PStr "") ;;
  Ok {| Pods.microservice := microservice;
        Pods.svc_id := svc_id;
        Pods.pod := pod;
        Pods.node := node;
        Pods.phase := phase |}.

(** The key of [sort_values(["microservice", "pod"])]. *)
Definition pod_key_compare (a b : Pods.row) : comparison :=
  match Pandas.cell_compare (Pods.microservice a) (Pods.microservice b) with
  | Eq => Pandas.cell_compare (Pods.pod a) (Pods.pod b)
  | c => c
  end.

(** [get_pods] from the decoded document on: the loop, the frame and its
    sort (lines 62-80). *)
Definition decode_pods (data : pyval) : result (list Pods.row) :=
  items <- Py.get data "items" (PList []) ;;
  items <- Py.iter items ;;
  rows <- mapM pod_row items ;;
  let df := rows in
  Ok (match df with
      | [] => df
      | _ => Pandas.sort_values pod_key_compare df
      end).

Definition get_pods (namespace : string) : result (list Pods.row) :=
  let cmd := ["kubectl"; "get"; "pods"; "-n"; namespace; "-o"; "json"] in
  let out := run_cmd cmd None in
  if negb (Py.truthy out) then Ok []
  else
    data <- json_loads out ;;
    decode_pods data.

Definition py_str (v : pyval) : string :=
  match v with
  | PStr s => s
  | _ => repr v
  end.

Definition multipliers : list (string * Z) :=
  [("Ki", 1024); ("Mi", 1024 ^ 2); ("Gi", 1024 ^ 3); ("Ti", 1024 ^ 4);
   ("K", 1000); ("M", 1000 ^ 2); ("G", 1000 ^ 3); ("T", 1000 ^ 4)].

(** The loop over [multipliers.items()] and the final [return 0.0]. *)
Fixpoint match_suffix (table : list (string * Z)) (v : string) : result float :=
  match table with
  | [] => Ok zero
  | (suffix, mult) :: rest =>
      if endswith v suffix then
        match Py.float_of_str (drop_last (String.length suffix) v) with
        | Ok x => Ok (fmul x (of_int mult))
        | Raise ValueError => Ok zero
        | Raise e => Raise e
        end
      else match_suffix rest v
  end.

Definition parse_resource_value (v : pyval) : result float :=
  match v with
  | PNone => Ok zero
  | PStr "" => Ok zero
  | _ =>
      let v := py_str v in
      if endswith v "m" then
        x <- Py.float_of_str (drop_last 1 v) ;;
        Ok (fdiv x (of_int 1000))
      else if isdigit (remove_first_dot v) then Py.float_of_str v
      else match_suffix multipliers v
  end.

(** The body of the first loop of [get_node_info] (lines 131-143). *)
Definition node_row (item : pyval) : result Nodes.row :=
  meta <- Py.get item "metadata" empty_dict ;;
  status <- Py.get item "status" empty_dict ;;
  name <- Py.get meta "name" (PStr "") ;;
  capacity <- Py.get status "capacity" empty_dict ;;
  alloc <- Py.get status "allocatable" empty_dict ;;
  v1 <- Py.get capacity "cpu" PNone ;;
  cpu_capacity_cores <- parse_resource_value v1 ;;
  v2 <- Py.get capacity "memory" PNone ;;
  mem_capacity_bytes <- parse_resource_value v2 ;;
  v3 <- Py.get alloc "cpu" PNone ;;
  cpu_alloc_cores <- parse_resource_value v3 ;;
  v4 <- Py.get alloc "memory" PNone ;;
  mem_alloc_bytes <- parse_resource_value v4 ;;
  Ok {| Nodes.node := name;
        Nodes.cpu_capacity_cores := cpu_capacity_cores;
        Nodes.mem_capacity_bytes := mem_capacity_bytes;
        Nodes.cpu_alloc_cores := cpu_alloc_cores;
        Nodes.mem_alloc_bytes := mem_alloc_bytes |}.

(** [base_df] from the decoded document (lines 129-145). *)
Definition decode_nodes (data : pyval) : result (list Nodes.row) :=
  items <- Py.get data "items" (PList []) ;;
  items <- Py.iter items ;;
  mapM node_row items.

(** One line of [kubectl top nodes --no-headers] (lines 153-169): a row
    when the line has five tokens or more. *)
Definition metric_row (line : string) : result (option Metrics.row) :=
  match split line with
  | node_name :: cpu_cores :: cpu_pct :: mem_bytes :: mem_pct :: _ =>
      cpu_used_cores <- parse_resource_value (PStr cpu_cores) ;;
      mem_used_bytes <- parse_resource_value (PStr mem_bytes) ;;
      Ok (Some {| Metrics.node := node_name;
                  Metrics.cpu_used_cores_raw := cpu_cores;
                  Metrics.cpu_used_cores := cpu_used_cores;
                  Metrics.cpu_used_pct := cpu_pct;
                  Metrics.mem_used_bytes_raw := mem_bytes;
                  Metrics.mem_used_bytes := mem_used_bytes;
                  Metrics.mem_used_pct := mem_pct |})
  | _ => Ok None
  end.

Fixpoint metric_rows_of (lines : list string) : result (list Metrics.row) :=
  match lines with
  | [] => Ok []
  | line :: rest =>
      r <- metric_row line ;;
      rs <- metric_rows_of rest ;;
      Ok (match r with Some row => row :: rs | None => rs end)
  end.

(** [metrics_df] from the output of [kubectl top nodes] (lines 150-171). *)
Definition decode_metrics (top_out : pyval) : result (list Metrics.row) :=
  if Py.truthy top_out then
    lines <- Py.splitlines top_out ;;
    metric_rows_of lines
  else Ok [].

(** The rows of [metrics_df] that join a [base_df] row on ["node"], for a
    row whose node name is text.  A node column that is not text (on which
    [pd.merge] can raise) is not modelled: the other case only makes the
    function total, and the properties of the merge are stated for
    capacity rows with text node names ([text_node]). *)
Definition on_node (b : Nodes.row) (m : Metrics.row) : bool :=
  match Nodes.node b with
  | PStr name => String.eqb name (Metrics.node m)
  | _ => false
  end.

(** [pd.merge(base_df, metrics_df, on="node", how="left")] on capacity
    rows with text node names: the rows of [base_df] in order, each once
    per matching row of [metrics_df], and once with the metrics cells
    missing when none matches. *)
Definition merge_left (base_df : list Nodes.row) (metrics_df : list Metrics.row)
  : Merged.frame :=
  {| Merged.columns := (Nodes.columns ++ tl Metrics.columns)%list;
     Merged.rows :=
       flat_map
         (fun b =>
            match filter (on_node b) metrics_df with
            | [] => [ {| Merged.base := b; Merged.metrics := None |} ]
            | ms => map (fun m => {| Merged.base := b; Merged.metrics := Some m |}) ms
            end)
         base_df |}.

(** [base_df] seen as the returned frame: its own columns only. *)
Definition base_frame (base_df : list Nodes.row) : Merged.frame :=
  {| Merged.columns := match base_df with [] => [] | _ => Nodes.columns end;
     Merged.rows :=
       map (fun b => {| Merged.base := b; Merged.metrics := None |}) base_df |}.

Definition empty {A : Type} (df : list A) : bool :=
  match df with [] => true | _ => false end.

(** [merged] (lines 171-175). *)
Definition build_node_view (base_df : list Nodes.row) (metrics_df : list Metrics.row)
  : Merged.frame :=
  if negb (empty base_df) && negb (empty metrics_df)
  then merge_left base_df metrics_df
  else base_frame base_df.

Definition get_node_info : result (Merged.frame * list Metrics.row) :=
  let cmd := ["kubectl"; "get"; "nodes"; "-o"; "json"] in
  let out := run_cmd cmd None in
  if negb (Py.truthy out) then Ok (base_frame [], [])
  else
    data <- json_loads out ;;
    base_df <- decode_nodes data ;;
    let cmd := ["kubectl"; "top"; "nodes"; "--no-headers"] in
    let top_out := run_cmd cmd None in
    metrics_df <- decode_metrics top_out ;;
    Ok (build_node_view base_df metrics_df, metrics_df).

(** *** The tables of [main] (lines 255-256 and 266) *)

Definition node_microservice (r : Pods.row) : option (string * string) :=
  match Pandas.str_key (Pods.node r), Pandas.str_key (Pods.microservice r) with
  | Some n, Some m => Some (n, m)
  | _, _ => None
  end.

Fixpoint keys_of {K : Type} (key : Pods.row -> option K) (df : list Pods.row)
  : list K :=
  match df with
  | [] => []
  | r :: t => match key r with
              | Some k => k :: keys_of key t
              | None => keys_of key t
              end
  end.

(** [pods_df.groupby(["node", "microservice"]).size().reset_index(name="pods")] *)
Definition ms_node_df (pods_df : list Pods.row) : list ((string * string) * nat) :=
  Pandas.group_sizes Pandas.pair_compare (keys_of node_microservice pods_df).

(** [ms_node_df.pivot(index="node", columns="microservice",
    values="pods").fillna(0).astype(int)] *)
Definition pivot (pods_df : list Pods.row) : result Pivot.frame :=
  p <- Pandas.pivot (ms_node_df pods_df) ;;
  let '(index, columns, cells) := p in
  Ok {| Pivot.index := index;
        Pivot.columns := columns;
        Pivot.values := Pandas.fillna0 cells |}.

(** [pods_df.groupby("node").size().reset_index(name="pod_count")] *)
Definition pods_per_node (pods_df : list Pods.row) : list (string * nat) :=
  Pandas.group_sizes String_as_OT.compare
    (keys_of (fun r => Pandas.str_key (Pods.node r)) pods_df).

End Dashboard.

(** ** Orders given by a comparison function *)

(** A comparison that is a total preorder: swapping the arguments flips
    the result, and "not greater" is transitive. *)
Record total_preorder {A : Type} (cmp : A -> A -> comparison) : Prop := {
  cmp_flip : forall a b, cmp a b = CompOpp (cmp b a);
  cmp_le_trans : forall a b c, cmp a b <> Gt -> cmp b c <> Gt -> cmp a c <> Gt
}.

Definition le_by {A : Type} (cmp : A -> A -> comparison) (a b : A) : Prop :=
  cmp a b <> Gt.

Definition lt_by {A : Type} (cmp : A -> A -> comparison) (a b : A) : Prop :=
  cmp a b = Lt.

Definition same_by {A : Type} (cmp : A -> A -> comparison) (a b : A) : bool :=
  match cmp a b with
  | Eq => true
  | _ => false
  end.

(** ** Readings of the parser *)

(** What the suffix loop of [parse_resource_value] returns for the text in
    front of a suffix of factor [mult]. *)
Definition times (mult : Z) (r : result float) : result float :=
  match r with
  | Ok f => Ok (fmul f (of_int mult))
  | Raise _ => Ok zero
  end.

(** A character of a plain number: a digit or the point. *)
Definition plain_char (c : ascii) : bool := is_digit c || Ascii.eqb c ".".

(** Float constants, as mantissa and binary exponent. *)
Definition f_0_5 : float := S754_finite false (2 ^ 52) (-53).
Definition f_2 : float := S754_finite false (2 ^ 52) (-51).
Definition f_1024 : float := S754_finite false (2 ^ 52) (-42).
Definition f_134217728 : float := S754_finite false (2 ^ 52) (-25).
Definition f_minus_0_5 : float := S754_finite true (2 ^ 52) (-53).

(** The sign bit of a float is clear (NaN has none). *)
Definition sign_clear (x : float) : Prop :=
  match x with
  | S754_nan => True
  | S754_zero s => s = false
  | S754_infinity s => s = false
  | S754_finite s _ _ => s = false
  end.

Definition minus : ascii := "-"%char.

(** The text has no minus sign in it. *)
Definition no_minus (s : string) : bool :=
  negb (existsb (Ascii.eqb minus) (chars s)).

(** ** Text of ASCII characters *)

Definition ascii_char (c : ascii) : bool := (code c <? 128)%nat.

(** Every character of the text is an ASCII character. *)
Definition ascii_text (s : string) : bool := forallb ascii_char (chars s).

(** ** The sign of a raw value *)

(** A blank in front of a number, which [float] skips: the whitespace of
    C, and outside ASCII the Unicode blanks; every character outside ASCII
    counts as a blank here. *)
Definition blank (c : ascii) : bool := is_cspace c || negb (ascii_char c).

(** The text begins with a minus sign: its first character that is not a
    blank is ["-"]. *)
Definition leading_minus (s : string) : bool :=
  match drop_while blank (chars s) with
  | c :: _ => Ascii.eqb c minus
  | [] => false
  end.

(** [x >= 0], or [x] is NaN. *)
Definition nonneg_or_nan (x : float) : Prop := nonneg x \/ x = S754_nan.

(** ** Readings of the pod frame *)

(** A pod listing item as the decoder expects it: an object whose
    ["metadata"], ["spec"] and ["status"] entries, and the ["labels"] entry
    of ["metadata"], are objects when they are present. *)
Definition dict_or_absent (v : option pyval) : bool :=
  match v with
  | None => true
  | Some (PDict _) => true
  | Some _ => false
  end.

Definition pod_item (item : pyval) : bool :=
  match item with
  | PDict d =>
      match Py.assoc "metadata" d with
      | None => true
      | Some (PDict m) => dict_or_absent (Py.assoc "labels" m)
      | Some _ => false
      end
      && dict_or_absent (Py.assoc "spec" d)
      && dict_or_absent (Py.assoc "status" d)
  | _ => false
  end.

(** The value found along a path of keys, the empty string when a key on
    the way is missing. *)
Fixpoint field (path : list string) (v : pyval) : pyval :=
  match path with
  | [] => v
  | k :: p =>
      match v with
      | PDict d =>
          match Py.assoc k d with
          | Some w => field p w
          | None => PStr ""
          end
      | _ => PStr ""
      end
  end.

(** The record of a pod listing item, in the words of the specification:
    labels [app] and [svc-id] and the name from the metadata, the node from
    the spec, the phase from the status, each the empty string when
    missing. *)
Definition pod_record (item : pyval) : Pods.row :=
  {| Pods.microservice := field ["metadata"; "labels"; "app"] item;
     Pods.svc_id := field ["metadata"; "labels"; "svc-id"] item;
     Pods.pod := field ["metadata"; "name"] item;
     Pods.node := field ["spec"; "nodeName"] item;
     Pods.phase := field ["status"; "phase"] item |}.

(** Ascending order of the key (microservice, pod name), and rows with the
    same key. *)
Definition pod_key_le : Pods.row -> Pods.row -> Prop := le_by pod_key_compare.

Definition same_pod_key : Pods.row -> Pods.row -> bool := same_by pod_key_compare.

(** A pod record whose node and microservice are text, as in a pod
    listing. *)
Definition has_str_keys (r : Pods.row) : bool :=
  match Pods.node r, Pods.microservice r with
  | PStr _, PStr _ => true
  | _, _ => false
  end.

(** The cell is the text [s]. *)
Definition cell_is (s : string) (c : pyval) : bool :=
  match c with
  | PStr x => String.eqb s x
  | _ => false
  end.

(** A pod record whose sort keys, microservice and pod name, are text, as
    in a pod listing. *)
Definition text_sort_keys (r : Pods.row) : bool :=
  match Pods.microservice r, Pods.pod r with
  | PStr _, PStr _ => true
  | _, _ => false
  end.

(** The order the specification names, on records with text keys:
    ascending by microservice and then by pod name, the texts in code-point
    order. *)
Definition by_microservice_then_pod (a b : Pods.row) : Prop :=
  exists ma pa mb pb : string,
    Pods.microservice a = PStr ma /\ Pods.pod a = PStr pa /\
    Pods.microservice b = PStr mb /\ Pods.pod b = PStr pb /\
    (String_as_OT.lt ma mb \/
     (ma = mb /\ (String_as_OT.lt pa pb \/ pa = pb))).

(** The record has the microservice [m] and the pod name [p]. *)
Definition has_key (m p : string) (r : Pods.row) : bool :=
  cell_is m (Pods.microservice r) && cell_is p (Pods.pod r).

(** The number of pod records on node [n], and of those that belong to
    microservice [m]. *)
Definition pods_on (n : string) (pods_df : list Pods.row) : nat :=
  List.length (filter (fun r => cell_is n (Pods.node r)) pods_df).

Definition pods_on_of (n m : string) (pods_df : list Pods.row) : nat :=
  List.length
    (filter (fun r => cell_is n (Pods.node r) && cell_is m (Pods.microservice r))
            pods_df).

(** ** Readings of the pivot table *)

(** The size recorded for a key in a table of group sizes, 0 when the key
    has no group. *)
Definition size_of {K : Type} (eqb : K -> K -> bool) (k : K) (acc : list (K * nat))
  : nat :=
  match Pandas.lookup eqb k acc with
  | Some n => n
  | None => 0%nat
  end.

(** Reading the pivot table: the row at an index label, the cell at an
    index label and a column label, and the sum of the cells of a row. *)
Definition loc (t : Pivot.frame) (n : string) : option (list nat) :=
  Pandas.lookup String.eqb n (combine (Pivot.index t) (Pivot.values t)).

Definition cell (t : Pivot.frame) (n m : string) : option nat :=
  match loc t n with
  | Some row => Pandas.lookup String.eqb m (combine (Pivot.columns t) row)
  | None => None
  end.

Definition row_total (t : Pivot.frame) (n : string) : option nat :=
  option_map list_sum (loc t n).

(** The table of counts: a row per node name and a column per microservice
    name that occur in [ms_node_df], each cell the size recorded for the
    pair. *)
Definition counts_table (pods_df : list Pods.row) : Pivot.frame :=
  let ms := ms_node_df pods_df in
  let index := Pandas.unique_sorted String_as_OT.compare (map (fun r => fst (fst r)) ms) in
  let columns := Pandas.unique_sorted String_as_OT.compare (map (fun r => snd (fst r)) ms) in
  {| Pivot.index := index;
     Pivot.columns := columns;
     Pivot.values :=
       map (fun i => map (fun c => size_of Pandas.pair_eqb (i, c) ms) columns) index |}.

(** ** Readings of the node frames *)

(** The capacity rows a node view shows, in order. *)
Definition capacity_rows (view : Merged.frame) : list Nodes.row :=
  map Merged.base (Merged.rows view).

(** Every cell under the utilization columns is missing. *)
Definition utilization_absent (view : Merged.frame) : Prop :=
  Forall (fun r => Merged.metrics r = None) (Merged.rows view).

(** The frame has a column of that name. *)
Definition has_column (view : Merged.frame) (name : string) : Prop :=
  In name (Merged.columns view).

(** The number of rows a left join gives to a [base_df] row: one per
    matching row of [metrics_df], and one when none matches. *)
Definition copies (metrics_df : list Metrics.row) (b : Nodes.row) : nat :=
  Nat.max 1 (List.length (filter (on_node b) metrics_df)).

(** A capacity row whose node name is text, as in a node listing. *)
Definition text_node (b : Nodes.row) : bool :=
  match Nodes.node b with
  | PStr _ => true
  | _ => false
  end.

(** The node name of a capacity row with a text node name. *)
Definition node_name (b : Nodes.row) : string :=
  match Nodes.node b with
  | PStr name => name
  | _ => ""
  end.

(** The number of utilization rows that carry the node name. *)
Definition utilization_count (name : string) (metrics_df : list Metrics.row) : nat :=
  count_occ string_dec (map Metrics.node metrics_df) name.

(** No node of a capacity row has more than one utilization row. *)
Definition at_most_one_utilization
  (base_df : list Nodes.row) (metrics_df : list Metrics.row) : Prop :=
  forall (b : Nodes.row) (name : string),
    In b base_df -> Nodes.node b = PStr name ->
    (utilization_count name metrics_df <= 1)%nat.

Section Quantities.
Variable repr : pyval -> string.

(** A raw resource value is absent, or text that does not begin with a
    minus sign. *)
Definition unsigned (v : pyval) : bool :=
  match v with
  | PNone => true
  | _ => negb (leading_minus (py_str repr v))
  end.

(** [status.get(group, {}).get(key)] of a node listing item. *)
Definition quantity (group key : string) (item : pyval) : pyval :=
  match Py.get item "status" empty_dict with
  | Ok status =>
      match Py.get status group empty_dict with
      | Ok g =>
          match Py.get g key PNone with
          | Ok v => v
          | Raise _ => PNone
          end
      | Raise _ => PNone
      end
  | Raise _ => PNone
  end.

Definition unsigned_item (item : pyval) : bool :=
  unsigned (quantity "capacity" "cpu" item)
  && unsigned (quantity "capacity" "memory" item)
  && unsigned (quantity "allocatable" "cpu" item)
  && unsigned (quantity "allocatable" "memory" item).

(** A raw resource value is absent, or ASCII text. *)
Definition ascii_quantity (v : pyval) : bool :=
  match v with
  | PNone => true
  | _ => ascii_text (py_str repr v)
  end.

Definition ascii_item (item : pyval) : bool :=
  ascii_quantity (quantity "capacity" "cpu" item)
  && ascii_quantity (quantity "capacity" "memory" item)
  && ascii_quantity (quantity "allocatable" "cpu" item)
  && ascii_quantity (quantity "allocatable" "memory" item).
End Quantities.

(** The items a listing is decoded from. *)
Definition listing_items (data : pyval) : list pyval :=
  match (items <- Py.get data "items" (PList []) ;; Py.iter items) with
  | Ok l => l
  | Raise _ => []
  end.

(** The four numeric cells of a capacity row, and the two of a utilization
    row when their raw text does not begin with a minus sign, are [>= 0] or
    NaN. *)
Definition capacity_not_negative (r : Nodes.row) : Prop :=
  nonneg_or_nan (Nodes.cpu_capacity_cores r) /\
  nonneg_or_nan (Nodes.mem_capacity_bytes r) /\
  nonneg_or_nan (Nodes.cpu_alloc_cores r) /\
  nonneg_or_nan (Nodes.mem_alloc_bytes r).

Definition utilization_not_negative (r : Metrics.row) : Prop :=
  (leading_minus (Metrics.cpu_used_cores_raw r) = false ->
   nonneg_or_nan (Metrics.cpu_used_cores r)) /\
  (leading_minus (Metrics.mem_used_bytes_raw r) = false ->
   nonneg_or_nan (Metrics.mem_used_bytes r)).

(** ** Sample inputs *)

(** An executor whose command fails: no output, a message on stderr, exit
    code 1. *)
Definition failing_executor (cmd : list string) (cwd : option string)
  : (string * string * Z) + string :=
  inl ("", "The connection to the server 0.0.0.0:6443 was refused", 1).

(** A pod listing: two pods of [svcA] on [n1], one pod of [svcB] on [n2],
    and a pod with no metadata at all. *)
Definition sample_pod (app name nodeName : string) : pyval :=
  PDict [("metadata", PDict [("labels", PDict [("app", PStr app)]);
                             ("name", PStr name)]);
         ("spec", PDict [("nodeName", PStr nodeName)]);
         ("status", PDict [("phase", PStr "Running")])].

Definition sample_pod_items : list pyval :=
  [sample_pod "svcB" "web-2" "n2"; sample_pod "svcA" "web-1" "n1";
   PDict []; sample_pod "svcA" "web-0" "n1"].

Definition sample_pod_listing : pyval := PDict [("items", PList sample_pod_items)].

(** The pod records of the sample listing. *)
Definition sample_pods_df : list Pods.row := map pod_record sample_pod_items.

(** A capacity row and a utilization row for the node ["n1"]. *)
Definition capacity_n1 : Nodes.row :=
  {| Nodes.node := PStr "n1";
     Nodes.cpu_capacity_cores := of_int 4;
     Nodes.mem_capacity_bytes := of_int (8 * 1024 ^ 3);
     Nodes.cpu_alloc_cores := of_int 4;
     Nodes.mem_alloc_bytes := of_int (8 * 1024 ^ 3) |}.

Definition utilization_n1 : Metrics.row :=
  {| Metrics.node := "n1";
     Metrics.cpu_used_cores_raw := "2";
     Metrics.cpu_used_cores := f_2;
     Metrics.cpu_used_pct := "50%";
     Metrics.mem_used_bytes_raw := "1Ki";
     Metrics.mem_used_bytes := f_1024;
     Metrics.mem_used_pct := "0%" |}.

(** A utilization row for a node ["n9"] that has no capacity row. *)
Definition utilization_n9 : Metrics.row :=
  {| Metrics.node := "n9";
     Metrics.cpu_used_cores_raw := "2";
     Metrics.cpu_used_cores := f_2;
     Metrics.cpu_used_pct := "50%";
     Metrics.mem_used_bytes_raw := "1Ki";
     Metrics.mem_used_bytes := f_1024;
     Metrics.mem_used_pct := "0%" |}.

(** Node listings: one with an ordinary node, one whose node reports a CPU
    capacity of ["-500m"]. *)
Definition node_item (name cpu memory : string) : pyval :=
  PDict [("metadata", PDict [("name", PStr name)]);
         ("status", PDict [("capacity", PDict [("cpu", PStr cpu); ("memory", PStr memory)]);
                           ("allocatable", PDict [("cpu", PStr cpu); ("memory", PStr memory)])])].

Definition sample_node_listing : pyval :=
  PDict [("items", PList [node_item "n1" "4" "8Gi"; node_item "n2" "2" "4Gi"])].

Definition negative_node_listing : pyval :=
  PDict [("items", PList [node_item "n1" "-500m" "8Gi"])].

(** A node whose memory is written with a negative exponent, and a node
    whose memory is not a number. *)
Definition exponent_node_listing : pyval :=
  PDict [("items", PList [node_item "n1" "4" "1e-3Ki"])].

Definition nan_node_listing : pyval :=
  PDict [("items", PList [node_item "n1" "4" "nanM"])].

(** Output of [kubectl top nodes --no-headers]. *)
Definition sample_top_out : pyval :=
  PStr "n1 250m 6% 1024Mi 13%".

Definition negative_top_out : pyval :=
  PStr "n1 -250m 6% 1024Mi 13%".

(** ** The cluster actions *)

Section Actions.
Variable subprocess_run :
  list string -> option string -> (string * string * Z) + string.

Definition K3D_CLUSTER_NAME : string := "myk3s".
Definition LAB_DIR : string := "/home/ubuntu/k3s-lab/k3s-lab".

Definition k3d_cluster_start : pyval :=
  run_cmd subprocess_run ["k3d"; "cluster"; "start"; K3D_CLUSTER_NAME] None.

Definition k3d_cluster_stop : pyval :=
  run_cmd subprocess_run ["k3d"; "cluster"; "stop"; K3D_CLUSTER_NAME] None.

Definition restart_microservices : pyval :=
  run_cmd subprocess_run
    ["kubectl"; "rollout"; "restart"; "deployment"; "-n"; "default";
     "-l"; "app=nginx-svc-"] None.

Definition run_ansible_lab : pyval :=
  run_cmd subprocess_run ["bash"; "run.sh"] (Some LAB_DIR).
End Actions.

(** A text that [strip] leaves as it is. *)
Definition stripped (s : string) : Prop := strip s = s.

(** The last character of a text. *)
Fixpoint last_char (s : string) : option ascii :=
  match s with
  | EmptyString => None
  | String c EmptyString => Some c
  | String _ r => last_char r
  end.

(** ** Shapes of documents *)

(** The value is a JSON object. *)
Definition is_object (v : pyval) : bool :=
  match v with
  | PDict _ => true
  | _ => false
  end.

(** The value is [null], a boolean or a number. *)
Definition is_scalar (v : pyval) : bool :=
  match v with
  | PNone => true
  | PBool _ => true
  | PInt _ => true
  | PFloat _ => true
  | _ => false
  end.

(** A capacity row reads its four numeric cells from the raw values of the
    item; a raw value that is absent gives 0.0. *)
Definition capacity_cells_parsed (repr : pyval -> string) (item : pyval) (r : Nodes.row)
  : Prop :=
  parse_resource_value repr (quantity "capacity" "cpu" item)
    = Ok (Nodes.cpu_capacity_cores r) /\
  parse_resource_value repr (quantity "capacity" "memory" item)
    = Ok (Nodes.mem_capacity_bytes r) /\
  parse_resource_value repr (quantity "allocatable" "cpu" item)
    = Ok (Nodes.cpu_alloc_cores r) /\
  parse_resource_value repr (quantity "allocatable" "memory" item)
    = Ok (Nodes.mem_alloc_bytes r).

Definition absent_cells_zero (item : pyval) (r : Nodes.row) : Prop :=
  (quantity "capacity" "cpu" item = PNone -> Nodes.cpu_capacity_cores r = zero) /\
  (quantity "capacity" "memory" item = PNone -> Nodes.mem_capacity_bytes r = zero) /\
  (quantity "allocatable" "cpu" item = PNone -> Nodes.cpu_alloc_cores r = zero) /\
  (quantity "allocatable" "memory" item = PNone -> Nodes.mem_alloc_bytes r = zero).

(** A node listing whose second node reports no status. *)
Definition partial_node_listing : pyval :=
  PDict [("items", PList [node_item "n1" "4" "8Gi";
                          PDict [("metadata", PDict [("name", PStr "n2")])]])].

(** ** Readings of the utilization lines *)

(** The token lists of the lines that have five tokens or more. *)
Definition metric_lines (top_out : string) : list (list string) :=
  filter (fun tokens => (5 <=? List.length tokens)%nat)
         (map split (Text.splitlines top_out)).

(** The five texts a utilization row keeps. *)
Definition metric_tokens (r : Metrics.row) : list string :=
  [Metrics.node r; Metrics.cpu_used_cores_raw r; Metrics.cpu_used_pct r;
   Metrics.mem_used_bytes_raw r; Metrics.mem_used_pct r].

(** A token: a text that is not empty and has no whitespace in it. *)
Definition is_token (t : string) : Prop :=
  t <> "" /\ forallb (fun c => negb (is_space c)) (chars t) = true.

(** The token is a millicore value that [float] rejects. *)
Definition bad_millicore (t : string) : Prop :=
  endswith t "m" = true /\ Py.float_of_str (drop_last 1 t) = Raise ValueError.

(** ** Readings of the group tables *)

(** Strictly ascending code-point order of a list of labels. *)
Definition ascending (labels : list string) : Prop :=
  StronglySorted (lt_by String_as_OT.compare) labels.

(** The table has one row of cells per row label and, in each row, one cell
    per column label. *)
Definition rectangular (t : Pivot.frame) : Prop :=
  List.length (Pivot.values t) = List.length (Pivot.index t) /\
  Forall (fun row => List.length row = List.length (Pivot.columns t)) (Pivot.values t).

(** The sum of all the cells of the table. *)
Definition grand_total (t : Pivot.frame) : nat :=
  list_sum (map list_sum (Pivot.values t)).

(** The sample listing with its items in key order. *)
Definition sorted_pod_items : list pyval :=
  [PDict []; sample_pod "svcA" "web-0" "n1"; sample_pod "svcA" "web-1" "n1";
   sample_pod "svcB" "web-2" "n2"].

Definition sorted_pod_listing : pyval := PDict [("items", PList sorted_pod_items)].

(** * Properties *)

(** ** Text *)

Module TextFacts.

Lemma length_append (x s : string) :
  String.length (x ++ s) = (String.length x + String.length s)%nat.
Proof. induction x as [|c x IH]; simpl; [reflexivity | now rewrite IH]. Qed.

Lemma substring_skip (x s : string) (i k : nat) :
  substring (String.length x + i) k (x ++ s) = substring i k s.
Proof. induction x as [|c x IH]; simpl; [reflexivity | exact IH]. Qed.

Lemma substring_prefix (x s : string) :
  substring 0 (String.length x) (x ++ s) = x.
Proof.
  induction x as [|c x IH]; simpl.
  - now destruct s.
  - now rewrite IH.
Qed.

(** Whether [x ++ s] ends with [t] is decided on [s] when [t] is no longer
    than [s]. *)
Lemma endswith_append (x s t : string) :
  (String.length t <= String.length s)%nat ->
  endswith (x ++ s) t = endswith s t.
Proof.
  intros Hle. unfold endswith. rewrite length_append.
  replace (String.length x + String.length s - String.length t)%nat
    with (String.length x + (String.length s - String.length t))%nat by lia.
  rewrite substring_skip.
  assert (H1 : (String.length t <=? String.length x + String.length s)%nat = true)
    by (apply Nat.leb_le; lia).
  assert (H2 : (String.length t <=? String.length s)%nat = true)
    by (now apply Nat.leb_le).
  now rewrite H1, H2.
Qed.

Lemma drop_last_append (x s : string) :
  drop_last (String.length s) (x ++ s) = x.
Proof.
  unfold drop_last. rewrite length_append.
  replace (String.length x + String.length s - String.length s)%nat
    with (String.length x) by lia.
  apply substring_prefix.
Qed.

Lemma chars_append (x s : string) : chars (x ++ s) = (chars x ++ chars s)%list.
Proof. induction x as [|c x IH]; simpl; [reflexivity | now rewrite IH]. Qed.

Lemma In_remove_first_dot (c : ascii) (s : string) :
  c <> "."%char -> In c (chars s) -> In c (chars (remove_first_dot s)).
Proof.
  intros Hc. induction s as [|d s IH]; simpl; [tauto|].
  intros [-> | Hin].
  - destruct (Ascii.eqb_spec c "."%char); [contradiction | now left].
  - destruct (Ascii.eqb_spec d "."%char); [assumption | right; auto].
Qed.

Lemma isdigit_all (s : string) (c : ascii) :
  isdigit s = true -> In c (chars s) -> is_digit c = true.
Proof.
  unfold isdigit. destruct (chars s) as [|d l] eqn:E; [discriminate|].
  intros H. now apply forallb_forall.
Qed.

(** A string with a letter in it is not a plain number. *)
Lemma not_isdigit (s : string) (c : ascii) :
  In c (chars s) -> c <> "."%char -> is_digit c = false ->
  isdigit (remove_first_dot s) = false.
Proof.
  intros Hin Hdot Hc.
  destruct (isdigit (remove_first_dot s)) eqn:E; [|reflexivity].
  rewrite (isdigit_all _ c E) in Hc; [discriminate|].
  now apply In_remove_first_dot.
Qed.

Lemma append_nonempty (x s : string) : s <> "" -> x ++ s <> "".
Proof. destruct x; simpl; [auto | discriminate]. Qed.

End TextFacts.

(** ** The query facade: [run_cmd] and [get_pods] *)

Section FacadeFacts.
Variable subprocess_run :
  list string -> option string -> (string * string * Z) + string.
Variable json_parse : string -> option pyval.
Variable repr : pyval -> string.

(** [run_cmd] returns a triple, and a triple is true in a condition, also
    when the command failed or printed nothing. *)
Lemma run_cmd_truthy (cmd : list string) (cwd : option string) :
  Py.truthy (run_cmd subprocess_run cmd cwd) = true.
Proof.
  unfold run_cmd.
  destruct (subprocess_run cmd cwd) as [[[stdout stderr] rc] | e]; reflexivity.
Qed.

Lemma json_loads_run_cmd (cmd : list string) (cwd : option string) :
  json_loads json_parse (run_cmd subprocess_run cmd cwd) = Raise TypeError.
Proof.
  unfold run_cmd.
  destruct (subprocess_run cmd cwd) as [[[stdout stderr] rc] | e]; reflexivity.
Qed.

(** [get_node_info] hands the same triple to [json.loads]. *)
Lemma get_node_info_raises_TypeError :
  get_node_info subprocess_run json_parse repr = Raise TypeError.
Proof.
  unfold get_node_info. rewrite run_cmd_truthy. simpl.
  now rewrite json_loads_run_cmd.
Qed.
End FacadeFacts.

(** C1 (defect in the code).  For every namespace and every behaviour of
    the executor, a failed fetch or an empty output included, [get_pods]
    raises [TypeError]: the triple returned by [run_cmd] passes the
    [if not out] test and reaches [json.loads].  It never returns the empty
    frame that the specification asks for. *)
Theorem get_pods_raises_TypeError :
  forall (subprocess_run : list string -> option string -> (string * string * Z) + string)
         (json_parse : string -> option pyval) (namespace : string),
    get_pods subprocess_run json_parse namespace = Raise TypeError.
Proof.
  intros. unfold get_pods.
  rewrite run_cmd_truthy. simpl.
  now rewrite json_loads_run_cmd.
Qed.

Example get_pods_failing_fetch (json_parse : string -> option pyval) :
  get_pods failing_executor json_parse "default" = Raise TypeError.
Proof. reflexivity. Qed.

(** ** The resource value parser *)

Section ParserFacts.
Variable repr : pyval -> string.

(** The memory branch catches the [ValueError] of [float]: the loop over
    the suffixes always returns a float. *)
Lemma match_suffix_returns (table : list (string * Z)) (v : string) :
  exists x, match_suffix table v = Ok x.
Proof.
  induction table as [|[suffix mult] rest IH]; simpl.
  - now exists zero.
  - destruct (endswith v suffix); [|exact IH].
    destruct (Py.float_of_str _) as [x|e] eqn:E.
    + eauto.
    + unfold Py.float_of_str in E.
      destruct (Py.drop_underscores _ _); [|injection E as <-; eauto].
      destruct (Py.parse_float _); [discriminate|].
      injection E as <-; eauto.
Qed.

Lemma parse_unfold (s : string) :
  s <> "" ->
  parse_resource_value repr (PStr s) =
    if endswith s "m" then
      x <- Py.float_of_str (drop_last 1 s) ;; Ok (fdiv x (of_int 1000))
    else if isdigit (remove_first_dot s) then Py.float_of_str s
    else match_suffix multipliers s.
Proof. destruct s; [congruence | reflexivity]. Qed.

Lemma float_of_str_error (x : string) (e : exn) :
  Py.float_of_str x = Raise e -> e = ValueError.
Proof.
  unfold Py.float_of_str.
  destruct (Py.drop_underscores _ _); [|congruence].
  destruct (Py.parse_float _); congruence.
Qed.

Lemma match_suffix_cons (suffix : string) (mult : Z) (rest : list (string * Z))
      (v : string) :
  match_suffix ((suffix, mult) :: rest) v =
    if endswith v suffix
    then times mult (Py.float_of_str (drop_last (String.length suffix) v))
    else match_suffix rest v.
Proof.
  simpl. destruct (endswith v suffix); [|reflexivity].
  destruct (Py.float_of_str _) as [f|e] eqn:E; [reflexivity|].
  now rewrite (float_of_str_error _ _ E).
Qed.

Ltac skip_suffix x :=
  rewrite match_suffix_cons;
  rewrite (TextFacts.endswith_append x) by (simpl; lia);
  match goal with
  | |- context [endswith ?s ?t] =>
      let b := eval vm_compute in (endswith s t) in
      change (endswith s t) with b; cbv iota
  end.

(** A value that ends in a letter [a] followed by ["i"]. *)
Lemma parse_suffixed (x sfx : string) :
  sfx <> "" ->
  endswith sfx "m" = false ->
  In "i"%char (chars sfx) ->
  parse_resource_value repr (PStr (x ++ sfx)) = match_suffix multipliers (x ++ sfx).
Proof.
  intros Hne Hm Hi.
  rewrite parse_unfold by now apply TextFacts.append_nonempty.
  destruct sfx as [|c sfx]; [congruence|].
  rewrite (TextFacts.endswith_append x) by (simpl; lia).
  rewrite Hm.
  rewrite (TextFacts.not_isdigit _ "i"%char); [reflexivity | | discriminate | reflexivity].
  rewrite TextFacts.chars_append. apply in_or_app. now right.
Qed.

Lemma parse_Ki (x : string) :
  parse_resource_value repr (PStr (x ++ "Ki")) = times 1024 (Py.float_of_str x).
Proof.
  rewrite parse_suffixed; [| discriminate | reflexivity | simpl; auto].
  unfold multipliers. skip_suffix x.
  now rewrite (TextFacts.drop_last_append x "Ki").
Qed.

Lemma parse_Mi (x : string) :
  parse_resource_value repr (PStr (x ++ "Mi")) = times (1024 ^ 2) (Py.float_of_str x).
Proof.
  rewrite parse_suffixed; [| discriminate | reflexivity | simpl; auto].
  unfold multipliers. do 2 skip_suffix x.
  now rewrite (TextFacts.drop_last_append x "Mi").
Qed.

Lemma parse_Gi (x : string) :
  parse_resource_value repr (PStr (x ++ "Gi")) = times (1024 ^ 3) (Py.float_of_str x).
Proof.
  rewrite parse_suffixed; [| discriminate | reflexivity | simpl; auto].
  unfold multipliers. do 3 skip_suffix x.
  now rewrite (TextFacts.drop_last_append x "Gi").
Qed.

Lemma parse_Ti (x : string) :
  parse_resource_value repr (PStr (x ++ "Ti")) = times (1024 ^ 4) (Py.float_of_str x).
Proof.
  rewrite parse_suffixed; [| discriminate | reflexivity | simpl; auto].
  unfold multipliers. do 4 skip_suffix x.
  now rewrite (TextFacts.drop_last_append x "Ti").
Qed.

End ParserFacts.

(** ** [float] accepts every plain number *)

Module PlainNumberFacts.

Lemma plain_char_class (c : ascii) :
  plain_char c = true ->
  Ascii.eqb c Py.underscore = false /\ is_cspace c = false /\ lower c = c /\
  Ascii.eqb c "i" = false /\ Ascii.eqb c "n" = false /\
  Py.take_sign [c] = (false, [c]).
Proof.
  destruct c as [[] [] [] [] [] [] [] []]; try discriminate; intros _;
    repeat split; reflexivity.
Qed.

Lemma digit_plain (c : ascii) : is_digit c = true -> plain_char c = true.
Proof. unfold plain_char. now intros ->. Qed.

Lemma digit_not_point (c : ascii) : is_digit c = true -> Ascii.eqb c "." = false.
Proof. destruct c as [[] [] [] [] [] [] [] []]; try discriminate; reflexivity. Qed.

(** The shape of a text that is all digits once its first point is
    removed. *)
Lemma plain_shape (s : string) :
  forallb is_digit (chars (remove_first_dot s)) = true ->
  forallb is_digit (chars s) = true \/
  exists a b, chars s = (a ++ "."%char :: b)%list /\
              forallb is_digit a = true /\ forallb is_digit b = true /\
              chars (remove_first_dot s) = (a ++ b)%list.
Proof.
  induction s as [|c r IH]; simpl; [now left|].
  destruct (Ascii.eqb_spec c "."%char) as [->|Hc].
  - intros H. right. exists [], (chars r). simpl. auto.
  - simpl. intros H. apply andb_prop in H. destruct H as [Hd Hr].
    destruct (IH Hr) as [Hall | [a [b [E [Ha [Hb Er]]]]]].
    + left. now rewrite Hd, Hall.
    + right. exists (c :: a), b. simpl. rewrite E, Ha, Hd, Er. auto.
Qed.

Lemma span_app (p : ascii -> bool) (a r : list ascii) :
  forallb p a = true ->
  match r with [] => True | c :: _ => p c = false end ->
  span p (a ++ r) = (a, r).
Proof.
  intros Ha Hr. induction a as [|c a IH]; simpl.
  - destruct r as [|d r]; simpl; [reflexivity | now rewrite Hr].
  - simpl in Ha. apply andb_prop in Ha. destruct Ha as [Hc Ha].
    now rewrite Hc, (IH Ha).
Qed.

Lemma span_all (p : ascii -> bool) (a : list ascii) :
  forallb p a = true -> span p a = (a, []).
Proof.
  intros Ha. rewrite <- (app_nil_r a) at 1. now apply span_app.
Qed.

Lemma parse_decimal_digits (neg : bool) (l : list ascii) :
  l <> [] -> forallb is_digit l = true ->
  exists x, Py.parse_decimal neg l = Some x.
Proof.
  intros Hne Hl. unfold Py.parse_decimal.
  rewrite (span_all is_digit l Hl). rewrite app_nil_r.
  destruct l; [congruence | eauto].
Qed.

Lemma parse_decimal_point (neg : bool) (a b : list ascii) :
  (a ++ b)%list <> [] -> forallb is_digit a = true -> forallb is_digit b = true ->
  exists x, Py.parse_decimal neg (a ++ "."%char :: b) = Some x.
Proof.
  intros Hne Ha Hb. unfold Py.parse_decimal.
  rewrite (span_app is_digit a ("."%char :: b) Ha) by reflexivity.
  rewrite (span_all is_digit b Hb).
  destruct (a ++ b)%list; [congruence | eauto].
Qed.

Lemma drop_underscores_none (prev : option ascii) (l : list ascii) :
  forallb plain_char l = true ->
  match prev with Some p => Ascii.eqb p Py.underscore = false | None => True end ->
  Py.drop_underscores prev l = Some l.
Proof.
  revert prev. induction l as [|c l IH]; intros prev Hl Hp; simpl.
  - destruct prev as [p|]; [now rewrite Hp | reflexivity].
  - simpl in Hl. apply andb_prop in Hl. destruct Hl as [Hc Hl].
    destruct (plain_char_class c Hc) as [Hu _]. rewrite Hu.
    assert (Hprev : match prev with
                    | Some p => Ascii.eqb p Py.underscore
                    | None => false
                    end = false) by (destruct prev; auto).
    rewrite Hprev. cbn [andb].
    now rewrite (IH (Some c) Hl Hu).
Qed.

Lemma drop_while_none (p : ascii -> bool) (l : list ascii) :
  match l with [] => True | c :: _ => p c = false end -> drop_while p l = l.
Proof. destruct l as [|c l]; simpl; [reflexivity | now intros ->]. Qed.

Lemma strip_with_none (l : list ascii) :
  forallb plain_char l = true -> strip_with is_cspace l = l.
Proof.
  intros Hl. unfold strip_with.
  assert (Hhd : forall t, forallb plain_char t = true ->
                          match t with [] => True | c :: _ => is_cspace c = false end).
  { intros [|c t]; [trivial|]. simpl. intros H. apply andb_prop in H.
    now destruct (plain_char_class c (proj1 H)) as [_ [Hs _]]. }
  rewrite (drop_while_none is_cspace l (Hhd l Hl)).
  rewrite drop_while_none; [apply rev_involutive|].
  apply Hhd. rewrite forallb_forall in *. intros c Hc. apply Hl. now apply in_rev.
Qed.

Lemma parse_float_plain (l : list ascii) :
  forallb plain_char l = true ->
  (exists x, Py.parse_decimal false l = Some x) ->
  exists x, Py.parse_float l = Some x.
Proof.
  intros Hl Hd. unfold Py.parse_float.
  destruct l as [|c l].
  - simpl. exact Hd.
  - simpl in Hl. apply andb_prop in Hl. destruct Hl as [Hc Hl].
    destruct (plain_char_class c Hc) as [_ [_ [Hlow [Hi [Hn Hs]]]]].
    assert (Hsign : Py.take_sign (c :: l) = (false, c :: l)).
    { unfold Py.take_sign in *. destruct c as [[] [] [] [] [] [] [] []];
        try reflexivity; discriminate. }
    rewrite Hsign. cbn [map text string_of_list_ascii]. rewrite Hlow.
    cbn [String.eqb]. rewrite Hi, Hn. cbn [orb]. exact Hd.
Qed.

(** A text of digits with at most one point is a float literal. *)
Lemma float_of_plain_number (s : string) :
  isdigit (remove_first_dot s) = true -> exists x, Py.float_of_str s = Ok x.
Proof.
  unfold isdigit. destruct (chars (remove_first_dot s)) as [|d ds] eqn:E; [discriminate|].
  intros H. rewrite <- E in H.
  assert (Hplain : forallb plain_char (chars s) = true /\
                   exists x, Py.parse_decimal false (chars s) = Some x).
  { destruct (plain_shape s H) as [Hall | [a [b [Es [Ha [Hb Er]]]]]].
    - split.
      + rewrite forallb_forall in *. intros c Hc. now apply digit_plain, Hall.
      + apply parse_decimal_digits; [|exact Hall].
        intros Hnil. destruct s; [discriminate E | discriminate Hnil].
    - split.
      + rewrite Es, forallb_app. rewrite forallb_forall in Ha, Hb.
        apply andb_true_intro. split.
        * apply forallb_forall. intros c Hc. now apply digit_plain, Ha.
        * simpl. apply forallb_forall. intros c Hc. now apply digit_plain, Hb.
      + rewrite Es. apply parse_decimal_point; [|exact Ha|exact Hb].
        rewrite <- Er, E. discriminate. }
  destruct Hplain as [Hp Hd]. unfold Py.float_of_str.
  rewrite (drop_underscores_none None (chars s) Hp I).
  rewrite (strip_with_none (chars s) Hp).
  destruct (parse_float_plain (chars s) Hp Hd) as [x Hx].
  rewrite Hx. eauto.
Qed.

End PlainNumberFacts.

(** The parser raises in one case only: the text ends in ["m"] and what
    stands in front is not a float literal. *)
Lemma parse_raises_only_millicore (repr : pyval -> string) (v : pyval) (e : exn) :
  parse_resource_value repr v = Raise e ->
  e = ValueError /\
  endswith (py_str repr v) "m" = true /\
  Py.float_of_str (drop_last 1 (py_str repr v)) = Raise ValueError.
Proof.
  intros H.
  assert (Hbody :
    (if endswith (py_str repr v) "m" then
       x <- Py.float_of_str (drop_last 1 (py_str repr v)) ;; Ok (fdiv x (of_int 1000))
     else if isdigit (remove_first_dot (py_str repr v)) then Py.float_of_str (py_str repr v)
     else match_suffix multipliers (py_str repr v)) = Raise e).
  { destruct v as [| | | |s| | |]; try exact H; try discriminate H.
    destruct s; [discriminate H | exact H]. }
  clear H.
  destruct (endswith (py_str repr v) "m").
  - destruct (Py.float_of_str (drop_last 1 (py_str repr v))) as [x|e'] eqn:E;
      [discriminate|].
    cbn [bind] in Hbody. injection Hbody as ->.
    pose proof (float_of_str_error _ _ E) as ->. auto.
  - destruct (isdigit (remove_first_dot (py_str repr v))) eqn:D.
    + destruct (PlainNumberFacts.float_of_plain_number _ D) as [x Hx]. congruence.
    + destruct (match_suffix_returns multipliers (py_str repr v)) as [x Hx]. congruence.
Qed.

(** C2 (defect in the code).  On ["abcm"], a value that ends in the
    millicore suffix with a remainder that is not a number,
    [parse_resource_value] raises [ValueError]: the [float] call of the CPU
    branch is outside any [try], unlike the one of the memory branch.  The
    specification asks for 0.0 and no exception. *)
Theorem parse_resource_value_millicore_raises :
  forall repr : pyval -> string,
    parse_resource_value repr (PStr "abcm") = Raise ValueError.
Proof. intros. reflexivity. Qed.

(** ** The float constants are the IEEE 754 doubles of their names *)

Module FloatLiterals.

Import PrimFloat FloatOps.

Lemma float_constants :
  Prim2SF 0.5%float = f_0_5 /\
  Prim2SF 2%float = f_2 /\
  Prim2SF 1024%float = f_1024 /\
  Prim2SF 134217728%float = f_134217728 /\
  Prim2SF (-0.5)%float = f_minus_0_5 /\
  Prim2SF 0%float = PyFloat.zero.
Proof. repeat split; vm_compute; reflexivity. Qed.

End FloatLiterals.

(** C3.  The values of [parse_resource_value] on the inputs of the table:
    "500m" gives 0.5, "2" gives 2.0, "128Mi" gives 134217728.0, "1Ki" gives
    1024.0, and the empty string, "garbage" and [None] give 0.0. *)
Theorem parse_resource_value_examples :
  forall repr : pyval -> string,
    parse_resource_value repr (PStr "500m") = Ok f_0_5 /\
    parse_resource_value repr (PStr "2") = Ok f_2 /\
    parse_resource_value repr (PStr "128Mi") = Ok f_134217728 /\
    parse_resource_value repr (PStr "1Ki") = Ok f_1024 /\
    parse_resource_value repr (PStr "") = Ok zero /\
    parse_resource_value repr (PStr "garbage") = Ok zero /\
    parse_resource_value repr PNone = Ok zero.
Proof. intros. repeat split; vm_compute; reflexivity. Qed.

(** C4.  For every text [x] that [float] accepts, with value [f], the
    parser returns [f * 1024] on [x ++ "Ki"], [f * 1024^2] on [x ++ "Mi"],
    [f * 1024^3] on [x ++ "Gi"] and [f * 1024^4] on [x ++ "Ti"]: the factor
    of the two-letter suffix, which the table lists before the one-letter
    suffixes. *)
Theorem parse_resource_value_binary_suffix :
  forall (repr : pyval -> string) (x : string) (f : float),
    Py.float_of_str x = Ok f ->
    parse_resource_value repr (PStr (x ++ "Ki")) = Ok (fmul f (of_int 1024)) /\
    parse_resource_value repr (PStr (x ++ "Mi")) = Ok (fmul f (of_int (1024 ^ 2))) /\
    parse_resource_value repr (PStr (x ++ "Gi")) = Ok (fmul f (of_int (1024 ^ 3))) /\
    parse_resource_value repr (PStr (x ++ "Ti")) = Ok (fmul f (of_int (1024 ^ 4))) /\
    map (fun p => String.length (fst p)) multipliers
      = [2; 2; 2; 2; 1; 1; 1; 1]%nat.
Proof.
  intros repr x f Hf.
  rewrite parse_Ki, parse_Mi, parse_Gi, parse_Ti, Hf.
  repeat split.
Qed.

Lemma parse_resource_value_binary_suffix_witness :
  Py.float_of_str "1" = Ok (of_int 1) /\
  parse_resource_value (fun _ => "") (PStr "1Ki") = Ok (fmul (of_int 1) (of_int 1024)).
Proof.
  split; [reflexivity|].
  apply (parse_resource_value_binary_suffix (fun _ => "") "1" (of_int 1)).
  reflexivity.
Defined.


(** ** The node view *)

Module NodeViewFacts.

Lemma base_frame_rows (base_df : list Nodes.row) :
  capacity_rows (base_frame base_df) = base_df.
Proof.
  unfold capacity_rows, base_frame; simpl.
  rewrite map_map; simpl. apply map_id.
Qed.

Lemma base_frame_absent (base_df : list Nodes.row) :
  utilization_absent (base_frame base_df).
Proof.
  unfold utilization_absent, base_frame; simpl.
  apply Forall_forall. intros r Hr.
  apply in_map_iff in Hr. destruct Hr as [b [<- _]]. reflexivity.
Qed.

Lemma base_frame_columns (base_df : list Nodes.row) (name : string) :
  In name (tl Metrics.columns) -> ~ has_column (base_frame base_df) name.
Proof.
  unfold has_column, base_frame; simpl.
  destruct base_df; simpl; [tauto|].
  intros H1 H2.
  repeat (destruct H1 as [<- | H1];
          [ repeat (destruct H2 as [H2 | H2]; [discriminate|]); exact H2 |]).
  exact H1.
Qed.

(** Two rows of [metrics_df] that join the same [base_df] row carry the
    same node name. *)
Lemma on_node_same (b : Nodes.row) (m1 m2 : Metrics.row) :
  on_node b m1 = true -> on_node b m2 = true -> Metrics.node m1 = Metrics.node m2.
Proof.
  unfold on_node. destruct (Nodes.node b); try discriminate.
  intros H1 H2. apply String.eqb_eq in H1, H2. congruence.
Qed.

Lemma matches_at_most_one (b : Nodes.row) (metrics_df : list Metrics.row) :
  NoDup (map Metrics.node metrics_df) ->
  (List.length (filter (on_node b) metrics_df) <= 1)%nat.
Proof.
  induction metrics_df as [|m l IH]; simpl; [lia|].
  intros Hnd. inversion Hnd as [|? ? Hnotin Hnd']; subst.
  destruct (on_node b m) eqn:Hm; [|auto].
  simpl.
  destruct (filter (on_node b) l) as [|m' l'] eqn:Hf; [simpl; lia|].
  exfalso. apply Hnotin.
  assert (Hin : In m' (filter (on_node b) l)) by (rewrite Hf; now left).
  apply filter_In in Hin. destruct Hin as [Hin Hm'].
  rewrite (on_node_same b m m' Hm Hm').
  now apply in_map.
Qed.

Lemma map_const_repeat {A B : Type} (b : B) (l : list A) :
  map (fun _ => b) l = repeat b (List.length l).
Proof. induction l; simpl; congruence. Qed.

Lemma merge_left_rows (base_df : list Nodes.row) (metrics_df : list Metrics.row) :
  capacity_rows (merge_left base_df metrics_df)
  = flat_map (fun b => repeat b (copies metrics_df b)) base_df.
Proof.
  unfold capacity_rows, merge_left.
  cbn [Merged.rows].
  induction base_df as [|b l IH]; [reflexivity|].
  cbn [flat_map]. rewrite map_app, IH. f_equal.
  unfold copies.
  destruct (filter (on_node b) metrics_df) as [|m ms]; [reflexivity|].
  rewrite map_map. cbn [Merged.base].
  rewrite map_const_repeat. reflexivity.
Qed.

Lemma merge_left_once (base_df : list Nodes.row) (metrics_df : list Metrics.row) :
  NoDup (map Metrics.node metrics_df) ->
  capacity_rows (merge_left base_df metrics_df) = base_df.
Proof.
  intros Hnd. rewrite merge_left_rows.
  induction base_df as [|b l IH]; [reflexivity|].
  cbn [flat_map]. rewrite IH.
  unfold copies.
  pose proof (matches_at_most_one b metrics_df Hnd) as Hle.
  replace (Nat.max 1 (List.length (filter (on_node b) metrics_df))) with 1%nat by lia.
  reflexivity.
Qed.

(** In general the node view shows a row of [base_df] once per row of
    [metrics_df] with its node name, and once when there is none. *)
Lemma build_node_view_rows (base_df : list Nodes.row) (metrics_df : list Metrics.row) :
  capacity_rows (build_node_view base_df metrics_df)
  = flat_map (fun b => repeat b (copies metrics_df b)) base_df.
Proof.
  unfold build_node_view.
  destruct base_df as [|b l]; [reflexivity|].
  destruct metrics_df as [|m ms].
  - cbn [empty negb andb]. rewrite base_frame_rows.
    generalize (b :: l). intros l0.
    induction l0 as [|x l0 IH]; [reflexivity|]. cbn [flat_map]. now rewrite <- IH.
  - cbn [empty negb andb]. apply merge_left_rows.
Qed.

(** The rows of [metrics_df] that join a capacity row with a text node
    name are the rows that carry the name. *)
Lemma matches_count (b : Nodes.row) (name : string) (metrics_df : list Metrics.row) :
  Nodes.node b = PStr name ->
  List.length (filter (on_node b) metrics_df) = utilization_count name metrics_df.
Proof.
  intros Hb. unfold utilization_count, on_node. rewrite Hb.
  induction metrics_df as [|m l IH]; [reflexivity|].
  cbn [filter map count_occ].
  destruct (string_dec (Metrics.node m) name) as [E|E].
  - rewrite E, String.eqb_refl. simpl. now rewrite IH.
  - destruct (String.eqb name (Metrics.node m)) eqn:E'; [|exact IH].
    apply String.eqb_eq in E'. congruence.
Qed.

Lemma copies_positive (metrics_df : list Metrics.row) (b : Nodes.row) :
  (1 <= copies metrics_df b)%nat.
Proof. unfold copies. lia. Qed.

Lemma copies_length (metrics_df : list Metrics.row) (base_df : list Nodes.row) :
  List.length (flat_map (fun b => repeat b (copies metrics_df b)) base_df)
  = list_sum (map (copies metrics_df) base_df).
Proof.
  induction base_df as [|b l IH]; [reflexivity|].
  cbn [flat_map map list_sum]. now rewrite length_app, repeat_length, IH.
Qed.

(** A sum of positive numbers is the number of its terms exactly when each
    term is one. *)
Lemma sum_of_ones {A : Type} (f : A -> nat) (l : list A) :
  (forall a, (1 <= f a)%nat) ->
  (list_sum (map f l) = List.length l <-> forall a, In a l -> f a = 1%nat).
Proof.
  intros Hpos.
  assert (Hge : forall l', (List.length l' <= list_sum (map f l'))%nat).
  { induction l' as [|a l' IH]; simpl; [lia|]. specialize (Hpos a). lia. }
  induction l as [|a l IH]; simpl.
  - split; [intros _ a [] | reflexivity].
  - pose proof (Hpos a) as Ha. pose proof (Hge l) as Hl. split.
    + intros H a' [<- | Hin]; [lia|].
      apply IH; [lia | exact Hin].
    + intros H. rewrite (H a (or_introl eq_refl)).
      rewrite (proj2 IH); [reflexivity|]. intros a' Hin. apply H. now right.
Qed.

(** On capacity rows with text node names, every row has one copy exactly
    when no node of a capacity row has two utilization rows. *)
Lemma copies_once (base_df : list Nodes.row) (metrics_df : list Metrics.row) :
  forallb text_node base_df = true ->
  ((forall b, In b base_df -> copies metrics_df b = 1%nat) <->
   at_most_one_utilization base_df metrics_df).
Proof.
  intros Ht. unfold at_most_one_utilization, copies. split.
  - intros H b name Hin Hb. specialize (H b Hin).
    rewrite (matches_count b name metrics_df Hb) in H. lia.
  - intros H b Hin.
    assert (Hb : text_node b = true)
      by (revert b Hin; now apply forallb_forall).
    unfold text_node in Hb. destruct (Nodes.node b) as [| | | |name| | |] eqn:E;
      try discriminate.
    specialize (H b name Hin E).
    rewrite (matches_count b name metrics_df E). lia.
Qed.

Lemma repeat_once {A : Type} (f : A -> nat) (l : list A) :
  (forall a, In a l -> f a = 1%nat) ->
  flat_map (fun a => repeat a (f a)) l = l.
Proof.
  induction l as [|a l IH]; intros H; [reflexivity|].
  cbn [flat_map]. rewrite (H a (or_introl eq_refl)), IH; [reflexivity|].
  intros a' Hin. apply H. now right.
Qed.

End NodeViewFacts.

(** C6, as the code has it.  For capacity rows with text node names, the
    node view shows every row of [base_df] exactly once, in the order of
    [base_df], and so has one row per capacity row, exactly when no node of
    a capacity row has more than one row in [metrics_df].  Names that occur
    only in [metrics_df], even more than once, and capacity rows with no
    utilization row do not matter. *)
Theorem build_node_view_each_capacity_once :
  forall (base_df : list Nodes.row) (metrics_df : list Metrics.row),
    forallb text_node base_df = true ->
    (capacity_rows (build_node_view base_df metrics_df) = base_df <->
     at_most_one_utilization base_df metrics_df) /\
    (List.length (Merged.rows (build_node_view base_df metrics_df))
       = List.length base_df <->
     at_most_one_utilization base_df metrics_df).
Proof.
  intros base_df metrics_df Ht.
  assert (Hlen :
    List.length (Merged.rows (build_node_view base_df metrics_df))
      = List.length base_df <->
    at_most_one_utilization base_df metrics_df).
  { rewrite <- (length_map Merged.base).
    change (map Merged.base (Merged.rows (build_node_view base_df metrics_df)))
      with (capacity_rows (build_node_view base_df metrics_df)).
    rewrite NodeViewFacts.build_node_view_rows, NodeViewFacts.copies_length.
    rewrite (NodeViewFacts.sum_of_ones (copies metrics_df) base_df
               (NodeViewFacts.copies_positive metrics_df)).
    now apply NodeViewFacts.copies_once. }
  split; [|exact Hlen]. split.
  - intros H. apply Hlen. rewrite <- H at 2.
    unfold capacity_rows. now rewrite length_map.
  - intros H. rewrite NodeViewFacts.build_node_view_rows.
    apply NodeViewFacts.repeat_once.
    now apply (NodeViewFacts.copies_once base_df metrics_df Ht).
Qed.

Lemma build_node_view_each_capacity_once_witness :
  forallb text_node [capacity_n1] = true /\
  at_most_one_utilization [capacity_n1] [utilization_n9; utilization_n1; utilization_n9] /\
  capacity_rows
    (build_node_view [capacity_n1] [utilization_n9; utilization_n1; utilization_n9])
  = [capacity_n1].
Proof.
  assert (Ht : forallb text_node [capacity_n1] = true) by reflexivity.
  assert (H : at_most_one_utilization [capacity_n1]
                [utilization_n9; utilization_n1; utilization_n9]).
  { intros b name [<- | []] [= <-]. vm_compute. lia. }
  split; [exact Ht|]. split; [exact H|].
  exact (proj2 (proj1 (build_node_view_each_capacity_once [capacity_n1]
                         [utilization_n9; utilization_n1; utilization_n9] Ht)) H).
Defined.

(** C6 as stated fails: with the node name ["n1"] of the capacity row twice
    in [metrics_df], the one row of [base_df] is shown twice. *)
Lemma build_node_view_duplicate_utilization :
  capacity_rows (build_node_view [capacity_n1] [utilization_n1; utilization_n1])
    = [capacity_n1; capacity_n1]
  /\ List.length (Merged.rows (build_node_view [capacity_n1] [utilization_n1; utilization_n1]))
     <> List.length [capacity_n1].
Proof. split; [reflexivity | simpl; lia]. Qed.

(** C7.  With an empty [metrics_df] the node view is [base_df] itself: as
    many rows as [base_df], the same capacity rows in the same order, every
    utilization cell missing, and none of the columns of [metrics_df] (the
    merge is not taken). *)
Theorem build_node_view_no_metrics :
  forall base_df : list Nodes.row,
    build_node_view base_df [] = base_frame base_df /\
    List.length (Merged.rows (build_node_view base_df [])) = List.length base_df /\
    capacity_rows (build_node_view base_df []) = base_df /\
    utilization_absent (build_node_view base_df []) /\
    (forall name, In name (tl Metrics.columns) ->
                  ~ has_column (build_node_view base_df []) name).
Proof.
  intros base_df.
  assert (H : build_node_view base_df [] = base_frame base_df).
  { unfold build_node_view. now rewrite andb_false_r. }
  rewrite H. split; [reflexivity|].
  split; [simpl; apply length_map|].
  split; [apply NodeViewFacts.base_frame_rows|].
  split; [apply NodeViewFacts.base_frame_absent|].
  intros name. apply NodeViewFacts.base_frame_columns.
Qed.

(** C10.  With an empty [base_df] the node view is the empty [base_df]
    whatever [metrics_df] holds, in particular when it is not empty: no
    merge is taken, and the view has no row and no column, so a node that
    occurs only in [metrics_df] is not shown. *)
Theorem build_node_view_no_capacity :
  forall metrics_df : list Metrics.row,
    metrics_df <> [] ->
    build_node_view [] metrics_df = base_frame [] /\
    Merged.rows (build_node_view [] metrics_df) = [] /\
    Merged.columns (build_node_view [] metrics_df) = [].
Proof. intros metrics_df _. repeat split. Qed.

Lemma build_node_view_no_capacity_witness :
  [utilization_n1] <> [] /\
  Merged.rows (build_node_view [] [utilization_n1]) = [].
Proof.
  assert (H : [utilization_n1] <> []) by discriminate.
  split; [exact H|].
  apply (build_node_view_no_capacity [utilization_n1] H).
Defined.

(** ** Facts on orders given by a comparison *)

Module OrderFacts.

Section Facts.
Context {A : Type} (cmp : A -> A -> comparison) (H : total_preorder cmp).

Lemma gt_lt (a b : A) : cmp a b = Gt -> cmp b a = Lt.
Proof. intros E. rewrite (cmp_flip cmp H b a), E. reflexivity. Qed.

Lemma lt_gt (a b : A) : cmp a b = Lt -> cmp b a = Gt.
Proof. intros E. rewrite (cmp_flip cmp H b a), E. reflexivity. Qed.

Lemma eq_sym (a b : A) : cmp a b = Eq -> cmp b a = Eq.
Proof. intros E. rewrite (cmp_flip cmp H b a), E. reflexivity. Qed.

Lemma eq_trans (a b c : A) : cmp a b = Eq -> cmp b c = Eq -> cmp a c = Eq.
Proof.
  intros E1 E2.
  destruct (cmp a c) eqn:E; [reflexivity | |].
  - exfalso. apply (cmp_le_trans cmp H c b a); try (rewrite eq_sym; [discriminate|assumption]).
    now apply lt_gt.
  - exfalso. apply (cmp_le_trans cmp H a b c); congruence.
Qed.

Lemma le_lt_trans (a b c : A) : cmp a b <> Gt -> cmp b c = Lt -> cmp a c = Lt.
Proof.
  intros Hab Hbc.
  destruct (cmp a c) eqn:E; [| reflexivity |].
  - exfalso. apply (cmp_le_trans cmp H c a b); trivial.
    + rewrite (eq_sym a c E). discriminate.
    + now apply lt_gt.
  - exfalso. apply (cmp_le_trans cmp H a b c); congruence.
Qed.

Lemma lt_le_trans (a b c : A) : cmp a b = Lt -> cmp b c <> Gt -> cmp a c = Lt.
Proof.
  intros Hab Hbc.
  destruct (cmp a c) eqn:E; [| reflexivity |].
  - exfalso. apply (cmp_le_trans cmp H b c a); trivial.
    + rewrite (eq_sym a c E). discriminate.
    + now apply lt_gt.
  - exfalso. apply (cmp_le_trans cmp H a b c); congruence.
Qed.

(** An element strictly below [x] does not have the key of an element
    with the key of [x]. *)
Lemma lt_not_eq (x y r : A) : cmp x y = Gt -> cmp r x = Eq -> cmp r y <> Eq.
Proof.
  intros Hxy Hrx Hry.
  apply (cmp_le_trans cmp H x r y); try congruence.
  rewrite (eq_sym r x Hrx). discriminate.
Qed.
End Facts.

(** The lexicographic order of two keys. *)
Lemma lexicographic {A B C : Type} (c1 : B -> B -> comparison)
      (c2 : C -> C -> comparison) (f : A -> B) (g : A -> C) :
  total_preorder c1 -> total_preorder c2 ->
  total_preorder (fun a b => match c1 (f a) (f b) with
                             | Eq => c2 (g a) (g b)
                             | c => c
                             end).
Proof.
  intros H1 H2. split.
  - intros a b. rewrite (cmp_flip c1 H1 (f a) (f b)).
    destruct (c1 (f b) (f a)); simpl;
      [apply (cmp_flip c2 H2) | reflexivity | reflexivity].
  - intros a b c.
    destruct (c1 (f a) (f b)) eqn:Eab; [| |congruence];
      destruct (c1 (f b) (f c)) eqn:Ebc; try congruence; intros Hab Hbc.
    + rewrite (eq_trans c1 H1 _ _ _ Eab Ebc). now apply (cmp_le_trans c2 H2 (g a) (g b) (g c)).
    + rewrite (le_lt_trans c1 H1 (f a) (f b) (f c)); congruence.
    + rewrite (lt_le_trans c1 H1 (f a) (f b) (f c)); congruence.
    + rewrite (lt_le_trans c1 H1 (f a) (f b) (f c)); congruence.
Qed.

(** Code-point order of strings. *)
Lemma string_lt_irrefl (a : string) : ~ String_as_OT.lt a a.
Proof. apply (StrictOrder_Irreflexive (R := String_as_OT.lt)). Qed.

Lemma string_lt_asym (a b : string) :
  String_as_OT.lt a b -> String_as_OT.lt b a -> False.
Proof.
  intros L1 L2. apply (string_lt_irrefl a).
  now apply (StrictOrder_Transitive (R := String_as_OT.lt) a b a).
Qed.

Lemma string_compare_eq (a b : string) : String_as_OT.compare a b = Eq <-> a = b.
Proof.
  destruct (String_as_OT.compare_spec a b) as [E|L|L]; split; intros E';
    try congruence; try reflexivity; subst; exfalso; now apply string_lt_irrefl in L.
Qed.

Lemma string_compare_flip (a b : string) :
  String_as_OT.compare a b = CompOpp (String_as_OT.compare b a).
Proof.
  destruct (String_as_OT.compare_spec a b) as [E|L|L];
    destruct (String_as_OT.compare_spec b a) as [E'|L'|L']; try reflexivity; exfalso;
    unfold String_as_OT.eq in *;
    try (subst; now apply string_lt_irrefl in L);
    try (subst; now apply string_lt_irrefl in L');
    eapply string_lt_asym; eassumption.
Qed.

Lemma string_order : total_preorder String_as_OT.compare.
Proof.
  split; [exact string_compare_flip|].
  intros a b c Hab Hbc Hac.
  destruct (String_as_OT.compare a b) eqn:Eab; [| | congruence].
  - apply string_compare_eq in Eab. subst b. contradiction.
  - destruct (String_as_OT.compare b c) eqn:Ebc; [| | congruence].
    + apply string_compare_eq in Ebc. subst c. congruence.
    + assert (Lac : String_as_OT.lt a c)
        by (now apply (StrictOrder_Transitive (R := String_as_OT.lt) a b c)).
      unfold String_as_OT.lt in Lac. congruence.
Qed.

Lemma cell_order : total_preorder Pandas.cell_compare.
Proof.
  destruct string_order as [Hf Ht].
  split.
  - intros a b. destruct a, b; simpl; auto.
  - intros a b c. destruct a, b, c; simpl; try congruence; apply Ht.
Qed.

Lemma pod_key_order : total_preorder pod_key_compare.
Proof. apply (lexicographic _ _ Pods.microservice Pods.pod); apply cell_order. Qed.

(** On rows whose key cells are text, the key order is the code-point
    order of the pairs (microservice, pod name). *)
Lemma pod_key_compare_str (a b : Pods.row) (ma pa mb pb : string) :
  Pods.microservice a = PStr ma -> Pods.pod a = PStr pa ->
  Pods.microservice b = PStr mb -> Pods.pod b = PStr pb ->
  pod_key_compare a b = Pandas.pair_compare (ma, pa) (mb, pb).
Proof.
  intros Ha1 Ha2 Hb1 Hb2. unfold pod_key_compare, Pandas.pair_compare.
  now rewrite Ha1, Ha2, Hb1, Hb2.
Qed.

Lemma pair_order : total_preorder Pandas.pair_compare.
Proof. apply (lexicographic _ _ fst snd); apply string_order. Qed.

Lemma pair_compare_eq (a b : string * string) : Pandas.pair_compare a b = Eq <-> a = b.
Proof.
  unfold Pandas.pair_compare. destruct a as [a1 a2], b as [b1 b2]; simpl.
  destruct (String_as_OT.compare a1 b1) eqn:E.
  - apply string_compare_eq in E. subst. rewrite string_compare_eq.
    split; congruence.
  - split; [discriminate|]. intros E'. injection E' as -> ->.
    rewrite (proj2 (string_compare_eq b1 b1) eq_refl) in E. discriminate.
  - split; [discriminate|]. intros E'. injection E' as -> ->.
    rewrite (proj2 (string_compare_eq b1 b1) eq_refl) in E. discriminate.
Qed.

End OrderFacts.

(** ** [sort_values] is a stable sort *)

Module SortFacts.

Section Facts.
Context {R : Type} (compare : R -> R -> comparison).
Hypothesis order : total_preorder compare.

Local Abbreviation le := (le_by compare).
Local Abbreviation same := (same_by compare).

Lemma leb_true (a b : R) : Pandas.leb compare a b = true -> le a b.
Proof. unfold Pandas.leb, le. destruct (compare a b); congruence. Qed.

Lemma leb_false (a b : R) : Pandas.leb compare a b = false -> compare a b = Gt.
Proof. unfold Pandas.leb. destruct (compare a b); congruence. Qed.

Lemma insert_perm (r : R) (l : list R) :
  Permutation (r :: l) (Pandas.insert compare r l).
Proof.
  induction l as [|x t IH]; simpl; [reflexivity|].
  destruct (Pandas.leb compare r x); [reflexivity|].
  rewrite perm_swap. now apply perm_skip.
Qed.

Lemma sort_perm (l : list R) : Permutation l (Pandas.sort_values compare l).
Proof.
  induction l as [|r t IH]; simpl; [reflexivity|].
  rewrite <- insert_perm. now apply perm_skip.
Qed.

Lemma insert_sorted (r : R) (l : list R) :
  StronglySorted le l -> StronglySorted le (Pandas.insert compare r l).
Proof.
  induction l as [|x t IH]; intros Hs; simpl.
  - repeat constructor.
  - inversion Hs as [|? ? Ht Hx]; subst.
    destruct (Pandas.leb compare r x) eqn:E.
    + constructor; [assumption|].
      constructor; [now apply leb_true|].
      apply Forall_forall. intros y Hy.
      apply (cmp_le_trans compare order r x y); [now apply leb_true|].
      revert y Hy. now apply Forall_forall.
    + constructor; [now apply IH|].
      apply Forall_forall. intros y Hy.
      apply (Permutation_in _ (Permutation_sym (insert_perm r t))) in Hy.
      destruct Hy as [<- | Hy].
      * unfold le. rewrite (OrderFacts.gt_lt compare order r x (leb_false _ _ E)).
        discriminate.
      * revert y Hy. now apply Forall_forall.
Qed.

Lemma sort_sorted (l : list R) : StronglySorted le (Pandas.sort_values compare l).
Proof.
  induction l as [|r t IH]; simpl; [constructor | now apply insert_sorted].
Qed.

(** Inserting a row leaves the rows of any one key in their order, the
    new row first among those of its key. *)
Lemma filter_insert (k r : R) (l : list R) :
  filter (same k) (Pandas.insert compare r l)
  = if same k r then r :: filter (same k) l else filter (same k) l.
Proof.
  induction l as [|x t IH]; simpl; [reflexivity|].
  destruct (Pandas.leb compare r x) eqn:E; simpl; [reflexivity|].
  rewrite IH.
  destruct (same k r) eqn:Er; [|reflexivity].
  assert (Hx : same k x = false).
  { unfold same in *.
    destruct (compare k r) eqn:Ekr; try discriminate.
    pose proof (OrderFacts.lt_not_eq compare order r x k (leb_false _ _ E) Ekr) as Hne.
    destruct (compare k x); congruence. }
  now rewrite Hx.
Qed.

Lemma sort_stable (k : R) (l : list R) :
  filter (same k) (Pandas.sort_values compare l) = filter (same k) l.
Proof.
  induction l as [|r t IH]; simpl; [reflexivity|].
  rewrite filter_insert, IH. reflexivity.
Qed.
End Facts.

End SortFacts.

(** ** Decoding the pod listing *)

Module PodFacts.

Lemma get_dict (d : list (string * pyval)) (key : string) (default : pyval) :
  Py.get (PDict d) key default
  = Ok (match Py.assoc key d with Some v => v | None => default end).
Proof. reflexivity. Qed.

(** On a well-formed item the loop body builds the record of the
    specification. *)
Lemma pod_row_record (item : pyval) :
  pod_item item = true -> pod_row item = Ok (pod_record item).
Proof.
  destruct item as [| | | | | | |d]; try discriminate.
  unfold pod_item, pod_row, pod_record, empty_dict.
  cbn [field Py.get bind].
  destruct (Py.assoc "metadata" d) as [[| | | | | | |m]|]; try discriminate;
    destruct (Py.assoc "spec" d) as [[| | | | | | |sp]|];
    cbn [dict_or_absent andb]; try discriminate;
    destruct (Py.assoc "status" d) as [[| | | | | | |st]|];
    cbn [dict_or_absent andb]; try (rewrite andb_false_r); try discriminate;
    cbn [field Py.get bind Py.assoc];
    try (destruct (Py.assoc "labels" m) as [[| | | | | | |lb]|];
         cbn [dict_or_absent andb]; try discriminate);
    intros _; cbn [field Py.get bind Py.assoc]; reflexivity.
Qed.

Lemma mapM_pod_row (items : list pyval) :
  forallb pod_item items = true ->
  mapM pod_row items = Ok (map pod_record items).
Proof.
  induction items as [|item l IH]; simpl; [reflexivity|].
  intros H. apply andb_prop in H. destruct H as [H1 H2].
  now rewrite (pod_row_record item H1), (IH H2).
Qed.

Lemma decode_pods_sort (data : pyval) (items : list pyval) :
  Py.get data "items" (PList []) = Ok (PList items) ->
  forallb pod_item items = true ->
  decode_pods data
  = Ok (Pandas.sort_values pod_key_compare (map pod_record items)).
Proof.
  intros Hget Hitems. unfold decode_pods.
  rewrite Hget. cbn [bind Py.iter].
  rewrite (mapM_pod_row items Hitems). cbn [bind].
  now destruct (map pod_record items).
Qed.

(** On records with text keys, the order of the sort is the order the
    specification names. *)
Lemma pod_key_le_text (a b : Pods.row) :
  text_sort_keys a = true -> text_sort_keys b = true ->
  (pod_key_le a b <-> by_microservice_then_pod a b).
Proof.
  unfold text_sort_keys, pod_key_le, le_by, by_microservice_then_pod, pod_key_compare.
  destruct (Pods.microservice a) as [| | | |ma| | |]; try discriminate.
  destruct (Pods.pod a) as [| | | |pa| | |]; try discriminate.
  destruct (Pods.microservice b) as [| | | |mb| | |]; try discriminate.
  destruct (Pods.pod b) as [| | | |pb| | |]; try discriminate.
  intros _ _. cbn [Pandas.cell_compare]. unfold String_as_OT.lt. split.
  - intros H. exists ma, pa, mb, pb. repeat split.
    destruct (String_as_OT.compare ma mb) eqn:Em.
    + apply OrderFacts.string_compare_eq in Em. right. split; [exact Em|].
      destruct (String_as_OT.compare pa pb) eqn:Ep.
      * right. now apply OrderFacts.string_compare_eq.
      * now left.
      * congruence.
    + now left.
    + congruence.
  - intros [ma' [pa' [mb' [pb' [[= <-] [[= <-] [[= <-] [[= <-] H]]]]]]]].
    destruct H as [H | [<- [H | <-]]].
    + rewrite H. discriminate.
    + rewrite (proj2 (OrderFacts.string_compare_eq ma ma) eq_refl), H. discriminate.
    + rewrite (proj2 (OrderFacts.string_compare_eq ma ma) eq_refl).
      rewrite (proj2 (OrderFacts.string_compare_eq pa pa) eq_refl). discriminate.
Qed.

(** On records with text keys, the rows of one sort key are the rows with
    its microservice and its pod name. *)
Lemma same_pod_key_text (k r : Pods.row) (m p : string) :
  Pods.microservice k = PStr m -> Pods.pod k = PStr p ->
  text_sort_keys r = true ->
  same_pod_key k r = has_key m p r.
Proof.
  unfold text_sort_keys, same_pod_key, same_by, has_key, pod_key_compare, cell_is.
  intros -> ->.
  destruct (Pods.microservice r) as [| | | |mr| | |]; try discriminate.
  destruct (Pods.pod r) as [| | | |pr| | |]; try discriminate.
  intros _. cbn [Pandas.cell_compare].
  destruct (String.eqb m mr) eqn:Em.
  - apply String.eqb_eq in Em. subst mr.
    rewrite (proj2 (OrderFacts.string_compare_eq m m) eq_refl). cbn [andb].
    destruct (String.eqb p pr) eqn:Ep.
    + apply String.eqb_eq in Ep. subst pr.
      now rewrite (proj2 (OrderFacts.string_compare_eq p p) eq_refl).
    + destruct (String_as_OT.compare p pr) eqn:Ec; [|reflexivity|reflexivity].
      apply OrderFacts.string_compare_eq in Ec. subst pr.
      rewrite String.eqb_refl in Ep. discriminate.
  - cbn [andb].
    destruct (String_as_OT.compare m mr) eqn:Ec; [|reflexivity|reflexivity].
    apply OrderFacts.string_compare_eq in Ec. subst mr.
    rewrite String.eqb_refl in Em. discriminate.
Qed.

(** A list sorted for one relation is sorted for a relation that agrees
    with it on the elements of the list. *)
Lemma sorted_agree {A : Type} (R R' : A -> A -> Prop) (l : list A) :
  (forall a b, In a l -> In b l -> R a b -> R' a b) ->
  StronglySorted R l -> StronglySorted R' l.
Proof.
  intros Hag Hs. induction Hs as [|a l Hl IH Ha]; [constructor|].
  constructor.
  - apply IH. intros x y Hx Hy. apply Hag; now right.
  - apply Forall_forall. intros b Hb.
    apply Hag; [now left | now right|].
    revert b Hb. now apply Forall_forall.
Qed.

Lemma filter_agree {A : Type} (f g : A -> bool) (l : list A) :
  (forall a, In a l -> f a = g a) -> filter f l = filter g l.
Proof.
  induction l as [|a l IH]; intros H; [reflexivity|].
  cbn [filter]. rewrite (H a (or_introl eq_refl)), IH; [reflexivity|].
  intros x Hx. apply H. now right.
Qed.

End PodFacts.

(** C5.  For a pod listing whose [items] list holds [N] well-formed items
    with text for the microservice and the pod name, the decoding step of
    [get_pods] returns a frame of exactly [N] rows: the records of the items
    (a missing field is the empty string), in ascending order of
    (microservice, pod name), the rows of one (microservice, pod name) in
    the order of the listing. *)
Theorem decode_pods_sorted_stable :
  forall (data : pyval) (items : list pyval),
    Py.get data "items" (PList []) = Ok (PList items) ->
    forallb pod_item items = true ->
    forallb text_sort_keys (map pod_record items) = true ->
    exists df : list Pods.row,
      decode_pods data = Ok df /\
      List.length df = List.length items /\
      StronglySorted by_microservice_then_pod df /\
      Permutation (map pod_record items) df /\
      (forall m p : string,
          filter (has_key m p) df
          = filter (has_key m p) (map pod_record items)) /\
      pod_record (PDict [])
      = {| Pods.microservice := PStr ""; Pods.svc_id := PStr "";
           Pods.pod := PStr ""; Pods.node := PStr ""; Pods.phase := PStr "" |}.
Proof.
  intros data items Hget Hitems Htext.
  pose proof (SortFacts.sort_perm pod_key_compare (map pod_record items)) as Hperm.
  assert (Htext' : forall r,
             In r (Pandas.sort_values pod_key_compare (map pod_record items)) ->
             text_sort_keys r = true).
  { intros r Hr. apply (Permutation_in _ (Permutation_sym Hperm)) in Hr.
    revert r Hr. now apply forallb_forall. }
  exists (Pandas.sort_values pod_key_compare (map pod_record items)).
  split; [now apply PodFacts.decode_pods_sort|].
  split.
  { rewrite <- (Permutation_length Hperm). apply length_map. }
  split.
  { apply (PodFacts.sorted_agree pod_key_le).
    - intros a b Ha Hb. apply PodFacts.pod_key_le_text; now apply Htext'.
    - apply (SortFacts.sort_sorted pod_key_compare OrderFacts.pod_key_order). }
  split; [exact Hperm|].
  split; [|reflexivity].
  intros m p.
  pose (k := {| Pods.microservice := PStr m; Pods.svc_id := PStr "";
                Pods.pod := PStr p; Pods.node := PStr ""; Pods.phase := PStr "" |}).
  rewrite <- (PodFacts.filter_agree (same_pod_key k) (has_key m p)
                (Pandas.sort_values pod_key_compare (map pod_record items))).
  - rewrite <- (PodFacts.filter_agree (same_pod_key k) (has_key m p)
                  (map pod_record items)).
    + apply (SortFacts.sort_stable pod_key_compare OrderFacts.pod_key_order).
    + intros r Hr. apply (PodFacts.same_pod_key_text k r m p); try reflexivity.
      revert r Hr. now apply forallb_forall.
  - intros r Hr. apply (PodFacts.same_pod_key_text k r m p); try reflexivity.
    now apply Htext'.
Qed.

Lemma decode_pods_sorted_stable_witness :
  Py.get sample_pod_listing "items" (PList []) = Ok (PList sample_pod_items) /\
  forallb pod_item sample_pod_items = true /\
  forallb text_sort_keys (map pod_record sample_pod_items) = true /\
  exists df : list Pods.row,
    decode_pods sample_pod_listing = Ok df /\ List.length df = 4%nat.
Proof.
  assert (H1 : Py.get sample_pod_listing "items" (PList []) = Ok (PList sample_pod_items))
    by reflexivity.
  assert (H2 : forallb pod_item sample_pod_items = true) by reflexivity.
  assert (H3 : forallb text_sort_keys (map pod_record sample_pod_items) = true)
    by reflexivity.
  split; [exact H1|]. split; [exact H2|]. split; [exact H3|].
  destruct (decode_pods_sorted_stable sample_pod_listing sample_pod_items H1 H2 H3)
    as [df [Hd [Hl _]]].
  exists df. split; assumption.
Defined.

(** ** [groupby(...).size()] *)

Module GroupFacts.

Section Facts.
Context {K : Type} (compare : K -> K -> comparison) (eqb : K -> K -> bool).
Hypothesis order : total_preorder compare.
Hypothesis compare_eq : forall a b, compare a b = Eq <-> a = b.
Hypothesis eqb_eq : forall a b, eqb a b = true <-> a = b.

Local Abbreviation lt := (lt_by compare).

Lemma eqb_refl (a : K) : eqb a a = true.
Proof. now apply eqb_eq. Qed.

Lemma eqb_neq (a b : K) : a <> b -> eqb a b = false.
Proof.
  intros Hne. destruct (eqb a b) eqn:E; [|reflexivity].
  apply eqb_eq in E. contradiction.
Qed.

Lemma lt_neq (a b : K) : lt a b -> a <> b.
Proof.
  unfold lt. intros L E. apply compare_eq in E. congruence.
Qed.

Lemma lt_trans (a b c : K) : lt a b -> lt b c -> lt a c.
Proof.
  unfold lt. intros L1 L2.
  apply (OrderFacts.lt_le_trans compare order a b c); congruence.
Qed.

Lemma lookup_absent (k : K) (acc : list (K * nat)) :
  ~ In k (map fst acc) -> Pandas.lookup eqb k acc = None.
Proof.
  induction acc as [|[k0 n] r IH]; simpl; [reflexivity|].
  intros Hn. rewrite eqb_neq by (intros ->; apply Hn; now left).
  apply IH. intros Hin. apply Hn. now right.
Qed.

Lemma bump_keys (k k' : K) (acc : list (K * nat)) :
  In k' (map fst (Pandas.bump compare k acc)) <-> k' = k \/ In k' (map fst acc).
Proof.
  induction acc as [|[k0 n] r IH]; simpl.
  - intuition congruence.
  - destruct (compare k k0) eqn:E; simpl.
    + apply compare_eq in E. subst k0. intuition congruence.
    + intuition congruence.
    + rewrite IH. intuition congruence.
Qed.

Lemma bump_sorted (k : K) (acc : list (K * nat)) :
  StronglySorted lt (map fst acc) ->
  StronglySorted lt (map fst (Pandas.bump compare k acc)).
Proof.
  induction acc as [|[k0 n] r IH]; simpl; intros Hs.
  - repeat constructor.
  - inversion Hs as [|? ? Hr Hk0]; subst.
    destruct (compare k k0) eqn:E; simpl.
    + now constructor.
    + constructor; [now constructor|].
      constructor; [exact E|].
      apply Forall_forall. intros y Hy.
      apply (lt_trans k k0 y E). revert y Hy. now apply Forall_forall.
    + constructor; [now apply IH|].
      apply Forall_forall. intros y Hy.
      apply bump_keys in Hy. destruct Hy as [-> | Hy].
      * now apply (OrderFacts.gt_lt compare order).
      * revert y Hy. now apply Forall_forall.
Qed.

Lemma lookup_bump (k k' : K) (acc : list (K * nat)) :
  StronglySorted lt (map fst acc) ->
  Pandas.lookup eqb k' (Pandas.bump compare k acc)
  = if eqb k' k then Some (S (size_of eqb k acc)) else Pandas.lookup eqb k' acc.
Proof.
  induction acc as [|[k0 n] r IH]; intros Hs.
  - reflexivity.
  - inversion Hs as [|? ? Hr Hk0]; subst.
    cbn [Pandas.bump].
    destruct (compare k k0) eqn:E.
    + apply compare_eq in E. subst k0.
      unfold size_of. cbn [Pandas.lookup]. rewrite (eqb_refl k).
      now destruct (eqb k' k).
    + assert (Hnot : ~ In k (map fst ((k0, n) :: r))).
      { simpl. intros [-> | Hin].
        - now apply (lt_neq k k).
        - apply (lt_neq k k); [|reflexivity].
          apply (lt_trans k k0 k E).
          exact (proj1 (Forall_forall _ _) Hk0 k Hin). }
      unfold size_of. rewrite (lookup_absent k _ Hnot).
      reflexivity.
    + cbn [Pandas.lookup]. rewrite (IH Hr).
      assert (Hne : k <> k0).
      { intros ->. rewrite (proj2 (compare_eq k0 k0) eq_refl) in E. discriminate. }
      unfold size_of. cbn [Pandas.lookup]. rewrite (eqb_neq k k0 Hne).
      destruct (eqb k' k0) eqn:E0; [|reflexivity].
      apply eqb_eq in E0. subst k'.
      now rewrite (eqb_neq k0 k) by congruence.
Qed.

Lemma group_sizes_sorted (keys : list K) :
  StronglySorted lt (map fst (Pandas.group_sizes compare keys)).
Proof.
  induction keys as [|k l IH]; simpl; [constructor | now apply bump_sorted].
Qed.

Lemma group_sizes_keys (keys : list K) (k : K) :
  In k (map fst (Pandas.group_sizes compare keys)) <-> In k keys.
Proof.
  induction keys as [|k0 l IH]; simpl; [tauto|].
  rewrite bump_keys, IH. intuition congruence.
Qed.

(** The size of a group is the number of rows with its key. *)
Lemma group_sizes_size (keys : list K) (k : K) :
  size_of eqb k (Pandas.group_sizes compare keys) = List.length (filter (eqb k) keys).
Proof.
  induction keys as [|k0 l IH]; [reflexivity|].
  cbn [Pandas.group_sizes fold_right filter].
  fold (Pandas.group_sizes compare l).
  unfold size_of at 1. rewrite (lookup_bump k0 k _ (group_sizes_sorted l)).
  destruct (eqb k k0) eqn:E.
  - apply eqb_eq in E. subst k0. simpl. now rewrite IH.
  - exact IH.
Qed.

Lemma group_sizes_lookup (keys : list K) (k : K) :
  In k keys ->
  Pandas.lookup eqb k (Pandas.group_sizes compare keys)
  = Some (List.length (filter (eqb k) keys)).
Proof.
  intros Hin. rewrite <- group_sizes_size. unfold size_of.
  destruct (Pandas.lookup eqb k (Pandas.group_sizes compare keys)) eqn:E;
    [reflexivity|].
  exfalso. apply group_sizes_keys in Hin.
  clear - Hin E eqb_eq.
  induction (Pandas.group_sizes compare keys) as [|[k0 n] r IH]; simpl in *; [tauto|].
  destruct (eqb k k0) eqn:E0; [discriminate|].
  destruct Hin as [-> | Hin]; [|auto].
  rewrite (proj2 (eqb_eq k k) eq_refl) in E0. discriminate.
Qed.

Lemma sorted_NoDup (l : list K) : StronglySorted lt l -> NoDup l.
Proof.
  induction 1 as [|a l Hs IH Ha]; constructor; [|assumption].
  intros Hin. apply (lt_neq a a); [|reflexivity].
  exact (proj1 (Forall_forall _ _) Ha a Hin).
Qed.

Lemma group_sizes_NoDup (keys : list K) :
  NoDup (map fst (Pandas.group_sizes compare keys)).
Proof. apply sorted_NoDup, group_sizes_sorted. Qed.
End Facts.

End GroupFacts.

(** ** The pivot of pods by node and microservice *)

Module PivotFacts.

Lemma pair_eqb_eq (a b : string * string) : Pandas.pair_eqb a b = true <-> a = b.
Proof.
  destruct a as [a1 a2], b as [b1 b2]. unfold Pandas.pair_eqb; simpl.
  rewrite andb_true_iff, !String.eqb_eq. split; [intros [-> ->]|intros [= -> ->]]; auto.
Qed.

Lemma has_duplicates_NoDup (l : list (string * string)) :
  NoDup l -> Pandas.has_duplicates l = false.
Proof.
  induction 1 as [|k l Hk Hl IH]; simpl; [reflexivity|].
  rewrite IH, orb_false_r.
  destruct (existsb (Pandas.pair_eqb k) l) eqn:E; [|reflexivity].
  apply existsb_exists in E. destruct E as [k' [Hin Heq]].
  apply pair_eqb_eq in Heq. subst k'. contradiction.
Qed.

Lemma keys_of_In {K : Type} (key : Pods.row -> option K) (df : list Pods.row) (k : K) :
  In k (keys_of key df) <-> exists r, In r df /\ key r = Some k.
Proof.
  induction df as [|r t IH]; simpl.
  - split; [tauto | intros [r [[] _]]].
  - destruct (key r) as [k0|] eqn:E; simpl; rewrite ?IH; split.
    + intros [<- | [r' [Hin Hk]]]; eauto.
    + intros [r' [[<- | Hin] Hk]]; [left; congruence | right; eauto].
    + intros [r' [Hin Hk]]; eauto.
    + intros [r' [[<- | Hin] Hk]]; [congruence | eauto].
Qed.

Lemma keys_of_count {K : Type} (key : Pods.row -> option K) (p : K -> bool)
      (df : list Pods.row) :
  List.length (filter p (keys_of key df))
  = List.length (filter (fun r => match key r with Some k => p k | None => false end) df).
Proof.
  induction df as [|r t IH]; simpl; [reflexivity|].
  destruct (key r) as [k|]; simpl; [|exact IH].
  destruct (p k); simpl; now rewrite IH.
Qed.

Lemma filter_ext_length {A : Type} (p q : A -> bool) (l : list A) :
  (forall a, p a = q a) -> List.length (filter p l) = List.length (filter q l).
Proof. intros H. now rewrite (filter_ext p q H). Qed.

Lemma pair_count (n m : string) (pods_df : list Pods.row) :
  List.length (filter (Pandas.pair_eqb (n, m)) (keys_of node_microservice pods_df))
  = pods_on_of n m pods_df.
Proof.
  rewrite keys_of_count. apply filter_ext_length. intros r.
  unfold node_microservice, Pandas.str_key, cell_is.
  destruct (Pods.node r), (Pods.microservice r); try reflexivity;
    try (now rewrite andb_false_r).
Qed.

Lemma node_count (n : string) (pods_df : list Pods.row) :
  List.length (filter (String.eqb n)
                 (keys_of (fun r => Pandas.str_key (Pods.node r)) pods_df))
  = pods_on n pods_df.
Proof.
  rewrite keys_of_count. apply filter_ext_length. intros r.
  unfold Pandas.str_key, cell_is. now destruct (Pods.node r).
Qed.

Lemma lookup_combine_map {V : Type} (f : string -> V) (l : list string) (k : string) :
  In k l -> Pandas.lookup String.eqb k (combine l (map f l)) = Some (f k).
Proof.
  induction l as [|a l IH]; simpl; [tauto|].
  destruct (String.eqb_spec k a) as [->|Hne]; [reflexivity|].
  intros [-> | Hin]; [contradiction | auto].
Qed.

Lemma list_sum_indicator (m : string) (cols : list string) :
  NoDup cols -> In m cols ->
  list_sum (map (fun c => if String.eqb m c then 1%nat else 0%nat) cols) = 1%nat.
Proof.
  induction 1 as [|c l Hc Hl IH]; simpl; [tauto|].
  intros [-> | Hin].
  - rewrite String.eqb_refl.
    assert (Hz : list_sum (map (fun c => if String.eqb m c then 1%nat else 0%nat) l) = 0%nat).
    { clear - Hc. induction l as [|a l IH]; simpl; [reflexivity|].
      destruct (String.eqb_spec m a) as [->|_]; [exfalso; apply Hc; now left|].
      apply IH. intros Hin. apply Hc. now right. }
    now rewrite Hz.
  - destruct (String.eqb_spec m c) as [->|_]; [contradiction|].
    now apply IH.
Qed.

Lemma list_sum_zero {A : Type} (l : list A) : list_sum (map (fun _ => 0%nat) l) = 0%nat.
Proof. induction l; simpl; auto. Qed.

Lemma list_sum_add {A : Type} (f g : A -> nat) (l : list A) :
  list_sum (map (fun c => (f c + g c)%nat) l)
  = (list_sum (map f l) + list_sum (map g l))%nat.
Proof. induction l as [|a l IH]; simpl; [reflexivity | rewrite IH; lia]. Qed.

(** The counts of a row add up to the number of pods on the node, when the
    columns name every microservice once. *)
Lemma row_sum (n : string) (cols : list string) (pods_df : list Pods.row) :
  NoDup cols ->
  (forall r, In r pods_df -> exists m, Pods.microservice r = PStr m /\ In m cols) ->
  list_sum (map (fun c => pods_on_of n c pods_df) cols) = pods_on n pods_df.
Proof.
  intros Hnd. unfold pods_on_of, pods_on.
  induction pods_df as [|r t IH]; intros Hcov.
  - simpl. apply list_sum_zero.
  - assert (IH' := IH (fun r' Hr' => Hcov r' (or_intror Hr'))). clear IH.
    destruct (Hcov r (or_introl eq_refl)) as [m [Hm Hin]].
    cbn [filter]. rewrite Hm. cbn [cell_is].
    destruct (cell_is n (Pods.node r)); cbn [andb].
    + rewrite (map_ext _ (fun c => ((if String.eqb m c then 1 else 0)
                 + List.length (filter (fun r0 => cell_is n (Pods.node r0)
                                         && cell_is c (Pods.microservice r0)) t))%nat)).
      * rewrite list_sum_add, IH', (list_sum_indicator m cols Hnd Hin). reflexivity.
      * intros c. rewrite (String.eqb_sym c m). now destruct (String.eqb m c).
    + exact IH'.
Qed.

End PivotFacts.

Module PivotTable.

Section Table.
Variable pods_df : list Pods.row.
Hypothesis str_keys : forallb has_str_keys pods_df = true.

Local Abbreviation ms := (ms_node_df pods_df).
Local Abbreviation index :=
  (Pandas.unique_sorted String_as_OT.compare (map (fun r => fst (fst r)) ms)).
Local Abbreviation columns :=
  (Pandas.unique_sorted String_as_OT.compare (map (fun r => snd (fst r)) ms)).
Local Abbreviation table := (counts_table pods_df).

Lemma pivot_table : pivot pods_df = Ok table.
Proof.
  unfold pivot, Pandas.pivot. fold ms.
  rewrite PivotFacts.has_duplicates_NoDup
    by (apply (GroupFacts.group_sizes_NoDup _ OrderFacts.pair_order OrderFacts.pair_compare_eq)).
  cbn [bind]. unfold table, counts_table, Pandas.fillna0. fold ms index columns.
  f_equal. f_equal. rewrite map_map. apply map_ext. intros i.
  rewrite map_map. reflexivity.
Qed.

Lemma keys_str (r : Pods.row) :
  In r pods_df ->
  exists n m, Pods.node r = PStr n /\ Pods.microservice r = PStr m /\
              node_microservice r = Some (n, m).
Proof.
  intros Hin.
  pose proof (proj1 (forallb_forall _ _) str_keys r Hin) as H.
  unfold has_str_keys in H. unfold node_microservice.
  destruct (Pods.node r); try discriminate.
  destruct (Pods.microservice r); try discriminate.
  eauto.
Qed.

Lemma pair_observed (n m : string) :
  In (n, m) (map fst ms) <->
  exists r, In r pods_df /\ Pods.node r = PStr n /\ Pods.microservice r = PStr m.
Proof.
  unfold ms, ms_node_df.
  rewrite (GroupFacts.group_sizes_keys _ OrderFacts.pair_compare_eq), PivotFacts.keys_of_In.
  split; intros [r [Hin H]]; exists r; (split; [exact Hin|]).
  - destruct (keys_str r Hin) as [n' [m' [Hn [Hm Hk]]]]. split; congruence.
  - destruct H as [Hn Hm]. unfold node_microservice. now rewrite Hn, Hm.
Qed.

Lemma index_observed (n : string) :
  In n index <-> exists r, In r pods_df /\ Pods.node r = PStr n.
Proof.
  unfold index, Pandas.unique_sorted.
  rewrite (GroupFacts.group_sizes_keys _ OrderFacts.string_compare_eq).
  rewrite in_map_iff. split.
  - intros [[[n' m] k] [<- Hin]]. simpl.
    apply (in_map fst) in Hin. simpl in Hin.
    apply pair_observed in Hin. destruct Hin as [r [Hr [Hn _]]]. eauto.
  - intros [r [Hr Hn]].
    destruct (keys_str r Hr) as [n' [m [Hn' [Hm _]]]].
    assert (Hin : In (n, m) (map fst ms)) by (apply pair_observed; eauto).
    apply in_map_iff in Hin. destruct Hin as [[[n0 m0] k] [E Hin]].
    simpl in E. injection E as -> ->.
    now exists (n, m, k).
Qed.

Lemma columns_observed (m : string) :
  In m columns <-> exists r, In r pods_df /\ Pods.microservice r = PStr m.
Proof.
  unfold columns, Pandas.unique_sorted.
  rewrite (GroupFacts.group_sizes_keys _ OrderFacts.string_compare_eq).
  rewrite in_map_iff. split.
  - intros [[[n m'] k] [<- Hin]]. simpl.
    apply (in_map fst) in Hin. simpl in Hin.
    apply pair_observed in Hin. destruct Hin as [r [Hr [_ Hm]]]. eauto.
  - intros [r [Hr Hm]].
    destruct (keys_str r Hr) as [n [m' [Hn [Hm' _]]]].
    assert (Hin : In (n, m) (map fst ms)) by (apply pair_observed; eauto).
    apply in_map_iff in Hin. destruct Hin as [[[n0 m0] k] [E Hin]].
    simpl in E. injection E as -> ->.
    now exists (n, m, k).
Qed.

Lemma index_NoDup : NoDup index.
Proof. apply (GroupFacts.group_sizes_NoDup _ OrderFacts.string_order OrderFacts.string_compare_eq). Qed.

Lemma columns_NoDup : NoDup columns.
Proof. apply (GroupFacts.group_sizes_NoDup _ OrderFacts.string_order OrderFacts.string_compare_eq). Qed.

Lemma size_count (n m : string) :
  size_of Pandas.pair_eqb (n, m) ms = pods_on_of n m pods_df.
Proof.
  unfold ms, ms_node_df.
  rewrite (GroupFacts.group_sizes_size _ _ OrderFacts.pair_order OrderFacts.pair_compare_eq
             PivotFacts.pair_eqb_eq).
  apply PivotFacts.pair_count.
Qed.

Lemma table_loc (n : string) :
  In n index ->
  loc table n = Some (map (fun c => pods_on_of n c pods_df) columns).
Proof.
  intros Hin. unfold loc, table, counts_table; simpl. fold ms index columns.
  rewrite (PivotFacts.lookup_combine_map _ index n Hin).
  f_equal. apply map_ext. intros c. apply size_count.
Qed.

Lemma table_cell (n m : string) :
  In n index -> In m columns -> cell table n m = Some (pods_on_of n m pods_df).
Proof.
  intros Hn Hm. unfold cell. rewrite (table_loc n Hn).
  unfold table, counts_table. cbn [Pivot.columns]. fold ms columns.
  apply (PivotFacts.lookup_combine_map (fun c => pods_on_of n c pods_df) columns m Hm).
Qed.

Lemma table_row_total (n : string) :
  In n index -> row_total table n = Some (pods_on n pods_df).
Proof.
  intros Hn. unfold row_total. rewrite (table_loc n Hn). simpl. f_equal.
  apply PivotFacts.row_sum; [exact columns_NoDup|].
  intros r Hr. destruct (keys_str r Hr) as [n' [m [_ [Hm _]]]].
  exists m. split; [exact Hm|]. apply columns_observed. eauto.
Qed.

Lemma pods_per_node_lookup (n : string) :
  In n index ->
  Pandas.lookup String.eqb n (pods_per_node pods_df) = Some (pods_on n pods_df).
Proof.
  intros Hn. apply index_observed in Hn. destruct Hn as [r [Hr Hn]].
  unfold pods_per_node.
  rewrite (GroupFacts.group_sizes_lookup _ _ OrderFacts.string_order OrderFacts.string_compare_eq
             String.eqb_eq).
  - f_equal. apply PivotFacts.node_count.
  - apply PivotFacts.keys_of_In. exists r. split; [exact Hr|]. now rewrite Hn.
Qed.
End Table.

End PivotTable.

(** C8.  For pod records with text for node and microservice, [pivot]
    returns a table in which: the row labels are the node names that occur
    in the records and the column labels are the microservice names that
    occur, each once; the cell at a node and a microservice is the number of
    records with that pair, hence 0 for a pair that does not occur; and
    the cells of a node's row add up to the count [pods_per_node] records
    for that node. *)
Theorem pivot_counts :
  forall pods_df : list Pods.row,
    forallb has_str_keys pods_df = true ->
    exists t : Pivot.frame,
      pivot pods_df = Ok t /\
      (forall n, In n (Pivot.index t) <->
                 exists r, In r pods_df /\ Pods.node r = PStr n) /\
      (forall m, In m (Pivot.columns t) <->
                 exists r, In r pods_df /\ Pods.microservice r = PStr m) /\
      NoDup (Pivot.index t) /\
      NoDup (Pivot.columns t) /\
      (forall n m, In n (Pivot.index t) -> In m (Pivot.columns t) ->
                   cell t n m = Some (pods_on_of n m pods_df)) /\
      (forall n m, In n (Pivot.index t) -> In m (Pivot.columns t) ->
                   (forall r, In r pods_df ->
                              ~ (Pods.node r = PStr n /\ Pods.microservice r = PStr m)) ->
                   cell t n m = Some 0%nat) /\
      (forall n, In n (Pivot.index t) ->
                 row_total t n = Some (pods_on n pods_df) /\
                 Pandas.lookup String.eqb n (pods_per_node pods_df)
                 = Some (pods_on n pods_df)).
Proof.
  intros pods_df Hstr.
  exists (counts_table pods_df).
  split; [now apply PivotTable.pivot_table|].
  split; [now apply PivotTable.index_observed|].
  split; [now apply PivotTable.columns_observed|].
  split; [apply PivotTable.index_NoDup|].
  split; [apply PivotTable.columns_NoDup|].
  split; [intros n m; now apply PivotTable.table_cell|].
  split.
  - intros n m Hn Hm Hnone.
    rewrite (PivotTable.table_cell pods_df n m Hn Hm). f_equal.
    unfold pods_on_of.
    rewrite (proj2 (List.length_zero_iff_nil _)); [reflexivity|].
    destruct (filter _ pods_df) as [|r l] eqn:E; [reflexivity|].
    exfalso.
    assert (Hin : In r (filter (fun r0 => cell_is n (Pods.node r0)
                                          && cell_is m (Pods.microservice r0)) pods_df))
      by (rewrite E; now left).
    apply filter_In in Hin. destruct Hin as [Hin Hp].
    apply andb_prop in Hp. destruct Hp as [Hp1 Hp2].
    apply (Hnone r Hin). unfold cell_is in Hp1, Hp2.
    destruct (Pods.node r); try discriminate.
    destruct (Pods.microservice r); try discriminate.
    apply String.eqb_eq in Hp1, Hp2. now subst.
  - intros n Hn. split.
    + now apply PivotTable.table_row_total.
    + now apply PivotTable.pods_per_node_lookup.
Qed.

Lemma pivot_counts_witness :
  forallb has_str_keys sample_pods_df = true /\
  exists t : Pivot.frame,
    pivot sample_pods_df = Ok t /\
    cell t "n1" "svcA" = Some 2%nat /\
    cell t "n1" "svcB" = Some 0%nat /\
    row_total t "n1" = Some 2%nat.
Proof.
  assert (H : forallb has_str_keys sample_pods_df = true) by reflexivity.
  split; [exact H|].
  destruct (pivot_counts sample_pods_df H)
    as [t [Hp [Hi [Hc [_ [_ [Hcell [_ Hrow]]]]]]]].
  assert (Hn1 : In "n1" (Pivot.index t)).
  { apply Hi. exists (pod_record (sample_pod "svcA" "web-1" "n1")).
    split; [simpl; auto | reflexivity]. }
  assert (HA : In "svcA" (Pivot.columns t)).
  { apply Hc. exists (pod_record (sample_pod "svcA" "web-1" "n1")).
    split; [simpl; auto | reflexivity]. }
  assert (HB : In "svcB" (Pivot.columns t)).
  { apply Hc. exists (pod_record (sample_pod "svcB" "web-2" "n2")).
    split; [simpl; auto | reflexivity]. }
  exists t. split; [exact Hp|].
  split; [exact (Hcell "n1" "svcA" Hn1 HA)|].
  split; [exact (Hcell "n1" "svcB" Hn1 HB)|].
  exact (proj1 (Hrow "n1" Hn1)).
Defined.

(** ** Signs of the parsed values *)

Module SignFacts.

Lemma round_aux_sign (m e : Z) (l : location) :
  sign_clear (binary_round_aux prec emax false m e l).
Proof.
  unfold binary_round_aux.
  destruct (shr_fexp prec emax m e l) as [mrs' e'].
  destruct (shr_fexp prec emax _ e' loc_Exact) as [mrs'' e''].
  destruct (shr_m mrs''); [reflexivity | | exact I].
  match goal with |- context [if ?b then _ else _] => destruct b end; reflexivity.
Qed.

Lemma fmul_sign (x y : float) : sign_clear x -> sign_clear y -> sign_clear (fmul x y).
Proof.
  unfold fmul, SFmul.
  destruct x as [sx|sx| |sx mx ex], y as [sy|sy| |sy my ey]; simpl;
    try tauto; try (intros -> ->; reflexivity).
  intros -> ->. apply round_aux_sign.
Qed.

Lemma fdiv_sign (x y : float) : sign_clear x -> sign_clear y -> sign_clear (fdiv x y).
Proof.
  unfold fdiv, SFdiv.
  destruct x as [sx|sx| |sx mx ex], y as [sy|sy| |sy my ey]; simpl;
    try tauto; try (intros -> ->; reflexivity).
  intros -> ->.
  destruct (SFdiv_core_binary prec emax (Z.pos mx) ex (Z.pos my) ey) as [[mz ez] lz].
  apply round_aux_sign.
Qed.

Lemma of_int_sign (z : Z) : 0 <= z -> sign_clear (of_int z).
Proof.
  unfold of_int, binary_normalize. destruct z as [|p|p]; [reflexivity | | lia].
  intros _. unfold binary_round.
  destruct (shl_align p 0 _) as [mz ez]. apply round_aux_sign.
Qed.

Lemma of_decimal_sign (d e : Z) : sign_clear (of_decimal false d e).
Proof.
  unfold of_decimal. destruct d; try reflexivity.
  destruct (0 <=? e); apply fdiv_sign; reflexivity.
Qed.

Lemma sign_clear_not_negative (x : float) : sign_clear x -> not_negative x.
Proof.
  unfold not_negative, fltb, SFltb, zero.
  destruct x as [s|s| |s m e]; simpl; try reflexivity; intros ->; reflexivity.
Qed.

(** *** Text without a minus sign *)

Lemma no_minus_iff (s : string) : no_minus s = true <-> ~ In minus (chars s).
Proof.
  unfold no_minus. rewrite negb_true_iff. split.
  - intros H Hin.
    assert (E : existsb (Ascii.eqb minus) (chars s) = true).
    { apply existsb_exists. exists minus. split; [exact Hin | apply Ascii.eqb_refl]. }
    congruence.
  - intros H. destruct (existsb _ _) eqn:E; [|reflexivity].
    apply existsb_exists in E. destruct E as [c [Hin Hc]].
    apply Ascii.eqb_eq in Hc. subst c. contradiction.
Qed.

Lemma drop_while_incl (p : ascii -> bool) (l : list ascii) (c : ascii) :
  In c (drop_while p l) -> In c l.
Proof.
  induction l as [|a l IH]; simpl; [tauto|].
  destruct (p a); simpl; tauto.
Qed.

Lemma drop_while_keeps (p : ascii -> bool) (l : list ascii) :
  match drop_while p l with [] => True | c :: _ => p c = false end.
Proof.
  induction l as [|c l IH]; simpl; [exact I|].
  destruct (p c) eqn:E; [exact IH | exact E].
Qed.

Lemma strip_with_incl (p : ascii -> bool) (l : list ascii) (c : ascii) :
  In c (strip_with p l) -> In c l.
Proof.
  unfold strip_with. rewrite <- in_rev. intros H.
  apply drop_while_incl in H. rewrite <- in_rev in H.
  now apply drop_while_incl in H.
Qed.

Lemma drop_underscores_incl (prev : option ascii) (l l' : list ascii) (c : ascii) :
  Py.drop_underscores prev l = Some l' -> In c l' -> In c l.
Proof.
  revert prev l'. induction l as [|a l IH]; intros prev l'; simpl.
  - destruct prev as [p|]; [destruct (Ascii.eqb p Py.underscore)|];
      try discriminate; intros [= <-]; tauto.
  - destruct (Ascii.eqb a Py.underscore).
    + destruct prev as [p|]; [|discriminate].
      destruct (is_digit p); [|discriminate].
      intros H Hin. right. eapply IH; eassumption.
    + destruct (_ && _); [discriminate|].
      destruct (Py.drop_underscores (Some a) l) as [t|] eqn:E; [|discriminate].
      simpl. intros [= <-] [-> | Hin]; [now left | right; eapply IH; eauto].
Qed.

Lemma chars_substring (n k : nat) (s : string) (c : ascii) :
  In c (chars (substring n k s)) -> In c (chars s).
Proof.
  revert n k. induction s as [|a s IH]; intros n k.
  - destruct n, k; simpl; tauto.
  - destruct n as [|n].
    + destruct k as [|k]; simpl; [tauto|].
      intros [-> | H]; [now left | right; eapply IH; eauto].
    + simpl. intros H. right. eapply IH; eauto.
Qed.

Lemma no_minus_drop_last (k : nat) (s : string) :
  no_minus s = true -> no_minus (drop_last k s) = true.
Proof.
  rewrite !no_minus_iff. intros H Hin. apply H.
  unfold drop_last in Hin. eapply chars_substring; eauto.
Qed.

Lemma take_sign_unsigned (l : list ascii) :
  ~ In minus l -> Py.take_sign l = (false, snd (Py.take_sign l)).
Proof.
  destruct l as [|a l]; [reflexivity|].
  intros H. unfold Py.take_sign.
  destruct a as [[] [] [] [] [] [] [] []]; try reflexivity.
  exfalso. apply H. now left.
Qed.

Lemma parse_decimal_sign (l : list ascii) (x : float) :
  Py.parse_decimal false l = Some x -> sign_clear x.
Proof.
  unfold Py.parse_decimal.
  destruct (span is_digit l) as [ip r1].
  destruct (match r1 with
            | "."%char :: t => span is_digit t
            | _ => ([], r1)
            end) as [fp r2].
  destruct (ip ++ fp)%list as [|d ds]; [discriminate|].
  destruct r2 as [|c r3].
  - intros [= <-]. apply of_decimal_sign.
  - destruct (Py.is_e c); [|discriminate].
    destruct (Py.take_sign r3) as [eneg r4].
    destruct (span is_digit r4) as [ed r5].
    destruct ed; [discriminate|]. destruct r5; [|discriminate].
    intros [= <-]. apply of_decimal_sign.
Qed.

Lemma parse_float_sign (l : list ascii) (x : float) :
  ~ In minus l -> Py.parse_float l = Some x -> sign_clear x.
Proof.
  intros Hl. unfold Py.parse_float. rewrite (take_sign_unsigned l Hl).
  destruct (_ || _); [intros [= <-]; reflexivity|].
  destruct (String.eqb _ "nan"); [intros [= <-]; exact I|].
  apply parse_decimal_sign.
Qed.

Lemma float_of_str_sign (s : string) (x : float) :
  no_minus s = true -> Py.float_of_str s = Ok x -> sign_clear x.
Proof.
  rewrite no_minus_iff. intros Hs. unfold Py.float_of_str.
  destruct (Py.drop_underscores None (chars s)) as [l|] eqn:E; [|discriminate].
  destruct (Py.parse_float _) as [y|] eqn:E'; [|discriminate].
  intros [= <-]. apply (parse_float_sign _ _) in E'; [exact E'|].
  intros Hin. apply Hs. apply strip_with_incl in Hin.
  eapply drop_underscores_incl; eauto.
Qed.

(** *** Text that does not begin with a minus sign *)

Lemma sign_clear_nonneg_or_nan (x : float) : sign_clear x -> nonneg_or_nan x.
Proof.
  unfold nonneg_or_nan, nonneg, fleb, SFleb, zero.
  destruct x as [s|s| |s m e]; simpl; try (intros ->); auto.
Qed.

Lemma cspace_blank (c : ascii) : is_cspace c = true -> blank c = true.
Proof. unfold blank. now intros ->. Qed.

Lemma minus_not_blank : blank minus = false.
Proof. reflexivity. Qed.

(** A minus sign found after the whitespace of C is found after the
    blanks. *)
Lemma drop_while_blank_minus (l t : list ascii) :
  drop_while is_cspace l = minus :: t -> drop_while blank l = minus :: t.
Proof.
  induction l as [|c l IH]; simpl; [discriminate|].
  destruct (is_cspace c) eqn:E.
  - rewrite (cspace_blank c E). exact IH.
  - intros [= -> <-]. now rewrite minus_not_blank.
Qed.

Lemma drop_while_app_last (p : ascii -> bool) (l : list ascii) (a : ascii) :
  p a = false -> exists u, drop_while p (l ++ [a]) = (u ++ [a])%list.
Proof.
  intros Ha. induction l as [|c l [u IH]]; simpl.
  - rewrite Ha. now exists [].
  - destruct (p c); [now exists u|]. now exists (c :: l).
Qed.

(** [strip_with] keeps the first character that is left after the leading
    characters are dropped. *)
Lemma strip_with_head (p : ascii -> bool) (l : list ascii) (c : ascii) (t : list ascii) :
  strip_with p l = c :: t -> exists t', drop_while p l = c :: t'.
Proof.
  unfold strip_with.
  pose proof (drop_while_keeps p l) as Hd.
  destruct (drop_while p l) as [|a d]; [discriminate|].
  cbn [rev]. destruct (drop_while_app_last p (rev d) a Hd) as [u ->].
  rewrite rev_app_distr. cbn [rev app]. intros [= <- _]. now exists d.
Qed.

(** Digit separators stand between digits: taking them out does not
    bring a minus sign to the front. *)
Lemma drop_underscores_leading (prev : option ascii) (l l' t' : list ascii) :
  match prev with
  | None => True
  | Some p => is_digit p = false /\ Ascii.eqb p Py.underscore = false
  end ->
  Py.drop_underscores prev l = Some l' ->
  drop_while is_cspace l' = minus :: t' ->
  exists t, drop_while is_cspace l = minus :: t.
Proof.
  revert prev l' t'. induction l as [|c r IH]; intros prev l' t' Hprev; simpl.
  - destruct prev as [p|]; [destruct (Ascii.eqb p Py.underscore)|];
      try discriminate; intros [= <-]; discriminate.
  - destruct (Ascii.eqb c Py.underscore) eqn:Ec.
    + destruct prev as [p|]; [|discriminate].
      destruct Hprev as [Hp _]. rewrite Hp. discriminate.
    + assert (Hafter :
        match prev with Some p => Ascii.eqb p Py.underscore | None => false end = false)
        by (destruct prev as [p|]; [apply Hprev | reflexivity]).
      rewrite Hafter. cbn [andb].
      destruct (Py.drop_underscores (Some c) r) as [r'|] eqn:Er; [|discriminate].
      cbn [option_map]. intros [= <-]. cbn [drop_while].
      destruct (is_cspace c) eqn:Es.
      * intros H. apply (IH (Some c) r' t'); [|exact Er | exact H].
        split; [|exact Ec].
        unfold is_cspace, is_digit in *.
        destruct (code c) as [|n] eqn:En; [reflexivity|].
        apply orb_true_iff in Es. apply andb_false_iff.
        destruct Es as [Es | Es].
        -- apply andb_true_iff in Es. destruct Es as [_ Es].
           apply Nat.leb_le in Es. left. apply Nat.leb_gt. lia.
        -- apply Nat.eqb_eq in Es. left. apply Nat.leb_gt. lia.
      * intros [= -> <-]. now exists r.
Qed.

Lemma take_sign_head (l : list ascii) :
  (forall t, l <> minus :: t) -> Py.take_sign l = (false, snd (Py.take_sign l)).
Proof.
  destruct l as [|a l]; [reflexivity|].
  intros H. unfold Py.take_sign.
  destruct a as [[] [] [] [] [] [] [] []]; try reflexivity.
  exfalso. now apply (H l).
Qed.

Lemma parse_float_sign_head (l : list ascii) (x : float) :
  (forall t, l <> minus :: t) -> Py.parse_float l = Some x -> sign_clear x.
Proof.
  intros Hl. unfold Py.parse_float. rewrite (take_sign_head l Hl).
  destruct (_ || _); [intros [= <-]; reflexivity|].
  destruct (String.eqb _ "nan"); [intros [= <-]; exact I|].
  apply parse_decimal_sign.
Qed.

(** [float] gives a value with the sign bit set only to a text that
    begins with a minus sign. *)
Lemma float_of_str_sign_leading (s : string) (x : float) :
  leading_minus s = false -> Py.float_of_str s = Ok x -> sign_clear x.
Proof.
  intros Hs. unfold Py.float_of_str.
  destruct (Py.drop_underscores None (chars s)) as [l|] eqn:E; [|discriminate].
  destruct (Py.parse_float _) as [y|] eqn:E'; [|discriminate].
  intros [= <-]. apply (parse_float_sign_head _ _) in E'; [exact E'|].
  intros t Ht.
  destruct (strip_with_head _ _ _ _ Ht) as [t' Hd].
  destruct (drop_underscores_leading None (chars s) l t' I E Hd) as [t'' Hd'].
  apply drop_while_blank_minus in Hd'.
  unfold leading_minus in Hs. rewrite Hd' in Hs. discriminate.
Qed.

Lemma drop_while_prefix (p : ascii -> bool) (n : nat) (s : string) (c : ascii)
      (t : list ascii) :
  drop_while p (chars (substring 0 n s)) = c :: t ->
  exists t', drop_while p (chars s) = c :: t'.
Proof.
  revert n. induction s as [|a s IH]; intros n.
  - destruct n; discriminate.
  - destruct n as [|n]; [discriminate|].
    cbn [substring chars list_ascii_of_string]. cbn [drop_while].
    destruct (p a); [apply IH|].
    intros [= -> _]. now exists (list_ascii_of_string s).
Qed.

Lemma leading_minus_drop_last (k : nat) (s : string) :
  leading_minus s = false -> leading_minus (drop_last k s) = false.
Proof.
  unfold leading_minus, drop_last. intros H.
  destruct (drop_while blank (chars (substring 0 (String.length s - k) s)))
    as [|c t] eqn:E; [reflexivity|].
  destruct (drop_while_prefix _ _ _ _ _ E) as [t' E'].
  now rewrite E' in H.
Qed.

Section Parser.
Variable repr : pyval -> string.

Lemma match_suffix_sign (table : list (string * Z)) (v : string) (x : float) :
  Forall (fun p => 0 <= snd p) table ->
  leading_minus v = false ->
  match_suffix table v = Ok x -> sign_clear x.
Proof.
  intros Ht Hv. induction Ht as [|[suffix mult] rest Hm Hr IH]; simpl.
  - intros [= <-]. reflexivity.
  - destruct (endswith v suffix); [|exact IH].
    destruct (Py.float_of_str _) as [f|e] eqn:E.
    + intros [= <-]. apply fmul_sign.
      * eapply float_of_str_sign_leading; [|exact E].
        now apply leading_minus_drop_last.
      * now apply of_int_sign.
    + destruct e; try discriminate. intros [= <-]. reflexivity.
Qed.

Lemma multipliers_positive : Forall (fun p => 0 <= snd p) multipliers.
Proof. unfold multipliers. repeat constructor; simpl; lia. Qed.

(** The parser gives the sign bit only to a raw value that begins with a
    minus sign. *)
Lemma parse_sign (v : pyval) (x : float) :
  unsigned repr v = true ->
  parse_resource_value repr v = Ok x -> sign_clear x.
Proof.
  intros Hv.
  assert (Hbody :
    parse_resource_value repr v = Ok x ->
    x = zero \/
    (let s := py_str repr v in
     (if endswith s "m" then
        y <- Py.float_of_str (drop_last 1 s) ;; Ok (fdiv y (of_int 1000))
      else if isdigit (remove_first_dot s) then Py.float_of_str s
      else match_suffix multipliers s) = Ok x) /\
    leading_minus (py_str repr v) = false).
  { destruct v as [| | | |s| | |]; simpl in *; try (intros [= <-]; now left);
      try (intros H; right; split; [exact H | now apply negb_true_iff]).
    destruct s; [intros [= <-]; now left
                | intros H; right; split; [exact H | now apply negb_true_iff]]. }
  intros H. apply Hbody in H. clear Hbody.
  destruct H as [-> | [H Hs]]; [reflexivity|].
  cbv zeta in H.
  destruct (endswith (py_str repr v) "m").
  - destruct (Py.float_of_str _) as [y|e] eqn:E; [|discriminate].
    cbn [bind] in H. injection H as <-.
    apply fdiv_sign.
    + eapply float_of_str_sign_leading; [|exact E].
      now apply leading_minus_drop_last.
    + reflexivity.
  - destruct (isdigit _).
    + eapply float_of_str_sign_leading; eauto.
    + eapply match_suffix_sign; eauto using multipliers_positive.
Qed.
End Parser.

End SignFacts.

(** ** Decoding the node listing and the utilization lines *)

Module NodeFacts.

Lemma mapM_Forall2 {A B : Type} (f : A -> result B) (l : list A) (l' : list B) :
  mapM f l = Ok l' -> Forall2 (fun a b => f a = Ok b) l l'.
Proof.
  revert l'. induction l as [|a l IH]; simpl; intros l'.
  - intros [= <-]. constructor.
  - destruct (f a) as [b|e] eqn:E; [|discriminate]. cbn [bind].
    destruct (mapM f l) as [bs|e]; [|discriminate]. cbn [bind].
    intros [= <-]. constructor; auto.
Qed.

Section Decoders.
Variable repr : pyval -> string.

(** Each numeric cell of a capacity row is the parsed raw value. *)
Lemma node_row_fields (item : pyval) (r : Nodes.row) :
  node_row repr item = Ok r ->
  parse_resource_value repr (quantity "capacity" "cpu" item)
    = Ok (Nodes.cpu_capacity_cores r) /\
  parse_resource_value repr (quantity "capacity" "memory" item)
    = Ok (Nodes.mem_capacity_bytes r) /\
  parse_resource_value repr (quantity "allocatable" "cpu" item)
    = Ok (Nodes.cpu_alloc_cores r) /\
  parse_resource_value repr (quantity "allocatable" "memory" item)
    = Ok (Nodes.mem_alloc_bytes r).
Proof.
  unfold node_row, quantity.
  destruct (Py.get item "metadata" empty_dict) as [meta|]; [|discriminate].
  destruct (Py.get item "status" empty_dict) as [status|]; [|discriminate].
  cbn [bind].
  destruct (Py.get meta "name" (PStr "")) as [name|]; [|discriminate].
  destruct (Py.get status "capacity" empty_dict) as [capacity|]; [|discriminate].
  destruct (Py.get status "allocatable" empty_dict) as [alloc|]; [|discriminate].
  cbn [bind].
  destruct (Py.get capacity "cpu" PNone) as [v1|]; [|discriminate]. cbn [bind].
  destruct (parse_resource_value repr v1) as [x1|]; [|discriminate]. cbn [bind].
  destruct (Py.get capacity "memory" PNone) as [v2|]; [|discriminate]. cbn [bind].
  destruct (parse_resource_value repr v2) as [x2|]; [|discriminate]. cbn [bind].
  destruct (Py.get alloc "cpu" PNone) as [v3|]; [|discriminate]. cbn [bind].
  destruct (parse_resource_value repr v3) as [x3|]; [|discriminate]. cbn [bind].
  destruct (Py.get alloc "memory" PNone) as [v4|]; [|discriminate]. cbn [bind].
  destruct (parse_resource_value repr v4) as [x4|]; [|discriminate]. cbn [bind].
  intros [= <-]. simpl. auto.
Qed.

Lemma node_row_not_negative (item : pyval) (r : Nodes.row) :
  unsigned_item repr item = true ->
  node_row repr item = Ok r -> capacity_not_negative r.
Proof.
  unfold unsigned_item. rewrite !andb_true_iff.
  intros [[[U1 U2] U3] U4] H.
  destruct (node_row_fields item r H) as [P1 [P2 [P3 P4]]].
  unfold capacity_not_negative.
  repeat split; apply SignFacts.sign_clear_nonneg_or_nan.
  - exact (SignFacts.parse_sign repr _ _ U1 P1).
  - exact (SignFacts.parse_sign repr _ _ U2 P2).
  - exact (SignFacts.parse_sign repr _ _ U3 P3).
  - exact (SignFacts.parse_sign repr _ _ U4 P4).
Qed.

Lemma decode_nodes_items (data : pyval) (base_df : list Nodes.row) :
  decode_nodes repr data = Ok base_df ->
  mapM (node_row repr) (listing_items data) = Ok base_df.
Proof.
  unfold decode_nodes, listing_items.
  destruct (Py.get data "items" (PList [])) as [items|]; [|discriminate].
  cbn [bind].
  destruct (Py.iter items) as [l|]; [|discriminate].
  now cbn [bind].
Qed.

Lemma decode_nodes_not_negative (data : pyval) (base_df : list Nodes.row) :
  decode_nodes repr data = Ok base_df ->
  forallb (unsigned_item repr) (listing_items data) = true ->
  Forall capacity_not_negative base_df.
Proof.
  intros H Hu. apply decode_nodes_items in H. apply mapM_Forall2 in H.
  induction H as [|item r l l' Hr Hl IH]; [constructor|].
  simpl in Hu. apply andb_prop in Hu. destruct Hu as [Hu1 Hu2].
  constructor; [now apply (node_row_not_negative item) | auto].
Qed.

(** Each numeric cell of a utilization row is the parsed raw token kept
    beside it. *)
Lemma metric_row_fields (line : string) (r : Metrics.row) :
  metric_row repr line = Ok (Some r) ->
  parse_resource_value repr (PStr (Metrics.cpu_used_cores_raw r))
    = Ok (Metrics.cpu_used_cores r) /\
  parse_resource_value repr (PStr (Metrics.mem_used_bytes_raw r))
    = Ok (Metrics.mem_used_bytes r).
Proof.
  unfold metric_row.
  destruct (split line) as [|p0 [|p1 [|p2 [|p3 [|p4 rest]]]]]; try discriminate.
  destruct (parse_resource_value repr (PStr p1)) as [x1|] eqn:E1; [|discriminate].
  cbn [bind].
  destruct (parse_resource_value repr (PStr p3)) as [x3|] eqn:E3; [|discriminate].
  cbn [bind]. intros [= <-]. simpl. auto.
Qed.

Lemma metric_row_not_negative (line : string) (r : Metrics.row) :
  metric_row repr line = Ok (Some r) -> utilization_not_negative r.
Proof.
  intros H. destruct (metric_row_fields line r H) as [P1 P2].
  split; intros Hu; apply SignFacts.sign_clear_nonneg_or_nan;
    apply negb_true_iff in Hu.
  - exact (SignFacts.parse_sign repr (PStr (Metrics.cpu_used_cores_raw r)) _ Hu P1).
  - exact (SignFacts.parse_sign repr (PStr (Metrics.mem_used_bytes_raw r)) _ Hu P2).
Qed.

Lemma metric_rows_not_negative (lines : list string) (rows : list Metrics.row) :
  metric_rows_of repr lines = Ok rows -> Forall utilization_not_negative rows.
Proof.
  revert rows. induction lines as [|line rest IH]; simpl; intros rows.
  - intros [= <-]. constructor.
  - destruct (metric_row repr line) as [o|] eqn:E; [|discriminate]. cbn [bind].
    destruct (metric_rows_of repr rest) as [rs|]; [|discriminate]. cbn [bind].
    intros [= <-]. destruct o as [r|]; [|auto].
    constructor; [now apply (metric_row_not_negative line) | auto].
Qed.

Lemma decode_metrics_not_negative (top_out : pyval) (metrics_df : list Metrics.row) :
  decode_metrics repr top_out = Ok metrics_df ->
  Forall utilization_not_negative metrics_df.
Proof.
  unfold decode_metrics.
  destruct (Py.truthy top_out); [|intros [= <-]; constructor].
  destruct (Py.splitlines top_out) as [lines|]; [|discriminate].
  cbn [bind]. apply metric_rows_not_negative.
Qed.
End Decoders.

End NodeFacts.

(** C9, as the code has it.  In every capacity row decoded from a node
    listing whose raw [cpu] and [memory] values are absent or do not begin
    with a minus sign, each of the four numeric cells is [>= 0] or NaN; and
    in every utilization row decoded from the output of [kubectl top nodes],
    a numeric cell whose raw token does not begin with a minus sign is
    [>= 0] or NaN.  A minus sign further on in the text, as in the exponent
    of ["1e-3Ki"], does not matter. *)
Theorem decoded_values_not_negative :
  forall (repr : pyval -> string) (data : pyval) (base_df : list Nodes.row)
         (top_out : pyval) (metrics_df : list Metrics.row),
    decode_nodes repr data = Ok base_df ->
    forallb (unsigned_item repr) (listing_items data) = true ->
    decode_metrics repr top_out = Ok metrics_df ->
    Forall capacity_not_negative base_df /\
    Forall utilization_not_negative metrics_df.
Proof.
  intros repr data base_df top_out metrics_df Hn Hu Hm. split.
  - now apply (NodeFacts.decode_nodes_not_negative repr data).
  - now apply (NodeFacts.decode_metrics_not_negative repr top_out).
Qed.

Lemma decoded_values_not_negative_witness :
  exists (base_df : list Nodes.row) (metrics_df : list Metrics.row),
    decode_nodes (fun _ => "") exponent_node_listing = Ok base_df /\
    forallb (unsigned_item (fun _ => "")) (listing_items exponent_node_listing) = true /\
    decode_metrics (fun _ => "") sample_top_out = Ok metrics_df /\
    List.length base_df = 1%nat /\
    List.length metrics_df = 1%nat /\
    Forall capacity_not_negative base_df /\
    Forall utilization_not_negative metrics_df.
Proof.
  destruct (decode_nodes (fun _ => "") exponent_node_listing) as [base_df|] eqn:Hn;
    [|vm_compute in Hn; discriminate].
  destruct (decode_metrics (fun _ => "") sample_top_out) as [metrics_df|] eqn:Hm;
    [|vm_compute in Hm; discriminate].
  assert (Hu : forallb (unsigned_item (fun _ => "")) (listing_items exponent_node_listing)
               = true)
    by reflexivity.
  exists base_df, metrics_df.
  split; [reflexivity|]. split; [exact Hu|]. split; [reflexivity|].
  split; [vm_compute in Hn; injection Hn as <-; reflexivity|].
  split; [vm_compute in Hm; injection Hm as <-; reflexivity|].
  exact (decoded_values_not_negative (fun _ => "") exponent_node_listing base_df
           sample_top_out metrics_df Hn Hu Hm).
Defined.

(** C9 as stated fails in two ways.  A node that reports the CPU capacity
    ["-500m"] is decoded to a capacity row with -0.5 cores, and the token
    ["-250m"] of a utilization line to -0.25 cores: a value that begins with
    a minus sign keeps its sign.  And a node that reports the memory
    ["nanM"], which does not begin with a minus sign, is decoded to a
    capacity row whose memory is NaN.  None of the three is [>= 0]. *)
Lemma decoded_values_negative :
  (exists r : Nodes.row,
      decode_nodes (fun _ => "") negative_node_listing = Ok [r] /\
      Nodes.cpu_capacity_cores r = f_minus_0_5 /\
      ~ nonneg (Nodes.cpu_capacity_cores r)) /\
  (exists r : Metrics.row,
      decode_metrics (fun _ => "") negative_top_out = Ok [r] /\
      ~ nonneg (Metrics.cpu_used_cores r)) /\
  (exists r : Nodes.row,
      decode_nodes (fun _ => "") nan_node_listing = Ok [r] /\
      forallb (unsigned_item (fun _ => "")) (listing_items nan_node_listing) = true /\
      Nodes.mem_capacity_bytes r = S754_nan /\
      ~ nonneg (Nodes.mem_capacity_bytes r)).
Proof.
  split; [|split]; eexists; (split; [vm_compute; reflexivity|]);
    repeat split; try reflexivity; vm_compute; discriminate.
Qed.


(** * Further properties of the code *)

(** ** More on text *)

Module SuffixFacts.

Lemma append_empty (s : string) : s ++ "" = s.
Proof. induction s as [|c s IH]; simpl; [reflexivity | now rewrite IH]. Qed.

Lemma substring_all (s : string) : substring 0 (String.length s) s = s.
Proof. induction s as [|c s IH]; simpl; [reflexivity | now rewrite IH]. Qed.

Lemma substring_split (s : string) (i : nat) :
  (i <= String.length s)%nat ->
  s = substring 0 i s ++ substring i (String.length s - i) s.
Proof.
  revert i. induction s as [|c s IH]; intros i Hi; simpl in *.
  - destruct i; [reflexivity | lia].
  - destruct i as [|i]; simpl.
    + now rewrite substring_all.
    + f_equal. apply IH. lia.
Qed.

Lemma endswith_refl (t : string) : endswith t t = true.
Proof.
  unfold endswith. rewrite Nat.leb_refl, Nat.sub_diag, substring_all.
  apply String.eqb_refl.
Qed.

(** [s.endswith(t)] holds exactly when [s] is some text followed by [t]. *)
Lemma endswith_iff (s t : string) :
  endswith s t = true <-> exists x, s = x ++ t.
Proof.
  split.
  - unfold endswith. intros H. apply andb_prop in H. destruct H as [Hle Heq].
    apply Nat.leb_le in Hle. apply String.eqb_eq in Heq.
    exists (substring 0 (String.length s - String.length t) s).
    pose proof (substring_split s (String.length s - String.length t)) as Hs.
    replace (String.length s - (String.length s - String.length t))%nat
      with (String.length t) in Hs by lia.
    rewrite Heq in Hs. apply Hs. lia.
  - intros [x ->]. rewrite TextFacts.endswith_append by lia. apply endswith_refl.
Qed.

Lemma last_char_append (x t : string) :
  t <> "" -> last_char (x ++ t) = last_char t.
Proof.
  intros Ht. induction x as [|c x IH]; [reflexivity|].
  simpl. rewrite IH.
  destruct (x ++ t) eqn:E; [|reflexivity].
  destruct x; simpl in E; [congruence | discriminate].
Qed.

Lemma endswith_last (s t : string) (c : ascii) :
  endswith s t = true -> last_char t = Some c -> last_char s = Some c.
Proof.
  intros H Hc. apply endswith_iff in H. destruct H as [x ->].
  rewrite last_char_append; [exact Hc|]. intros ->. discriminate.
Qed.

Lemma last_char_In (s : string) (c : ascii) :
  last_char s = Some c -> In c (chars s).
Proof.
  induction s as [|d s IH]; [discriminate|].
  simpl. destruct s as [|e s].
  - intros [= ->]. now left.
  - intros H. right. now apply IH.
Qed.

(** A text does not end with a suffix whose last character is another
    one. *)
Lemma endswith_other_last (s t : string) (c d : ascii) :
  last_char s = Some c -> last_char t = Some d -> c <> d -> endswith s t = false.
Proof.
  intros Hs Ht Hne. destruct (endswith s t) eqn:E; [|reflexivity].
  rewrite (endswith_last s t d E Ht) in Hs. congruence.
Qed.

End SuffixFacts.

(** ** More on the resource value parser *)

Module ParserExtra.

Section Facts.
Variable repr : pyval -> string.

Lemma parse_text (s : string) :
  s <> "" ->
  parse_resource_value repr (PStr s) =
    if endswith s "m" then
      x <- Py.float_of_str (drop_last 1 s) ;; Ok (fdiv x (of_int 1000))
    else if isdigit (remove_first_dot s) then Py.float_of_str s
    else match_suffix multipliers s.
Proof. destruct s; [congruence | reflexivity]. Qed.

Lemma float_error (x : string) (e : exn) :
  Py.float_of_str x = Raise e -> e = ValueError.
Proof.
  unfold Py.float_of_str.
  destruct (Py.drop_underscores _ _); [|congruence].
  destruct (Py.parse_float _); congruence.
Qed.

Lemma suffix_step (suffix : string) (mult : Z) (rest : list (string * Z)) (v : string) :
  match_suffix ((suffix, mult) :: rest) v =
    if endswith v suffix
    then times mult (Py.float_of_str (drop_last (String.length suffix) v))
    else match_suffix rest v.
Proof.
  simpl. destruct (endswith v suffix); [|reflexivity].
  destruct (Py.float_of_str _) as [f|e] eqn:E; [reflexivity|].
  now rewrite (float_error _ _ E).
Qed.

(** No suffix of the table matches: the loop falls through to 0.0. *)
Lemma match_suffix_none (table : list (string * Z)) (v : string) :
  Forall (fun p => endswith v (fst p) = false) table ->
  match_suffix table v = Ok zero.
Proof.
  induction 1 as [|[suffix mult] rest H Hr IH]; [reflexivity|].
  rewrite suffix_step. simpl in H. now rewrite H.
Qed.

(** A text with a one-letter decimal suffix [a]: no two-letter suffix
    matches it. *)
Lemma parse_one_letter (x : string) (a : ascii) :
  is_digit a = false -> a <> "."%char -> a <> "m"%char -> a <> "i"%char ->
  parse_resource_value repr (PStr (x ++ String a ""))
  = match_suffix [("K", 1000); ("M", 1000 ^ 2); ("G", 1000 ^ 3); ("T", 1000 ^ 4)]
      (x ++ String a "").
Proof.
  intros Hd Hp Hm Hi.
  assert (Hlast : last_char (x ++ String a "") = Some a)
    by (rewrite SuffixFacts.last_char_append; [reflexivity | discriminate]).
  rewrite parse_text by (apply TextFacts.append_nonempty; discriminate).
  rewrite (SuffixFacts.endswith_other_last _ "m" a "m"%char Hlast eq_refl Hm).
  rewrite (TextFacts.not_isdigit _ a); [| | exact Hp | exact Hd].
  2:{ rewrite TextFacts.chars_append. apply in_or_app. right. now left. }
  unfold multipliers.
  do 4 (rewrite suffix_step;
        match goal with
        | |- context [endswith ?s ?t] =>
            rewrite (SuffixFacts.endswith_other_last s t a "i"%char Hlast eq_refl Hi)
        end).
  reflexivity.
Qed.

Lemma parse_decimal_letter (x : string) (a : ascii) (mult : Z) :
  In (String a "", mult) [("K", 1000); ("M", 1000 ^ 2); ("G", 1000 ^ 3); ("T", 1000 ^ 4)] ->
  parse_resource_value repr (PStr (x ++ String a "")) = times mult (Py.float_of_str x).
Proof.
  intros Hin.
  assert (Ha : is_digit a = false /\ a <> "."%char /\ a <> "m"%char /\ a <> "i"%char).
  { simpl in Hin.
    destruct Hin as [H | [H | [H | [H | []]]]]; injection H as <- <-;
      repeat split; discriminate. }
  destruct Ha as [Hd [Hp [Hm Hi]]].
  rewrite (parse_one_letter x a Hd Hp Hm Hi).
  simpl in Hin.
  destruct Hin as [H | [H | [H | [H | []]]]]; injection H as <- <-;
    repeat (rewrite suffix_step;
            rewrite (TextFacts.endswith_append x) by (simpl; lia);
            match goal with
            | |- context [endswith ?s ?t] =>
                let b := eval vm_compute in (endswith s t) in
                change (endswith s t) with b; cbv iota
            end);
    match goal with
    | |- context [drop_last (String.length ?t) (x ++ ?t)] =>
        now rewrite (TextFacts.drop_last_append x t)
    end.
Qed.

Lemma parse_millicore (x : string) :
  parse_resource_value repr (PStr (x ++ "m"))
  = (f <- Py.float_of_str x ;; Ok (fdiv f (of_int 1000))).
Proof.
  rewrite parse_text by (apply TextFacts.append_nonempty; discriminate).
  rewrite (TextFacts.endswith_append x "m" "m") by (simpl; lia).
  change (endswith "m" "m") with true. cbv iota.
  change 1%nat with (String.length "m").
  now rewrite (TextFacts.drop_last_append x "m").
Qed.

End Facts.

End ParserExtra.

(** X1.  For every text [x] that [float] accepts, with value [f], the
    parser returns [f * 1000] on [x ++ "K"], [f * 1000^2] on [x ++ "M"],
    [f * 1000^3] on [x ++ "G"] and [f * 1000^4] on [x ++ "T"]: the decimal
    factors, not the binary ones. *)
Theorem parse_resource_value_decimal_suffix :
  forall (repr : pyval -> string) (x : string) (f : float),
    Py.float_of_str x = Ok f ->
    parse_resource_value repr (PStr (x ++ "K")) = Ok (fmul f (of_int 1000)) /\
    parse_resource_value repr (PStr (x ++ "M")) = Ok (fmul f (of_int (1000 ^ 2))) /\
    parse_resource_value repr (PStr (x ++ "G")) = Ok (fmul f (of_int (1000 ^ 3))) /\
    parse_resource_value repr (PStr (x ++ "T")) = Ok (fmul f (of_int (1000 ^ 4))).
Proof.
  intros repr x f Hf.
  rewrite (ParserExtra.parse_decimal_letter repr x "K" 1000) by (simpl; auto).
  rewrite (ParserExtra.parse_decimal_letter repr x "M" (1000 ^ 2)) by (simpl; auto).
  rewrite (ParserExtra.parse_decimal_letter repr x "G" (1000 ^ 3)) by (simpl; auto 6).
  rewrite (ParserExtra.parse_decimal_letter repr x "T" (1000 ^ 4)) by (simpl; auto 6).
  rewrite Hf. repeat split.
Qed.

Lemma parse_resource_value_decimal_suffix_witness :
  Py.float_of_str "8" = Ok (of_int 8) /\
  parse_resource_value (fun _ => "") (PStr "8K") = Ok (of_int 8000).
Proof.
  split; [reflexivity|].
  apply (parse_resource_value_decimal_suffix (fun _ => "") "8" (of_int 8)).
  reflexivity.
Defined.

(** X2.  A text that ends in ["m"] is read as millicores whatever stands in
    front: when [float] accepts the front [x] with value [f] the result is
    [f / 1000], also when [x] itself ends in a unit suffix or has a sign or
    an exponent. *)
Theorem parse_resource_value_millicore :
  forall (repr : pyval -> string) (x : string) (f : float),
    Py.float_of_str x = Ok f ->
    parse_resource_value repr (PStr (x ++ "m")) = Ok (fdiv f (of_int 1000)).
Proof.
  intros repr x f Hf. rewrite ParserExtra.parse_millicore, Hf. reflexivity.
Qed.

Lemma parse_resource_value_millicore_witness :
  Py.float_of_str "-1e3" = Ok (of_int (-1000)) /\
  parse_resource_value (fun _ => "") (PStr "-1e3m") = Ok (of_int (-1)).
Proof.
  split; [reflexivity|].
  apply (parse_resource_value_millicore (fun _ => "") "-1e3" (of_int (-1000))).
  reflexivity.
Defined.

(** X3.  On an ASCII text, [parse_resource_value] raises exactly when the
    text ends in ["m"] and [float] rejects what stands in front; the
    exception is then [ValueError].  On every other ASCII text it returns a
    float. *)
Theorem parse_resource_value_raises_iff :
  forall (repr : pyval -> string) (s : string) (e : exn),
    ascii_text s = true ->
    (parse_resource_value repr (PStr s) = Raise e <->
     e = ValueError /\ endswith s "m" = true /\
     Py.float_of_str (drop_last 1 s) = Raise ValueError).
Proof.
  intros repr s e _. split.
  - intros H. exact (parse_raises_only_millicore repr (PStr s) e H).
  - intros [-> [Hm Hf]].
    assert (Hne : s <> "") by (intros ->; discriminate Hm).
    rewrite (ParserExtra.parse_text repr s Hne), Hm, Hf. reflexivity.
Qed.

Lemma parse_resource_value_raises_iff_witness :
  ascii_text "<unknown>m" = true /\
  parse_resource_value (fun _ => "") (PStr "<unknown>m") = Raise ValueError.
Proof.
  assert (H : ascii_text "<unknown>m" = true) by reflexivity.
  split; [exact H|].
  apply (proj2 (parse_resource_value_raises_iff (fun _ => "") "<unknown>m" ValueError H)).
  repeat split.
Defined.

(** X4.  A plain number (digits with at most one point) is returned as
    [float] reads it: the parser does not raise on it, and the value is not
    below zero. *)
Theorem parse_resource_value_plain_number :
  forall (repr : pyval -> string) (s : string),
    isdigit (remove_first_dot s) = true ->
    exists x : float,
      parse_resource_value repr (PStr s) = Ok x /\
      Py.float_of_str s = Ok x /\
      not_negative x.
Proof.
  intros repr s Hd.
  assert (Hall : forall c, In c (chars s) -> c <> "."%char -> is_digit c = true).
  { intros c Hc Hp. apply (TextFacts.isdigit_all _ c Hd).
    now apply TextFacts.In_remove_first_dot. }
  assert (Hne : s <> "") by (intros ->; discriminate Hd).
  assert (Hm : endswith s "m" = false).
  { destruct (endswith s "m") eqn:E; [|reflexivity].
    pose proof (SuffixFacts.endswith_last s "m" "m"%char E eq_refl) as Hl.
    apply SuffixFacts.last_char_In in Hl.
    specialize (Hall "m"%char Hl). discriminate Hall. discriminate. }
  destruct (PlainNumberFacts.float_of_plain_number s Hd) as [x Hx].
  exists x. rewrite (ParserExtra.parse_text repr s Hne), Hm, Hd.
  split; [exact Hx|]. split; [exact Hx|].
  apply SignFacts.sign_clear_not_negative.
  apply (SignFacts.float_of_str_sign s x); [|exact Hx].
  apply SignFacts.no_minus_iff. intros Hin.
  specialize (Hall minus Hin). discriminate Hall. discriminate.
Qed.

Lemma parse_resource_value_plain_number_witness :
  isdigit (remove_first_dot "1.5") = true /\
  exists x : float, parse_resource_value (fun _ => "") (PStr "1.5") = Ok x.
Proof.
  assert (H : isdigit (remove_first_dot "1.5") = true) by reflexivity.
  split; [exact H|].
  destruct (parse_resource_value_plain_number (fun _ => "") "1.5" H) as [x [Hx _]].
  exists x. exact Hx.
Defined.

(** X5.  An ASCII text whose last character is a digit or a point, and
    which is not a plain number, is read as 0.0: a number with a sign
    (["-1"]), with an exponent (["1e3"]) or with two points (["1.5.2"]) is
    not recognised. *)
Theorem parse_resource_value_unrecognised_number :
  forall (repr : pyval -> string) (s : string) (c : ascii),
    ascii_text s = true ->
    last_char s = Some c ->
    plain_char c = true ->
    isdigit (remove_first_dot s) = false ->
    parse_resource_value repr (PStr s) = Ok zero.
Proof.
  intros repr s c _ Hl Hc Hd.
  assert (Hne : s <> "") by (intros ->; discriminate Hl).
  assert (Hother : forall (t : string) (d : ascii),
             last_char t = Some d -> plain_char d = false -> endswith s t = false).
  { intros t d Ht Hpd. apply (SuffixFacts.endswith_other_last s t c d Hl Ht).
    intros ->. congruence. }
  rewrite (ParserExtra.parse_text repr s Hne).
  rewrite (Hother "m" "m"%char eq_refl eq_refl), Hd.
  apply ParserExtra.match_suffix_none. unfold multipliers.
  repeat constructor; simpl;
    match goal with
    | |- endswith s ?t = false =>
        let d := eval vm_compute in (last_char t) in
        match d with
        | Some ?a => exact (Hother t a eq_refl eq_refl)
        end
    end.
Qed.

Lemma parse_resource_value_unrecognised_number_witness :
  ascii_text "-1" = true /\
  last_char "-1" = Some "1"%char /\
  plain_char "1" = true /\
  isdigit (remove_first_dot "-1") = false /\
  parse_resource_value (fun _ => "") (PStr "-1") = Ok zero.
Proof.
  split; [reflexivity|].
  split; [reflexivity|]. split; [reflexivity|]. split; [reflexivity|].
  apply (parse_resource_value_unrecognised_number (fun _ => "") "-1" "1"%char);
    reflexivity.
Defined.

(** ** More on the command runner *)

Module StripFacts.

Lemma drop_while_head (p : ascii -> bool) (l : list ascii) :
  match drop_while p l with [] => True | c :: _ => p c = false end.
Proof.
  induction l as [|c l IH]; simpl; [exact I|].
  destruct (p c) eqn:E; [exact IH | exact E].
Qed.

Lemma drop_while_split (p : ascii -> bool) (l : list ascii) :
  exists a, l = (a ++ drop_while p l)%list.
Proof.
  induction l as [|c l [a IH]]; simpl; [now exists []|].
  destruct (p c); [|now exists []].
  exists (c :: a). simpl. now rewrite <- IH.
Qed.

Lemma drop_while_fixed (p : ascii -> bool) (l : list ascii) :
  match l with [] => True | c :: _ => p c = false end -> drop_while p l = l.
Proof. destruct l as [|c l]; simpl; [reflexivity | now intros ->]. Qed.

(** Stripping twice is stripping once. *)
Lemma strip_with_idempotent (p : ascii -> bool) (l : list ascii) :
  strip_with p (strip_with p l) = strip_with p l.
Proof.
  unfold strip_with.
  set (a := drop_while p l).
  set (c := drop_while p (rev a)).
  assert (Hc : match c with [] => True | x :: _ => p x = false end)
    by apply drop_while_head.
  assert (Hb : match rev c with [] => True | x :: _ => p x = false end).
  { destruct (drop_while_split p (rev a)) as [t Ht]. fold c in Ht.
    assert (Ha : a = (rev c ++ rev t)%list).
    { rewrite <- rev_app_distr, <- Ht. symmetry. apply rev_involutive. }
    pose proof (drop_while_head p l) as Hhd. fold a in Hhd.
    destruct (rev c) as [|x b]; [exact I|].
    rewrite Ha in Hhd. exact Hhd. }
  rewrite (drop_while_fixed p (rev c) Hb), rev_involutive.
  now rewrite (drop_while_fixed p c Hc).
Qed.

Lemma strip_stripped (s : string) : stripped (strip s).
Proof.
  unfold stripped, strip, chars, text.
  rewrite list_ascii_of_string_of_list_ascii.
  now rewrite strip_with_idempotent.
Qed.

End StripFacts.

(** X6.  [run_cmd] never raises and always returns a triple of two texts
    and an integer, whose first text has no surrounding whitespace.  For a
    completed process the triple holds the return code, and the stdout and
    the stderr without their surrounding whitespace, which for an ASCII
    output is [strip] of it; when the process could not be run it is the
    empty text, the message of the exception and 1. *)
Theorem run_cmd_triple :
  forall (subprocess_run : list string -> option string -> (string * string * Z) + string)
         (cmd : list string) (cwd : option string),
    exists (out err : string) (rc : Z),
      run_cmd subprocess_run cmd cwd = PTuple [PStr out; PStr err; PInt rc] /\
      stripped out /\
      (forall o e r, subprocess_run cmd cwd = inl (o, e, r) ->
                     rc = r /\ stripped err /\
                     (ascii_text o = true -> out = strip o) /\
                     (ascii_text e = true -> err = strip e)) /\
      (forall msg, subprocess_run cmd cwd = inr msg ->
                   out = "" /\ err = msg /\ rc = 1).
Proof.
  intros subprocess_run cmd cwd. unfold run_cmd.
  destruct (subprocess_run cmd cwd) as [[[o e] r] | msg].
  - exists (strip o), (strip e), r.
    split; [reflexivity|]. split; [apply StripFacts.strip_stripped|].
    split; [|discriminate].
    intros o' e' r' [= <- <- <-].
    split; [reflexivity|]. split; [apply StripFacts.strip_stripped|].
    split; intros _; reflexivity.
  - exists "", msg, 1.
    split; [reflexivity|]. split; [reflexivity|].
    split; [discriminate|].
    intros msg' [= <-]. repeat split.
Qed.

(** X7.  When no process can be started (the executor raises on every
    command), each of the four cluster actions returns the triple of the
    empty text, the message and the exit code 1; none of them raises. *)
Theorem actions_when_executor_fails :
  forall (subprocess_run : list string -> option string -> (string * string * Z) + string)
         (msg : string),
    (forall cmd cwd, subprocess_run cmd cwd = inr msg) ->
    Forall (fun v => v = PTuple [PStr ""; PStr msg; PInt 1])
      [k3d_cluster_start subprocess_run; k3d_cluster_stop subprocess_run;
       restart_microservices subprocess_run; run_ansible_lab subprocess_run].
Proof.
  intros subprocess_run msg H.
  unfold k3d_cluster_start, k3d_cluster_stop, restart_microservices,
    run_ansible_lab, run_cmd.
  rewrite !H. repeat constructor.
Qed.

Lemma actions_when_executor_fails_witness :
  (forall (cmd : list string) (cwd : option string),
      (fun _ _ => inr "k3d: command not found") cmd cwd
      = (inr "k3d: command not found" : (string * string * Z) + string)) /\
  k3d_cluster_start (fun _ _ => inr "k3d: command not found")
  = PTuple [PStr ""; PStr "k3d: command not found"; PInt 1].
Proof.
  assert (H : forall (cmd : list string) (cwd : option string),
             (fun _ _ => inr "k3d: command not found") cmd cwd
             = (inr "k3d: command not found" : (string * string * Z) + string))
    by reflexivity.
  split; [exact H|].
  pose proof (actions_when_executor_fails
                (fun _ _ => inr "k3d: command not found")
                "k3d: command not found" H) as HF.
  inversion HF as [|? ? Hstart _]. exact Hstart.
Defined.

(** X8.  [get_node_info] raises [TypeError] for every behaviour of the
    executor: the triple of [run_cmd] is not empty and is not text for
    [json.loads].  Its later step would fail as well: on the triple of the
    [kubectl top] command, which has no [splitlines], the utilization
    decoding raises [AttributeError]. *)
Theorem get_node_info_raises :
  forall (subprocess_run : list string -> option string -> (string * string * Z) + string)
         (json_parse : string -> option pyval) (repr : pyval -> string),
    get_node_info subprocess_run json_parse repr = Raise TypeError /\
    decode_metrics repr
      (run_cmd subprocess_run ["kubectl"; "top"; "nodes"; "--no-headers"] None)
    = Raise AttributeError.
Proof.
  intros subprocess_run json_parse repr. split.
  - unfold get_node_info. rewrite run_cmd_truthy. cbn [negb].
    now rewrite json_loads_run_cmd.
  - unfold decode_metrics. rewrite run_cmd_truthy.
    unfold run_cmd. destruct (subprocess_run _ _) as [[[o e] r] | msg]; reflexivity.
Qed.

(** ** More on the decoders *)

Module DecoderFacts.

Lemma get_error (obj : pyval) (key : string) (default : pyval) (e : exn) :
  Py.get obj key default = Raise e -> e = AttributeError.
Proof. destruct obj; simpl; congruence. Qed.

(** The loop body of [get_pods] builds the record of a well-formed item and
    raises [AttributeError] on any other. *)
Lemma pod_row_cases (item : pyval) :
  pod_row item = if pod_item item then Ok (pod_record item) else Raise AttributeError.
Proof.
  destruct item as [| | | | | | |d]; try reflexivity.
  unfold pod_item, pod_row, pod_record, empty_dict.
  cbn [field Py.get bind].
  destruct (Py.assoc "metadata" d) as [[| | | | | | |m]|];
    destruct (Py.assoc "spec" d) as [[| | | | | | |sp]|];
    destruct (Py.assoc "status" d) as [[| | | | | | |st]|];
    cbn [dict_or_absent andb field Py.get bind Py.assoc];
    try reflexivity;
    try (destruct (Py.assoc "labels" m) as [[| | | | | | |lb]|];
         cbn [dict_or_absent andb field Py.get bind Py.assoc]; reflexivity).
Qed.

Lemma mapM_pod_row_cases (items : list pyval) :
  mapM pod_row items
  = if forallb pod_item items then Ok (map pod_record items) else Raise AttributeError.
Proof.
  induction items as [|item l IH]; [reflexivity|].
  cbn [mapM forallb map]. rewrite pod_row_cases, IH.
  destruct (pod_item item); [|reflexivity].
  cbn [bind andb]. now destruct (forallb pod_item l).
Qed.

Lemma node_row_name (repr : pyval -> string) (item : pyval) (r : Nodes.row) :
  node_row repr item = Ok r -> Nodes.node r = field ["metadata"; "name"] item.
Proof.
  destruct item as [| | | | | | |d]; try discriminate.
  unfold node_row, empty_dict. cbn [field Py.get bind].
  destruct (Py.assoc "metadata" d) as [[| | | | | | |m]|]; cbn [Py.get bind];
    try discriminate.
  all: repeat match goal with
         | |- context [bind ?c _] =>
             destruct c as [?v|?e]; cbn [bind]; [|discriminate]
         end.
  all: intros [= <-]; reflexivity.
Qed.

End DecoderFacts.

(** X9.  On a document whose [items] entry is a list, the decoding step of
    [get_pods] raises [AttributeError] as soon as one item is not well
    formed (an item that is not an object, or whose [metadata], [labels],
    [spec] or [status] is present but not an object, for instance [null]),
    whatever the other items hold; when every item is well formed, with
    text for the microservice and the pod name, it returns the records of
    the items, none lost and none added. *)
Theorem decode_pods_well_formed_or_raises :
  forall (data : pyval) (items : list pyval),
    Py.get data "items" (PList []) = Ok (PList items) ->
    (forallb pod_item items = false -> decode_pods data = Raise AttributeError) /\
    (forallb pod_item items = true ->
     forallb text_sort_keys (map pod_record items) = true ->
     exists df : list Pods.row,
       decode_pods data = Ok df /\ Permutation (map pod_record items) df).
Proof.
  intros data items Hget. unfold decode_pods.
  rewrite Hget. cbn [bind Py.iter].
  rewrite DecoderFacts.mapM_pod_row_cases.
  split; intros ->; [reflexivity|]. intros _.
  cbn [bind]. destruct (map pod_record items) as [|r l] eqn:E.
  - exists []. split; [reflexivity | constructor].
  - exists (Pandas.sort_values pod_key_compare (r :: l)).
    split; [reflexivity | apply SortFacts.sort_perm].
Qed.

Lemma decode_pods_well_formed_or_raises_witness :
  Py.get (PDict [("items", PList [sample_pod "svcA" "web-0" "n1";
                                  PDict [("metadata", PNone)]])])
         "items" (PList [])
  = Ok (PList [sample_pod "svcA" "web-0" "n1"; PDict [("metadata", PNone)]]) /\
  forallb pod_item [sample_pod "svcA" "web-0" "n1"; PDict [("metadata", PNone)]] = false /\
  decode_pods (PDict [("items", PList [sample_pod "svcA" "web-0" "n1";
                                       PDict [("metadata", PNone)]])])
  = Raise AttributeError.
Proof.
  split; [reflexivity|]. split; [reflexivity|].
  apply (proj1 (decode_pods_well_formed_or_raises
                  (PDict [("items", PList [sample_pod "svcA" "web-0" "n1";
                                           PDict [("metadata", PNone)]])])
                  [sample_pod "svcA" "web-0" "n1"; PDict [("metadata", PNone)]]
                  eq_refl)).
  reflexivity.
Defined.

(** X10.  A document with no [items] entry, or with an empty [items] list,
    decodes to the empty frame, for pods and for nodes. *)
Theorem decoders_without_items :
  forall (repr : pyval -> string) (d : list (string * pyval)),
    Py.assoc "items" d = None \/ Py.assoc "items" d = Some (PList []) ->
    decode_pods (PDict d) = Ok [] /\ decode_nodes repr (PDict d) = Ok [].
Proof.
  intros repr d H. unfold decode_pods, decode_nodes. cbn [Py.get bind].
  destruct H as [-> | ->]; split; reflexivity.
Qed.

Lemma decoders_without_items_witness :
  (Py.assoc "items" [("kind", PStr "List")] = None \/
   Py.assoc "items" [("kind", PStr "List")] = Some (PList [])) /\
  decode_pods (PDict [("kind", PStr "List")]) = Ok [].
Proof.
  assert (H : Py.assoc "items" [("kind", PStr "List")] = None \/
              Py.assoc "items" [("kind", PStr "List")] = Some (PList []))
    by (left; reflexivity).
  split; [exact H|].
  apply (decoders_without_items (fun _ => "") [("kind", PStr "List")] H).
Defined.

(** X11.  Both decoders raise on a malformed document: [AttributeError]
    when the document is not an object (a list, a text, [null], ...), and
    [TypeError] when its [items] entry is [null], a boolean or a number. *)
Theorem decoders_on_malformed_document :
  forall (repr : pyval -> string) (data : pyval),
    (is_object data = false ->
     decode_pods data = Raise AttributeError /\
     decode_nodes repr data = Raise AttributeError) /\
    (forall d v, data = PDict d -> Py.assoc "items" d = Some v -> is_scalar v = true ->
                 decode_pods data = Raise TypeError /\
                 decode_nodes repr data = Raise TypeError).
Proof.
  intros repr data. split.
  - destruct data; try discriminate; intros _; split; reflexivity.
  - intros d v -> Hv Hs. unfold decode_pods, decode_nodes. cbn [Py.get bind].
    rewrite Hv. destruct v; try discriminate; split; reflexivity.
Qed.

Lemma decoders_on_malformed_document_witness :
  is_object (PList []) = false /\
  is_scalar PNone = true /\
  decode_pods (PList []) = Raise AttributeError /\
  decode_nodes (fun _ => "") (PDict [("items", PNone)]) = Raise TypeError.
Proof.
  split; [reflexivity|]. split; [reflexivity|]. split.
  - apply (proj1 (decoders_on_malformed_document (fun _ => "") (PList []))).
    reflexivity.
  - apply (proj2 (decoders_on_malformed_document (fun _ => "") (PDict [("items", PNone)]))
             [("items", PNone)] PNone); reflexivity.
Defined.

(** X12.  When the node decoding returns, it has one row per item, in the
    order of the listing, and the node of each row is the [metadata.name]
    of its item (the empty text when missing). *)
Theorem decode_nodes_keeps_order :
  forall (repr : pyval -> string) (data : pyval) (base_df : list Nodes.row),
    decode_nodes repr data = Ok base_df ->
    List.length base_df = List.length (listing_items data) /\
    map Nodes.node base_df = map (field ["metadata"; "name"]) (listing_items data).
Proof.
  intros repr data base_df H.
  apply NodeFacts.decode_nodes_items, NodeFacts.mapM_Forall2 in H.
  induction H as [|item r l l' Hr Hl [IH1 IH2]]; [split; reflexivity|].
  split; simpl; [now rewrite IH1|].
  now rewrite IH2, (DecoderFacts.node_row_name repr item r Hr).
Qed.

Lemma decode_nodes_keeps_order_witness :
  exists base_df : list Nodes.row,
    decode_nodes (fun _ => "") sample_node_listing = Ok base_df /\
    map Nodes.node base_df = [PStr "n1"; PStr "n2"].
Proof.
  destruct (decode_nodes (fun _ => "") sample_node_listing) as [base_df|] eqn:H;
    [|vm_compute in H; discriminate].
  exists base_df. split; [reflexivity|].
  exact (proj2 (decode_nodes_keeps_order (fun _ => "") sample_node_listing base_df H)).
Defined.

(** X13.  When the node decoding returns, the four numeric cells of the
    row of an item whose raw values are ASCII text are
    [parse_resource_value] of the raw values the item holds under
    [status.capacity] and [status.allocatable]; and for every item a raw
    value that is absent (no [status], no [capacity], no [cpu] ...) or
    [null] gives the cell 0.0. *)
Theorem decode_nodes_cells :
  forall (repr : pyval -> string) (data : pyval) (base_df : list Nodes.row),
    decode_nodes repr data = Ok base_df ->
    Forall2 (fun item r =>
               (ascii_item repr item = true -> capacity_cells_parsed repr item r) /\
               absent_cells_zero item r)
      (listing_items data) base_df.
Proof.
  intros repr data base_df H.
  apply NodeFacts.decode_nodes_items, NodeFacts.mapM_Forall2 in H.
  induction H as [|item r l l' Hr Hl IH]; constructor; [|exact IH].
  pose proof (NodeFacts.node_row_fields repr item r Hr) as [P1 [P2 [P3 P4]]].
  split; [intros _; unfold capacity_cells_parsed; auto|].
  unfold absent_cells_zero.
  repeat split; intros E;
    match goal with
    | P : parse_resource_value repr (quantity ?g ?k item) = Ok ?x |- ?x = zero =>
        rewrite E in P; simpl in P; congruence
    end.
Qed.

Lemma decode_nodes_cells_witness :
  exists r1 r2 : Nodes.row,
    decode_nodes (fun _ => "") partial_node_listing = Ok [r1; r2] /\
    Nodes.cpu_capacity_cores r2 = zero /\ Nodes.mem_alloc_bytes r2 = zero.
Proof.
  destruct (decode_nodes (fun _ => "") partial_node_listing) as [base_df|] eqn:H;
    [|vm_compute in H; discriminate].
  pose proof (decode_nodes_cells (fun _ => "") partial_node_listing base_df H) as HF.
  change (listing_items partial_node_listing)
    with [node_item "n1" "4" "8Gi"; PDict [("metadata", PDict [("name", PStr "n2")])]] in HF.
  inversion HF as [|i1 r1 l1 l1' _ HF1]; subst.
  inversion HF1 as [|i2 r2 l2 l2' [_ [Z1 [_ [_ Z4]]]] HF2]; subst.
  inversion HF2; subst.
  exists r1, r2. split; [reflexivity|].
  split; [apply Z1; reflexivity | apply Z4; reflexivity].
Defined.

(** ** More on the utilization lines *)

Module MetricFacts.

Lemma chars_text (l : list ascii) : chars (text l) = l.
Proof. apply list_ascii_of_string_of_list_ascii. Qed.

Lemma token_of_run (cur : list ascii) :
  cur <> [] -> forallb (fun c => negb (is_space c)) cur = true ->
  is_token (text (rev cur)).
Proof.
  intros Hne Hall. split.
  - intros E. apply (f_equal chars) in E. rewrite chars_text in E.
    apply (f_equal (@rev ascii)) in E. rewrite rev_involutive in E. now simpl in E.
  - rewrite chars_text. apply forallb_forall. intros c Hc.
    apply in_rev in Hc. revert c Hc. now apply forallb_forall.
Qed.

Lemma split_aux_tokens (cur l : list ascii) :
  forallb (fun c => negb (is_space c)) cur = true ->
  Forall is_token (split_aux cur l).
Proof.
  revert cur. induction l as [|c r IH]; intros cur Hcur; simpl.
  - destruct cur as [|x cur']; [constructor|].
    constructor; [|constructor]. apply token_of_run; [discriminate | exact Hcur].
  - destruct (is_space c) eqn:E.
    + destruct cur as [|x cur']; [now apply IH|].
      constructor; [|now apply IH].
      apply token_of_run; [discriminate | exact Hcur].
    + apply IH. simpl. now rewrite E, Hcur.
Qed.

(** [split] returns tokens. *)
Lemma split_tokens (s : string) : Forall is_token (split s).
Proof. now apply split_aux_tokens. Qed.

Section Rows.
Variable repr : pyval -> string.

Lemma metric_row_short (line : string) :
  (List.length (split line) < 5)%nat -> metric_row repr line = Ok None.
Proof.
  unfold metric_row.
  destruct (split line) as [|p0 [|p1 [|p2 [|p3 [|p4 rest]]]]]; simpl;
    try reflexivity; lia.
Qed.

Lemma metric_row_tokens (line : string) (r : Metrics.row) :
  metric_row repr line = Ok (Some r) ->
  (5 <= List.length (split line))%nat /\
  metric_tokens r = firstn 5 (split line).
Proof.
  unfold metric_row.
  destruct (split line) as [|p0 [|p1 [|p2 [|p3 [|p4 rest]]]]]; try discriminate.
  destruct (parse_resource_value repr (PStr p1)) as [x1|]; [|discriminate].
  cbn [bind].
  destruct (parse_resource_value repr (PStr p3)) as [x3|]; [|discriminate].
  cbn [bind]. intros [= <-]. split; [simpl; lia | reflexivity].
Qed.

Lemma metric_row_none (line : string) :
  metric_row repr line = Ok None -> (List.length (split line) < 5)%nat.
Proof.
  unfold metric_row.
  destruct (split line) as [|p0 [|p1 [|p2 [|p3 [|p4 rest]]]]];
    try (intros _; simpl; lia).
  destruct (parse_resource_value repr (PStr p1)) as [x1|]; [|discriminate].
  cbn [bind].
  destruct (parse_resource_value repr (PStr p3)) as [x3|]; discriminate.
Qed.

Lemma metric_row_raises (line : string) (e : exn) :
  metric_row repr line = Raise e ->
  e = ValueError /\
  (5 <= List.length (split line))%nat /\
  exists t, (nth_error (split line) 1 = Some t \/ nth_error (split line) 3 = Some t) /\
            bad_millicore t.
Proof.
  unfold metric_row.
  destruct (split line) as [|p0 [|p1 [|p2 [|p3 [|p4 rest]]]]]; try discriminate.
  destruct (parse_resource_value repr (PStr p1)) as [x1|e1] eqn:E1.
  - cbn [bind].
    destruct (parse_resource_value repr (PStr p3)) as [x3|e3] eqn:E3; [discriminate|].
    cbn [bind]. intros [= <-].
    destruct (parse_raises_only_millicore repr (PStr p3) e3 E3) as [-> [Hm Hf]].
    split; [reflexivity|]. split; [simpl; lia|].
    exists p3. split; [right; reflexivity | split; assumption].
  - cbn [bind]. intros [= <-].
    destruct (parse_raises_only_millicore repr (PStr p1) e1 E1) as [-> [Hm Hf]].
    split; [reflexivity|]. split; [simpl; lia|].
    exists p1. split; [left; reflexivity | split; assumption].
Qed.

Lemma metric_rows_tokens (lines : list string) (rows : list Metrics.row) :
  metric_rows_of repr lines = Ok rows ->
  map metric_tokens rows
  = map (firstn 5)
      (filter (fun tokens => (5 <=? List.length tokens)%nat) (map split lines)).
Proof.
  revert rows. induction lines as [|line rest IH]; intros rows;
    cbn [metric_rows_of map filter].
  - intros [= <-]. reflexivity.
  - destruct (metric_row repr line) as [o|] eqn:E; [|discriminate]. cbn [bind].
    destruct (metric_rows_of repr rest) as [rs|]; [|discriminate]. cbn [bind].
    intros [= <-]. specialize (IH rs eq_refl).
    destruct o as [r|].
    + destruct (metric_row_tokens line r E) as [Hlen Htok].
      apply Nat.leb_le in Hlen. rewrite Hlen. cbn [map]. now rewrite Htok, IH.
    + apply metric_row_none in E.
      assert (Hlt : (5 <=? List.length (split line))%nat = false)
        by (apply Nat.leb_gt; lia).
      now rewrite Hlt.
Qed.

Lemma metric_rows_none (lines : list string) :
  filter (fun tokens => (5 <=? List.length tokens)%nat) (map split lines) = [] ->
  metric_rows_of repr lines = Ok [].
Proof.
  induction lines as [|line rest IH]; cbn [metric_rows_of map filter]; [reflexivity|].
  destruct (5 <=? List.length (split line))%nat eqn:E; [discriminate|].
  intros H. apply Nat.leb_gt in E.
  rewrite (metric_row_short line E), (IH H). reflexivity.
Qed.

Lemma metric_rows_raise (lines : list string) (e : exn) :
  metric_rows_of repr lines = Raise e ->
  e = ValueError /\
  exists tokens t,
    In tokens (filter (fun tokens => (5 <=? List.length tokens)%nat) (map split lines)) /\
    (nth_error tokens 1 = Some t \/ nth_error tokens 3 = Some t) /\
    bad_millicore t.
Proof.
  induction lines as [|line rest IH]; cbn [metric_rows_of map filter]; [discriminate|].
  destruct (metric_row repr line) as [o|e'] eqn:E; cbn [bind].
  - destruct (metric_rows_of repr rest) as [rs|e'']; cbn [bind]; [discriminate|].
    intros [= <-]. destruct (IH eq_refl) as [-> [tokens [t [Hin H]]]].
    split; [reflexivity|]. exists tokens, t. split; [|exact H].
    destruct (5 <=? List.length (split line))%nat; [now right | exact Hin].
  - intros [= <-]. destruct (metric_row_raises line e' E) as [-> [Hlen [t H]]].
    split; [reflexivity|]. exists (split line), t. split; [|exact H].
    apply Nat.leb_le in Hlen. rewrite Hlen. now left.
Qed.

Lemma decode_metrics_text (top_out : string) :
  decode_metrics repr (PStr top_out) = metric_rows_of repr (Text.splitlines top_out).
Proof.
  unfold decode_metrics. destruct top_out as [|c s]; reflexivity.
Qed.

End Rows.

End MetricFacts.

(** X14.  When the utilization decoding of an ASCII output returns, its
    rows are the lines of five tokens or more, in their order: a line with
    fewer tokens gives no row, and a row keeps the first five tokens of its
    line as they are (node, cpu, cpu percent, memory, memory percent), any
    further token being ignored. *)
Theorem decode_metrics_rows :
  forall (repr : pyval -> string) (top_out : string) (metrics_df : list Metrics.row),
    ascii_text top_out = true ->
    decode_metrics repr (PStr top_out) = Ok metrics_df ->
    map metric_tokens metrics_df = map (firstn 5) (metric_lines top_out).
Proof.
  intros repr top_out metrics_df _ H.
  rewrite MetricFacts.decode_metrics_text in H.
  now apply MetricFacts.metric_rows_tokens in H.
Qed.

Lemma decode_metrics_rows_witness :
  exists metrics_df : list Metrics.row,
    decode_metrics (fun _ => "") sample_top_out = Ok metrics_df /\
    map metric_tokens metrics_df = [["n1"; "250m"; "6%"; "1024Mi"; "13%"]].
Proof.
  destruct (decode_metrics (fun _ => "") sample_top_out) as [metrics_df|] eqn:H;
    [|vm_compute in H; discriminate].
  exists metrics_df. split; [reflexivity|].
  exact (decode_metrics_rows (fun _ => "") "n1 250m 6% 1024Mi 13%" metrics_df
           eq_refl H).
Defined.

(** X15.  An ASCII output in which no line has five tokens, the empty
    output included, decodes to the empty frame and does not raise. *)
Theorem decode_metrics_no_rows :
  forall (repr : pyval -> string) (top_out : string),
    ascii_text top_out = true ->
    metric_lines top_out = [] ->
    decode_metrics repr (PStr top_out) = Ok [].
Proof.
  intros repr top_out _ H. rewrite MetricFacts.decode_metrics_text.
  now apply MetricFacts.metric_rows_none.
Qed.

Lemma decode_metrics_no_rows_witness :
  ascii_text "No resources found" = true /\
  metric_lines "No resources found" = [] /\
  decode_metrics (fun _ => "") (PStr "No resources found") = Ok [].
Proof.
  assert (Ha : ascii_text "No resources found" = true) by reflexivity.
  assert (H : metric_lines "No resources found" = []) by reflexivity.
  split; [exact Ha|]. split; [exact H|].
  apply (decode_metrics_no_rows (fun _ => "") "No resources found" Ha H).
Defined.

(** X16.  The utilization decoding of an ASCII text raises only
    [ValueError], and only when some line of five tokens or more has, as its
    second or fourth token, a text that ends in ["m"] and whose front
    [float] rejects. *)
Theorem decode_metrics_raises_only :
  forall (repr : pyval -> string) (top_out : string) (e : exn),
    ascii_text top_out = true ->
    decode_metrics repr (PStr top_out) = Raise e ->
    e = ValueError /\
    exists tokens t,
      In tokens (metric_lines top_out) /\
      (nth_error tokens 1 = Some t \/ nth_error tokens 3 = Some t) /\
      bad_millicore t.
Proof.
  intros repr top_out e _ H. rewrite MetricFacts.decode_metrics_text in H.
  now apply MetricFacts.metric_rows_raise in H.
Qed.

Lemma decode_metrics_raises_only_witness :
  decode_metrics (fun _ => "") (PStr "n1 <unknown>m 0% 1Mi 1%") = Raise ValueError /\
  exists tokens t,
    In tokens (metric_lines "n1 <unknown>m 0% 1Mi 1%") /\
    (nth_error tokens 1 = Some t \/ nth_error tokens 3 = Some t) /\
    bad_millicore t.
Proof.
  assert (H : decode_metrics (fun _ => "") (PStr "n1 <unknown>m 0% 1Mi 1%")
              = Raise ValueError) by reflexivity.
  split; [exact H|].
  exact (proj2 (decode_metrics_raises_only (fun _ => "") "n1 <unknown>m 0% 1Mi 1%"
                  ValueError eq_refl H)).
Defined.

(** X17.  In every utilization row the node name and the four other texts
    are tokens: not empty, with no whitespace in them. *)
Theorem decode_metrics_tokens :
  forall (repr : pyval -> string) (top_out : string) (metrics_df : list Metrics.row),
    decode_metrics repr (PStr top_out) = Ok metrics_df ->
    Forall (fun r => Forall is_token (metric_tokens r)) metrics_df.
Proof.
  intros repr top_out metrics_df H.
  rewrite MetricFacts.decode_metrics_text in H.
  revert metrics_df H.
  induction (Text.splitlines top_out) as [|line rest IH]; intros metrics_df;
    cbn [metric_rows_of].
  - intros [= <-]. constructor.
  - destruct (metric_row repr line) as [o|] eqn:E; [|discriminate]. cbn [bind].
    destruct (metric_rows_of repr rest) as [rs|]; [|discriminate]. cbn [bind].
    intros [= <-]. specialize (IH rs eq_refl).
    destruct o as [r|]; [|exact IH].
    constructor; [|exact IH].
    destruct (MetricFacts.metric_row_tokens repr line r E) as [_ ->].
    apply Forall_forall. intros t Ht.
    apply (proj1 (Forall_forall _ _) (MetricFacts.split_tokens line)).
    revert Ht. generalize (split line). intros l.
    intros Ht. rewrite <- (firstn_skipn 5 l). apply in_or_app. now left.
Qed.

Lemma decode_metrics_tokens_witness :
  exists metrics_df : list Metrics.row,
    decode_metrics (fun _ => "") sample_top_out = Ok metrics_df /\
    Forall (fun r => Forall is_token (metric_tokens r)) metrics_df.
Proof.
  destruct (decode_metrics (fun _ => "") sample_top_out) as [metrics_df|] eqn:H;
    [|vm_compute in H; discriminate].
  exists metrics_df. split; [reflexivity|].
  exact (decode_metrics_tokens (fun _ => "") "n1 250m 6% 1024Mi 13%" metrics_df H).
Defined.

(** ** More on the node view *)

Module JoinFacts.

Lemma in_merge_rows (base_df : list Nodes.row) (metrics_df : list Metrics.row)
      (r : Merged.row) :
  In r (Merged.rows (merge_left base_df metrics_df)) <->
  In (Merged.base r) base_df /\
  match Merged.metrics r with
  | Some m => In m metrics_df /\ on_node (Merged.base r) m = true
  | None => forall m, In m metrics_df -> on_node (Merged.base r) m = false
  end.
Proof.
  unfold merge_left. cbn [Merged.rows]. rewrite in_flat_map. split.
  - intros [b [Hb Hr]].
    destruct (filter (on_node b) metrics_df) as [|m0 ms] eqn:E.
    + destruct Hr as [<- | []]. cbn [Merged.base Merged.metrics].
      split; [exact Hb|]. intros m Hm.
      destruct (on_node b m) eqn:Em; [|reflexivity].
      assert (Hin : In m (filter (on_node b) metrics_df))
        by (apply filter_In; split; assumption).
      rewrite E in Hin. destruct Hin.
    + rewrite <- E in Hr. apply in_map_iff in Hr.
      destruct Hr as [m [<- Hm]]. cbn [Merged.base Merged.metrics].
      apply filter_In in Hm. split; [exact Hb | exact Hm].
  - intros [Hb Hm]. exists (Merged.base r). split; [exact Hb|].
    destruct r as [b o]. cbn [Merged.base Merged.metrics] in *.
    destruct o as [m|].
    + destruct Hm as [Hin Hon].
      assert (Hf : In m (filter (on_node b) metrics_df))
        by (apply filter_In; split; assumption).
      destruct (filter (on_node b) metrics_df) as [|m0 ms] eqn:E; [destruct Hf|].
      rewrite <- E. apply in_map_iff. exists m. split; [reflexivity|].
      rewrite E. exact Hf.
    + destruct (filter (on_node b) metrics_df) as [|m0 ms] eqn:E; [now left|].
      exfalso.
      assert (Hf : In m0 (filter (on_node b) metrics_df)) by (rewrite E; now left).
      apply filter_In in Hf. destruct Hf as [Hin Hon].
      rewrite (Hm m0 Hin) in Hon. discriminate.
Qed.

Lemma in_base_rows (base_df : list Nodes.row) (r : Merged.row) :
  In r (Merged.rows (base_frame base_df)) <->
  In (Merged.base r) base_df /\ Merged.metrics r = None.
Proof.
  unfold base_frame. cbn [Merged.rows]. rewrite in_map_iff. split.
  - intros [b [<- Hb]]. split; [exact Hb | reflexivity].
  - intros [Hb Hm]. exists (Merged.base r). split; [|exact Hb].
    destruct r as [b o]. cbn in *. now subst o.
Qed.

End JoinFacts.

(** X18.  For capacity rows with text node names, the node view is the
    left join on the node name: a row with utilization cells pairs a
    capacity row with a utilization row of the same node name, and every
    such pair is a row; a row without utilization cells is a capacity row
    that no utilization row matches, and every such capacity row is a row.
    A node that occurs only in the utilization rows is in no row. *)
Theorem build_node_view_is_left_join :
  forall (base_df : list Nodes.row) (metrics_df : list Metrics.row)
         (b : Nodes.row),
    forallb text_node base_df = true ->
    (forall m : Metrics.row,
        In {| Merged.base := b; Merged.metrics := Some m |}
           (Merged.rows (build_node_view base_df metrics_df)) <->
        In b base_df /\ In m metrics_df /\ Nodes.node b = PStr (Metrics.node m)) /\
    (In {| Merged.base := b; Merged.metrics := None |}
        (Merged.rows (build_node_view base_df metrics_df)) <->
     In b base_df /\
     forall m, In m metrics_df -> Nodes.node b <> PStr (Metrics.node m)).
Proof.
  intros base_df metrics_df b _.
  assert (Hon : forall m, on_node b m = true <-> Nodes.node b = PStr (Metrics.node m)).
  { intros m. unfold on_node. destruct (Nodes.node b); try (split; discriminate).
    rewrite String.eqb_eq. split; [now intros -> | now intros [= ->]]. }
  assert (Hoff : forall m, on_node b m = false <-> Nodes.node b <> PStr (Metrics.node m)).
  { intros m. rewrite <- Hon. destruct (on_node b m); split; congruence. }
  unfold build_node_view.
  destruct base_df as [|b0 l].
  - cbn [empty negb andb]. split; [intros m|]; rewrite JoinFacts.in_base_rows;
      simpl; tauto.
  - destruct metrics_df as [|m0 ms]; cbn [empty negb andb].
    + split; [intros m|]; rewrite JoinFacts.in_base_rows;
        cbn [Merged.base Merged.metrics].
      * split; [intros [_ H]; discriminate | intros [_ [[] _]]].
      * split; [intros [H _]; split; [exact H | intros m []] | intros [H _]; now split].
    + split; [intros m|]; rewrite JoinFacts.in_merge_rows;
        cbn [Merged.base Merged.metrics].
      * rewrite Hon. tauto.
      * split; intros [H1 H2]; (split; [exact H1|]); intros m Hm;
          apply Hoff; now apply H2.
Qed.

Lemma build_node_view_is_left_join_witness :
  forallb text_node [capacity_n1] = true /\
  In {| Merged.base := capacity_n1; Merged.metrics := Some utilization_n1 |}
     (Merged.rows (build_node_view [capacity_n1] [utilization_n9; utilization_n1])) /\
  ~ In {| Merged.base := capacity_n1; Merged.metrics := Some utilization_n9 |}
       (Merged.rows (build_node_view [capacity_n1] [utilization_n9; utilization_n1])).
Proof.
  assert (Ht : forallb text_node [capacity_n1] = true) by reflexivity.
  split; [exact Ht|]. split.
  - apply (proj1 (build_node_view_is_left_join [capacity_n1]
                    [utilization_n9; utilization_n1] capacity_n1 Ht) utilization_n1).
    split; [now left|]. split; [right; now left | reflexivity].
  - intros H.
    apply (proj1 (build_node_view_is_left_join [capacity_n1]
                    [utilization_n9; utilization_n1] capacity_n1 Ht) utilization_n9) in H.
    destruct H as [_ [_ H]]. discriminate H.
Defined.

(** X19.  For capacity rows with text node names, the number of rows of the
    node view is the sum, over the capacity rows, of the number of
    utilization rows that carry the node name of the row, counted as one
    when there is none. *)
Theorem build_node_view_row_count :
  forall (base_df : list Nodes.row) (metrics_df : list Metrics.row),
    forallb text_node base_df = true ->
    List.length (Merged.rows (build_node_view base_df metrics_df))
    = list_sum
        (map (fun b => Nat.max 1 (utilization_count (node_name b) metrics_df))
             base_df).
Proof.
  intros base_df metrics_df Ht.
  rewrite <- (length_map Merged.base).
  change (map Merged.base (Merged.rows (build_node_view base_df metrics_df)))
    with (capacity_rows (build_node_view base_df metrics_df)).
  rewrite NodeViewFacts.build_node_view_rows, NodeViewFacts.copies_length.
  f_equal. apply map_ext_in. intros b Hb.
  assert (Hn : text_node b = true) by (revert b Hb; now apply forallb_forall).
  unfold text_node in Hn. unfold copies, node_name.
  destruct (Nodes.node b) as [| | | |name| | |] eqn:E; try discriminate.
  now rewrite (NodeViewFacts.matches_count b name metrics_df E).
Qed.

Lemma build_node_view_row_count_witness :
  forallb text_node [capacity_n1] = true /\
  List.length
    (Merged.rows (build_node_view [capacity_n1]
                    [utilization_n1; utilization_n9; utilization_n1]))
  = 2%nat.
Proof.
  assert (Ht : forallb text_node [capacity_n1] = true) by reflexivity.
  split; [exact Ht|].
  exact (build_node_view_row_count [capacity_n1]
           [utilization_n1; utilization_n9; utilization_n1] Ht).
Defined.

(** X20.  For capacity rows with text node names, the node view has the
    utilization columns (the ones [main] tests with
    ["mem_used_bytes" in display_df.columns]) exactly when neither frame is
    empty, and the capacity columns exactly when there is a capacity
    row. *)
Theorem build_node_view_columns :
  forall (base_df : list Nodes.row) (metrics_df : list Metrics.row) (name : string),
    forallb text_node base_df = true ->
    (In name (tl Metrics.columns) ->
     (has_column (build_node_view base_df metrics_df) name <->
      base_df <> [] /\ metrics_df <> [])) /\
    (In name Nodes.columns ->
     (has_column (build_node_view base_df metrics_df) name <-> base_df <> [])).
Proof.
  intros base_df metrics_df name _. unfold build_node_view, has_column.
  split; intros Hname.
  - destruct base_df as [|b l]; [simpl; split; [tauto | intros [H _]; congruence]|].
    destruct metrics_df as [|m ms]; cbn [empty negb andb].
    + split; [|intros [_ H]; congruence].
      intros H. exfalso.
      exact (NodeViewFacts.base_frame_columns (b :: l) name Hname H).
    + split; [intros _; split; discriminate|].
      intros _. unfold merge_left. cbn [Merged.columns].
      apply in_or_app. now right.
  - destruct base_df as [|b l]; [simpl; split; [tauto | congruence]|].
    split; [intros _; discriminate|]. intros _.
    destruct metrics_df as [|m ms]; cbn [empty negb andb].
    + exact Hname.
    + unfold merge_left. cbn [Merged.columns]. apply in_or_app. now left.
Qed.

Lemma build_node_view_columns_witness :
  forallb text_node [capacity_n1] = true /\
  In "mem_used_bytes" (tl Metrics.columns) /\
  has_column (build_node_view [capacity_n1] [utilization_n1]) "mem_used_bytes" /\
  ~ has_column (build_node_view [capacity_n1] []) "mem_used_bytes".
Proof.
  assert (Ht : forallb text_node [capacity_n1] = true) by reflexivity.
  assert (H : In "mem_used_bytes" (tl Metrics.columns)) by (simpl; auto 8).
  split; [exact Ht|]. split; [exact H|]. split.
  - apply (proj1 (build_node_view_columns [capacity_n1] [utilization_n1]
                    "mem_used_bytes" Ht) H).
    split; discriminate.
  - intros Hc.
    apply (proj1 (build_node_view_columns [capacity_n1] [] "mem_used_bytes" Ht) H) in Hc.
    destruct Hc as [_ Hc]. now apply Hc.
Defined.

(** ** More on the group tables *)

Module GroupExtra.

Section Facts.
Context {K : Type} (compare : K -> K -> comparison) (eqb : K -> K -> bool).
Hypothesis order : total_preorder compare.
Hypothesis compare_eq : forall a b, compare a b = Eq <-> a = b.
Hypothesis eqb_eq : forall a b, eqb a b = true <-> a = b.

Local Abbreviation lt := (lt_by compare).

Lemma bump_total (k : K) (acc : list (K * nat)) :
  list_sum (map snd (Pandas.bump compare k acc)) = S (list_sum (map snd acc)).
Proof.
  induction acc as [|[k0 n] r IH]; [reflexivity|].
  cbn [Pandas.bump]. destruct (compare k k0); simpl in *; lia.
Qed.

Lemma group_sizes_total (keys : list K) :
  list_sum (map snd (Pandas.group_sizes compare keys)) = List.length keys.
Proof.
  induction keys as [|k l IH]; [reflexivity|].
  cbn [Pandas.group_sizes fold_right]. fold (Pandas.group_sizes compare l).
  rewrite bump_total, IH. reflexivity.
Qed.

Lemma bump_positive (k : K) (acc : list (K * nat)) :
  Forall (fun p => (1 <= snd p)%nat) acc ->
  Forall (fun p => (1 <= snd p)%nat) (Pandas.bump compare k acc).
Proof.
  induction 1 as [|[k0 n] r Hn Hr IH]; cbn [Pandas.bump].
  - repeat constructor.
  - destruct (compare k k0).
    + constructor; [simpl; lia | exact Hr].
    + constructor; [simpl; lia|]. now constructor.
    + constructor; [exact Hn | exact IH].
Qed.

Lemma group_sizes_positive (keys : list K) :
  Forall (fun p => (1 <= snd p)%nat) (Pandas.group_sizes compare keys).
Proof.
  induction keys as [|k l IH]; [constructor|].
  cbn [Pandas.group_sizes fold_right]. now apply bump_positive.
Qed.

(** Two tables in key order that give every key the same value are the
    same table. *)
Lemma sorted_table_ext (l1 l2 : list (K * nat)) :
  StronglySorted lt (map fst l1) -> StronglySorted lt (map fst l2) ->
  (forall k, Pandas.lookup eqb k l1 = Pandas.lookup eqb k l2) ->
  l1 = l2.
Proof.
  revert l2. induction l1 as [|[k1 n1] t1 IH]; intros l2 S1 S2 H.
  - destruct l2 as [|[k2 n2] t2]; [reflexivity|].
    specialize (H k2). cbn [Pandas.lookup] in H.
    rewrite (GroupFacts.eqb_refl eqb eqb_eq k2) in H. discriminate.
  - destruct l2 as [|[k2 n2] t2].
    + specialize (H k1). cbn [Pandas.lookup] in H.
      rewrite (GroupFacts.eqb_refl eqb eqb_eq k1) in H. discriminate.
    + cbn [map fst] in S1, S2.
      inversion S1 as [|? ? S1' F1]; subst.
      inversion S2 as [|? ? S2' F2]; subst.
      assert (N1 : ~ In k1 (map fst t1)).
      { intros Hin. apply (GroupFacts.lt_neq compare compare_eq k1 k1); [|reflexivity].
        exact (proj1 (Forall_forall _ _) F1 k1 Hin). }
      assert (N2 : ~ In k2 (map fst t2)).
      { intros Hin. apply (GroupFacts.lt_neq compare compare_eq k2 k2); [|reflexivity].
        exact (proj1 (Forall_forall _ _) F2 k2 Hin). }
      destruct (compare k1 k2) eqn:E.
      * apply compare_eq in E. subst k2.
        pose proof (H k1) as H1. cbn [Pandas.lookup] in H1.
        rewrite (GroupFacts.eqb_refl eqb eqb_eq k1) in H1. injection H1 as ->.
        f_equal. apply IH; [assumption | assumption|].
        intros k. destruct (eqb k k1) eqn:Ek.
        -- apply eqb_eq in Ek. subst k.
           now rewrite !(GroupFacts.lookup_absent eqb eqb_eq).
        -- specialize (H k). cbn [Pandas.lookup] in H. now rewrite Ek in H.
      * exfalso. specialize (H k1). cbn [Pandas.lookup] in H.
        rewrite (GroupFacts.eqb_refl eqb eqb_eq k1) in H.
        rewrite (GroupFacts.eqb_neq eqb eqb_eq k1 k2) in H
          by (now apply (GroupFacts.lt_neq compare compare_eq)).
        rewrite (GroupFacts.lookup_absent eqb eqb_eq) in H; [discriminate|].
        intros Hin. apply (GroupFacts.lt_neq compare compare_eq k1 k1); [|reflexivity].
        apply (GroupFacts.lt_trans compare order k1 k2 k1 E).
        exact (proj1 (Forall_forall _ _) F2 k1 Hin).
      * exfalso. apply (OrderFacts.gt_lt compare order) in E.
        specialize (H k2). cbn [Pandas.lookup] in H.
        rewrite (GroupFacts.eqb_refl eqb eqb_eq k2) in H.
        rewrite (GroupFacts.eqb_neq eqb eqb_eq k2 k1) in H
          by (now apply (GroupFacts.lt_neq compare compare_eq)).
        rewrite (GroupFacts.lookup_absent eqb eqb_eq) in H; [discriminate|].
        intros Hin. apply (GroupFacts.lt_neq compare compare_eq k2 k2); [|reflexivity].
        apply (GroupFacts.lt_trans compare order k2 k1 k2 E).
        exact (proj1 (Forall_forall _ _) F1 k2 Hin).
Qed.


Lemma lookup_group_sizes (keys : list K) (k : K) :
  Pandas.lookup eqb k (Pandas.group_sizes compare keys)
  = if existsb (eqb k) keys
    then Some (List.length (filter (eqb k) keys))
    else None.
Proof.
  destruct (existsb (eqb k) keys) eqn:E.
  - apply (GroupFacts.group_sizes_lookup compare eqb order compare_eq eqb_eq).
    apply existsb_exists in E. destruct E as [k' [Hin Hk]].
    apply eqb_eq in Hk. now subst k'.
  - apply (GroupFacts.lookup_absent eqb eqb_eq).
    rewrite (GroupFacts.group_sizes_keys compare compare_eq).
    intros Hin.
    assert (E' : existsb (eqb k) keys = true).
    { apply existsb_exists. exists k. split; [exact Hin|].
      apply (GroupFacts.eqb_refl eqb eqb_eq). }
    congruence.
Qed.


End Facts.


Lemma keys_of_all {K : Type} (key : Pods.row -> option K) (l : list Pods.row) :
  (forall r, In r l -> key r <> None) ->
  List.length (keys_of key l) = List.length l.
Proof.
  induction l as [|r t IH]; intros H; [reflexivity|].
  cbn [keys_of]. destruct (key r) eqn:E.
  - simpl. f_equal. apply IH. intros r' Hr'. apply H. now right.
  - exfalso. apply (H r); [now left | exact E].
Qed.

Lemma keys_of_str_length (pods_df : list Pods.row) :
  forallb has_str_keys pods_df = true ->
  List.length (keys_of node_microservice pods_df) = List.length pods_df /\
  List.length (keys_of (fun r => Pandas.str_key (Pods.node r)) pods_df)
  = List.length pods_df.
Proof.
  intros H.
  split; apply keys_of_all; intros r Hr;
    destruct (PivotTable.keys_str pods_df H r Hr) as [n [m [Hn [Hm Hk]]]].
  - rewrite Hk. discriminate.
  - rewrite Hn. discriminate.
Qed.

(** The counts of the nodes add up to the number of pods, when the labels
    name every node once. *)
Lemma node_sum (idx : list string) (pods_df : list Pods.row) :
  NoDup idx ->
  (forall r, In r pods_df -> exists n, Pods.node r = PStr n /\ In n idx) ->
  list_sum (map (fun n => pods_on n pods_df) idx) = List.length pods_df.
Proof.
  intros Hnd. unfold pods_on.
  induction pods_df as [|r t IH]; intros Hcov.
  - simpl. apply PivotFacts.list_sum_zero.
  - assert (IH' := IH (fun r' Hr' => Hcov r' (or_intror Hr'))). clear IH.
    destruct (Hcov r (or_introl eq_refl)) as [n [Hn Hin]].
    cbn [filter]. rewrite Hn. cbn [cell_is].
    rewrite (map_ext _ (fun c => ((if String.eqb n c then 1 else 0)
               + List.length (filter (fun r0 => cell_is c (Pods.node r0)) t))%nat)).
    + rewrite PivotFacts.list_sum_add, IH', (PivotFacts.list_sum_indicator n idx Hnd Hin).
      reflexivity.
    + intros c. rewrite (String.eqb_sym c n). now destruct (String.eqb n c).
Qed.

End GroupExtra.

(** X21.  [pivot] returns a table for every frame of pod records with text
    for node and microservice (the pairs that [groupby] hands to it are
    distinct, so it never raises on a duplicate entry), and the table is
    rectangular: one row of cells per row label and one cell per column
    label in every row. *)
Theorem pivot_rectangular :
  forall pods_df : list Pods.row,
    forallb has_str_keys pods_df = true ->
    exists t : Pivot.frame, pivot pods_df = Ok t /\ rectangular t.
Proof.
  intros pods_df _. exists (counts_table pods_df).
  split; [apply PivotTable.pivot_table|].
  unfold rectangular, counts_table. cbn [Pivot.values Pivot.index Pivot.columns].
  split; [apply length_map|].
  apply Forall_forall. intros row Hrow.
  apply in_map_iff in Hrow. destruct Hrow as [i [<- _]]. apply length_map.
Qed.

Lemma pivot_rectangular_witness :
  forallb has_str_keys sample_pods_df = true /\
  exists t : Pivot.frame, pivot sample_pods_df = Ok t /\ rectangular t.
Proof.
  assert (H : forallb has_str_keys sample_pods_df = true) by reflexivity.
  split; [exact H|].
  exact (pivot_rectangular sample_pods_df H).
Defined.

(** X22.  For pod records with text for node and microservice, the row
    labels and the column labels of the pivot, and the nodes of
    [pods_per_node], are in strictly ascending code-point order. *)
Theorem pivot_labels_ascending :
  forall pods_df : list Pods.row,
    forallb has_str_keys pods_df = true ->
    exists t : Pivot.frame,
      pivot pods_df = Ok t /\
      ascending (Pivot.index t) /\
      ascending (Pivot.columns t) /\
      ascending (map fst (pods_per_node pods_df)).
Proof.
  intros pods_df _. exists (counts_table pods_df).
  split; [apply PivotTable.pivot_table|].
  unfold ascending, counts_table, pods_per_node, Pandas.unique_sorted.
  cbn [Pivot.index Pivot.columns].
  repeat split;
    apply (GroupFacts.group_sizes_sorted _ OrderFacts.string_order
             OrderFacts.string_compare_eq).
Qed.

Lemma pivot_labels_ascending_witness :
  forallb has_str_keys sample_pods_df = true /\
  ascending (map fst (pods_per_node sample_pods_df)).
Proof.
  assert (H : forallb has_str_keys sample_pods_df = true) by reflexivity.
  split; [exact H|].
  destruct (pivot_labels_ascending sample_pods_df H) as [t [_ [_ [_ Ha]]]].
  exact Ha.
Defined.

(** X23.  Every count that [groupby(...).size()] records is at least one: a
    node listed in [pods_per_node] has a pod, and a (node, microservice)
    pair listed in [ms_node_df] has a pod. *)
Theorem group_counts_positive :
  forall pods_df : list Pods.row,
    Forall (fun p => (1 <= snd p)%nat) (pods_per_node pods_df) /\
    Forall (fun p => (1 <= snd p)%nat) (ms_node_df pods_df).
Proof.
  intros pods_df. split; apply GroupExtra.group_sizes_positive.
Qed.

(** X24.  For pod records with text for node and microservice, no pod is
    lost or counted twice: the counts of [pods_per_node] add up to the number
    of pod records, and so do the counts of [ms_node_df] and the cells of the
    pivot. *)
Theorem group_counts_total :
  forall pods_df : list Pods.row,
    forallb has_str_keys pods_df = true ->
    list_sum (map snd (pods_per_node pods_df)) = List.length pods_df /\
    list_sum (map snd (ms_node_df pods_df)) = List.length pods_df /\
    exists t : Pivot.frame,
      pivot pods_df = Ok t /\ grand_total t = List.length pods_df.
Proof.
  intros pods_df Hstr.
  destruct (GroupExtra.keys_of_str_length pods_df Hstr) as [L2 L1].
  split; [unfold pods_per_node; now rewrite GroupExtra.group_sizes_total|].
  split; [unfold ms_node_df; now rewrite GroupExtra.group_sizes_total|].
  exists (counts_table pods_df).
  split; [apply PivotTable.pivot_table|].
  unfold grand_total, counts_table. cbn [Pivot.values].
  rewrite map_map.
  rewrite (map_ext_in _ (fun n => pods_on n pods_df)).
  - apply GroupExtra.node_sum; [apply PivotTable.index_NoDup|].
    intros r Hr. destruct (PivotTable.keys_str pods_df Hstr r Hr) as [n [m [Hn _]]].
    exists n. split; [exact Hn|].
    apply (PivotTable.index_observed pods_df Hstr). eauto.
  - intros n Hn.
    rewrite (map_ext _ (fun c => pods_on_of n c pods_df))
      by (intros c; apply PivotTable.size_count).
    apply PivotFacts.row_sum; [apply PivotTable.columns_NoDup|].
    intros r Hr. destruct (PivotTable.keys_str pods_df Hstr r Hr) as [n' [m [_ [Hm _]]]].
    exists m. split; [exact Hm|].
    apply (PivotTable.columns_observed pods_df Hstr). eauto.
Qed.

Lemma group_counts_total_witness :
  forallb has_str_keys sample_pods_df = true /\
  list_sum (map snd (pods_per_node sample_pods_df)) = 4%nat.
Proof.
  assert (H : forallb has_str_keys sample_pods_df = true) by reflexivity.
  split; [exact H|].
  exact (proj1 (group_counts_total sample_pods_df H)).
Defined.



(** X26.  A pod listing of well-formed items with text for the
    microservice and the pod name, whose records are already in ascending
    order of (microservice, pod name), is decoded to its records in the
    order of the listing: the sort moves nothing. *)
Theorem decode_pods_sorted_listing :
  forall (data : pyval) (items : list pyval),
    Py.get data "items" (PList []) = Ok (PList items) ->
    forallb pod_item items = true ->
    forallb text_sort_keys (map pod_record items) = true ->
    StronglySorted by_microservice_then_pod (map pod_record items) ->
    decode_pods data = Ok (map pod_record items).
Proof.
  intros data items Hget Hitems Htext Hs.
  rewrite (PodFacts.decode_pods_sort data items Hget Hitems). f_equal.
  assert (Hs' : StronglySorted pod_key_le (map pod_record items)).
  { apply (PodFacts.sorted_agree by_microservice_then_pod); [|exact Hs].
    intros a b Ha Hb. apply PodFacts.pod_key_le_text.
    - revert a Ha. now apply forallb_forall.
    - revert b Hb. now apply forallb_forall. }
  clear Hs Htext. induction Hs' as [|r t Ht IH Hr]; [reflexivity|].
  cbn [Pandas.sort_values]. rewrite IH.
  destruct t as [|y t']; [reflexivity|].
  cbn [Pandas.insert].
  assert (Hy : pod_key_le r y) by (inversion Hr; assumption).
  unfold pod_key_le, le_by in Hy. unfold Pandas.leb.
  destruct (pod_key_compare r y); congruence.
Qed.

Lemma decode_pods_sorted_listing_witness :
  Py.get sorted_pod_listing "items" (PList []) = Ok (PList sorted_pod_items) /\
  forallb pod_item sorted_pod_items = true /\
  forallb text_sort_keys (map pod_record sorted_pod_items) = true /\
  StronglySorted by_microservice_then_pod (map pod_record sorted_pod_items) /\
  decode_pods sorted_pod_listing = Ok (map pod_record sorted_pod_items).
Proof.
  assert (H1 : Py.get sorted_pod_listing "items" (PList []) = Ok (PList sorted_pod_items))
    by reflexivity.
  assert (H2 : forallb pod_item sorted_pod_items = true) by reflexivity.
  assert (H3 : forallb text_sort_keys (map pod_record sorted_pod_items) = true)
    by reflexivity.
  assert (H4 : StronglySorted by_microservice_then_pod (map pod_record sorted_pod_items)).
  { apply (PodFacts.sorted_agree pod_key_le).
    - intros a b Ha Hb. apply PodFacts.pod_key_le_text.
      + revert a Ha. now apply forallb_forall.
      + revert b Hb. now apply forallb_forall.
    - repeat constructor; unfold pod_key_le, le_by; vm_compute; discriminate. }
  split; [exact H1|]. split; [exact H2|]. split; [exact H3|]. split; [exact H4|].
  exact (decode_pods_sorted_listing sorted_pod_listing sorted_pod_items H1 H2 H3 H4).
Defined.

Module ChartFacts.

(** Looking a key up in a table built from a list of keys. *)
Lemma lookup_tabulate (f : string -> nat) (idx : list string) (k : string) :
  Pandas.lookup String.eqb k (map (fun n => (n, f n)) idx)
  = if existsb (String.eqb k) idx then Some (f k) else None.
Proof.
  induction idx as [|n t IH]; [reflexivity|].
  cbn [map Pandas.lookup existsb fst snd].
  destruct (String.eqb k n) eqn:E.
  - apply String.eqb_eq in E. now subst.
  - exact IH.
Qed.

Lemma combine_tabulate {A B : Type} (f : A -> B) (l : list A) :
  combine l (map f l) = map (fun a => (a, f a)) l.
Proof.
  induction l as [|a t IH]; [reflexivity|]. simpl. now rewrite IH.
Qed.

End ChartFacts.

(** X27.  For pod records with text for node and microservice, the bar
    chart and the pivot are aligned: [pods_per_node] lists the row labels of
    the pivot in the pivot's order, each with the sum of the cells of its
    row. *)
Theorem pods_per_node_is_pivot_margin :
  forall pods_df : list Pods.row,
    forallb has_str_keys pods_df = true ->
    exists t : Pivot.frame,
      pivot pods_df = Ok t /\
      pods_per_node pods_df
      = combine (Pivot.index t) (map list_sum (Pivot.values t)).
Proof.
  intros pods_df Hstr. exists (counts_table pods_df).
  split; [apply PivotTable.pivot_table|].
  assert (Hrows :
    map list_sum (Pivot.values (counts_table pods_df))
    = map (fun n => pods_on n pods_df) (Pivot.index (counts_table pods_df))).
  { unfold counts_table. cbn [Pivot.values Pivot.index].
    rewrite map_map. apply map_ext_in. intros n Hn.
    rewrite (map_ext _ (fun c => pods_on_of n c pods_df))
      by (intros c; apply PivotTable.size_count).
    apply PivotFacts.row_sum; [apply PivotTable.columns_NoDup|].
    intros r Hr.
    destruct (PivotTable.keys_str pods_df Hstr r Hr) as [n' [m [_ [Hm _]]]].
    exists m. split; [exact Hm|].
    apply (PivotTable.columns_observed pods_df Hstr). eauto. }
  rewrite Hrows, ChartFacts.combine_tabulate.
  apply (GroupExtra.sorted_table_ext String_as_OT.compare String.eqb
           OrderFacts.string_order OrderFacts.string_compare_eq String.eqb_eq).
  - apply (GroupFacts.group_sizes_sorted _ OrderFacts.string_order
             OrderFacts.string_compare_eq).
  - rewrite map_map. cbn [fst]. rewrite map_id.
    unfold counts_table, Pandas.unique_sorted. cbn [Pivot.index].
    apply (GroupFacts.group_sizes_sorted _ OrderFacts.string_order
             OrderFacts.string_compare_eq).
  - intros k. rewrite ChartFacts.lookup_tabulate.
    destruct (existsb (String.eqb k) (Pivot.index (counts_table pods_df))) eqn:E.
    + apply (PivotTable.pods_per_node_lookup pods_df Hstr).
      apply existsb_exists in E. destruct E as [k' [Hin Hk]].
      apply String.eqb_eq in Hk. now subst.
    + unfold pods_per_node.
      rewrite (GroupExtra.lookup_group_sizes String_as_OT.compare String.eqb
                 OrderFacts.string_order OrderFacts.string_compare_eq String.eqb_eq).
      destruct (existsb (String.eqb k)
                  (keys_of (fun r => Pandas.str_key (Pods.node r)) pods_df)) eqn:E2;
        [|reflexivity].
      exfalso.
      apply existsb_exists in E2. destruct E2 as [k' [Hin Hk]].
      apply String.eqb_eq in Hk. subst k'.
      assert (Hobs : exists r, In r pods_df /\ Pods.node r = PStr k).
      { clear - Hin. induction pods_df as [|r t IH]; [contradiction|].
        cbn [keys_of] in Hin.
        destruct (Pods.node r) eqn:En; cbn [Pandas.str_key] in Hin;
          try (destruct (IH Hin) as [r' [Hr' Hn']]; exists r'; split;
               [now right | exact Hn']).
        destruct Hin as [<-|Hin].
        - exists r. split; [now left | exact En].
        - destruct (IH Hin) as [r' [Hr' Hn']]. exists r'. split; [now right | exact Hn']. }
      apply (PivotTable.index_observed pods_df Hstr) in Hobs.
      assert (Hex : existsb (String.eqb k) (Pivot.index (counts_table pods_df)) = true).
      { apply existsb_exists. exists k. split; [exact Hobs | apply String.eqb_refl]. }
      congruence.
Qed.

Lemma pods_per_node_is_pivot_margin_witness :
  forallb has_str_keys sample_pods_df = true /\
  exists t : Pivot.frame,
    pivot sample_pods_df = Ok t /\
    pods_per_node sample_pods_df
    = combine (Pivot.index t) (map list_sum (Pivot.values t)).
Proof.
  assert (H : forallb has_str_keys sample_pods_df = true) by reflexivity.
  split; [exact H|].
  exact (pods_per_node_is_pivot_margin sample_pods_df H).
Defined.
